(** * X10 club bot: subscription and payment lifecycle engine

    A shallow embedding of the ledger store ([database.py]), of the helpers
    of [utils.py], of the payment, referral and start handlers and of the
    scheduled jobs ([scheduled_tasks.py]), followed by the properties proved
    about them.

    Conventions of the embedding.
    - A naive [datetime] is an integer number of microseconds on the local
      wall clock; [timedelta(days=d)] is [d * 86400000000].  The range checks
      of Python's [datetime] (years 1..9999) are not modelled.
    - A table is the list of its rows in rowid order.  Nothing in the code
      deletes a row, so the rowid given by AUTOINCREMENT is one more than the
      largest rowid of the table.
    - The outside world (clocks, the Bot API, the Crypto Pay API) is an
      [Env] of oracles indexed by the number of interactions made so far;
      a [World] carries the database, that counter and the log of the Bot
      API calls.  Code runs in the monad [M] of state and exceptions.
    - A [float] is the primitive binary64 number of the kernel, with its
      primitive operations; conversions to and from [int] and to decimal
      text are computed from the exact binary value.
    - A [str] whose characters matter beyond ASCII is a list of code
      points; the other texts are lists of 8-bit characters. *)

From Stdlib Require Import ZArith NArith List Bool Lia String Ascii Permutation
  Sorted.
From Stdlib Require PrimFloat FloatOps SpecFloat.
Import ListNotations.
Local Open Scope Z_scope.

(** ** Data model (the tables of [Database.create_tables]) *)

Definition datetime := Z.

Definition timedelta (days : Z) : Z := days * 86400000000.

Definition timedelta_seconds (s : Z) : Z := s * 1000000.

(** The values written to the TEXT [status] columns. *)
Inductive status : Type := active | pending | confirmed | expired.

Definition status_eqb (a b : status) : bool :=
  match a, b with
  | active, active | pending, pending
  | confirmed, confirmed | expired, expired => true
  | _, _ => false
  end.

Record User : Type := mkUser {
  user_id : Z;
  username : option string;
  first_name : option string;
  last_name : option string;
  registration_date : Z;
  balance : Z;
  is_admin : bool
}.

Record Subscription : Type := mkSubscription {
  subscription_id : Z;
  sub_user_id : Z;
  start_date : Z;
  end_date : datetime;
  sub_status : status
}.

Record Payment : Type := mkPayment {
  payment_id : Z;
  pay_user_id : Z;
  amount : Z;
  product_type : string;
  payment_method : string;
  pay_status : status;
  created_at : Z;
  confirmed_at : option datetime
}.

Record CryptoPayment : Type := mkCryptoPayment {
  cp_payment_id : Z;
  cp_user_id : Z;
  invoice_id : string;
  asset : string;
  cp_amount : string;
  cp_product_type : string;
  cp_status : status;
  cp_created_at : Z;
  paid_at : option datetime
}.

Record Referral : Type := mkReferral {
  referral_id : Z;
  ref_user_id : Z;
  referrer_id : Z;
  join_date : Z;
  is_active : bool
}.

Record Database : Type := mkDatabase {
  users : list User;
  subscriptions : list Subscription;
  payments : list Payment;
  crypto_payments : list CryptoPayment;
  referrals : list Referral
}.

Definition empty_db : Database := mkDatabase [] [] [] [] [].

Definition with_users (d : Database) (x : list User) : Database :=
  mkDatabase x (subscriptions d) (payments d) (crypto_payments d) (referrals d).

Definition with_subscriptions (d : Database) (x : list Subscription) : Database :=
  mkDatabase (users d) x (payments d) (crypto_payments d) (referrals d).

Definition with_payments (d : Database) (x : list Payment) : Database :=
  mkDatabase (users d) (subscriptions d) x (crypto_payments d) (referrals d).

Definition with_crypto_payments (d : Database) (x : list CryptoPayment) : Database :=
  mkDatabase (users d) (subscriptions d) (payments d) x (referrals d).

Definition with_referrals (d : Database) (x : list Referral) : Database :=
  mkDatabase (users d) (subscriptions d) (payments d) (crypto_payments d) x.

(** [cursor.lastrowid] after an INSERT into an AUTOINCREMENT table whose
    rowids are [ids]. *)
Definition lastrowid (ids : list Z) : Z := 1 + fold_right Z.max 0 ids.

(** ** Configuration ([config.py]) *)

Record CryptoPayConfig : Type := mkCryptoPayConfig {
  api_token : string;
  is_testnet : bool
}.

(** [Config] with its nested dataclasses flattened.  The dataclass declares
    no [crypto_pay] field, yet the crypto poll job reads
    [config.crypto_pay]: the attribute is present only on a configuration
    object that was given one, hence the [option]. *)
Record Config : Type := mkConfig {
  admin_ids : list Z;
  group_id : Z;
  club_price : Z;
  vietnam_tour_price : Z;
  consultation_price : Z;
  points_per_referral : Z;
  free_days : Z;
  crypto_pay : option CryptoPayConfig
}.

(** ** The outside world *)

(** What [CryptoPayAPI.check_invoice] gives: an exception (transport error,
    [ok] false, empty result) or the first invoice, of which the job reads
    [invoice.get('status')]. *)
Inductive invoice_reply : Type :=
| InvoiceError
| InvoiceFound (st : option string).

Record Env : Type := mkEnv {
  env_now : nat -> datetime;
  env_sql_now : nat -> Z;
  env_sql_datetime : datetime -> Z;
  env_sql_date : datetime -> Z;
  env_bot_ok : nat -> bool;
  env_invoice : nat -> string -> invoice_reply
}.

(** The texts sent by the bot, by kind. *)
Inductive Msg : Type :=
| MsgSubscriptionEnd (days_left : Z)
| MsgCryptoConfirmedClub (days : Z)
| MsgCryptoConfirmedOther (product : string)
| MsgAdminCryptoConfirmed (user : Z) (product : string)
| MsgCryptoExpired
| MsgReferralReward (points : Z)
| MsgReferralWelcome (days : Z)
| MsgGreeting
| MsgMilestone (count : Z)
| MsgNotAdmin
| MsgBadFormat
| MsgIdNotNumber
| MsgPaymentNotFound (id : Z)
| MsgAlreadyConfirmed (id : Z)
| MsgPaymentConfirmedClub
| MsgPaymentConfirmedOther (product : string)
| MsgAdminConfirmReport (id : Z) (product : string) (customer : Z)
| MsgPaymentError
| MsgStarsThanksClub
| MsgStarsThanksOther
| MsgAdminStarsPayment (user : Z) (product : string) (amount : Z)
| MsgPayMethodError
| MsgCardDetails (product : string) (amount : Z)
| MsgStarsOffer (stars amount : Z) (product : string)
| MsgCryptoSelectError
| MsgCryptoDetails (product asset amount_crypto_str : string)
| MsgCryptoCreateError.

(** Bot API calls, as logged by the model (the most recent first). *)
Inductive Event : Type :=
| SendMessage (chat : Z) (m : Msg) (ok : bool)
| BanChatMember (chat user : Z) (until_date : datetime) (ok : bool)
| EditMessageText (chat : Z) (m : Msg) (ok : bool)
| SendInvoice (chat : Z) (payload : string) (price : Z) (ok : bool)
| AnswerCallbackQuery (ok : bool).

Record World : Type := mkWorld {
  db : Database;
  tick : nat;
  log : list Event
}.

Definition initial_world : World := mkWorld empty_db 0 [].

(** ** The monad of state and exceptions *)

Inductive exn : Type :=
| TelegramError
| CryptoPayError
| AttributeError
| ValueError
| IndexError
| OverflowError
| KeyError.

Inductive result (A : Type) : Type :=
| Ok (a : A)
| Raise (e : exn).

Arguments Ok {A} a.
Arguments Raise {A} e.

Definition M (A : Type) : Type := World -> result A * World.

Definition ret {A : Type} (a : A) : M A := fun w => (Ok a, w).

Definition bind {A B : Type} (c : M A) (k : A -> M B) : M B :=
  fun w =>
    match c w with
    | (Ok a, w') => k a w'
    | (Raise e, w') => (Raise e, w')
    end.

Definition raise {A : Type} (e : exn) : M A := fun w => (Raise e, w).

(** [try: c  except Exception as e: h e] *)
Definition try_except {A : Type} (c : M A) (h : exn -> M A) : M A :=
  fun w =>
    match c w with
    | (Ok a, w') => (Ok a, w')
    | (Raise e, w') => h e w'
    end.

Declare Scope monad_scope.
Delimit Scope monad_scope with monad.
Notation "x <- c ;; k" := (bind c (fun x => k))
  (at level 61, c at next level, right associativity) : monad_scope.
Notation "c ;; k" := (bind c (fun _ => k))
  (at level 61, right associativity) : monad_scope.
Local Open Scope monad_scope.

(** [for x in xs: body x]; an exception leaving [body] ends the loop. *)
Fixpoint for_each {A : Type} (xs : list A) (body : A -> M unit) : M unit :=
  match xs with
  | [] => ret tt
  | x :: xs' => body x ;; for_each xs' body
  end.

Definition get_db : M Database := fun w => (Ok (db w), w).

Definition put_db (d : Database) : M unit :=
  fun w => (Ok tt, mkWorld d (tick w) (log w)).

Definition exec {A : Type} (c : M A) (w : World) : World := snd (c w).


(** ** Python strings

    A [str] or [bytes] value is a [string] of 8-bit characters; the texts the
    modelled code inspects are ASCII. *)

Definition is_char (x : N) (c : ascii) : bool := N.eqb (N_of_ascii c) x.

(** [s[n:]] *)
Fixpoint drop (n : nat) (s : string) : string :=
  match n, s with
  | O, _ => s
  | S _, EmptyString => EmptyString
  | S k, String _ s' => drop k s'
  end.

(** [s.split(sep)] for a one-character separator. *)
Fixpoint split_on (sep : ascii) (s : string) : list string :=
  match s with
  | EmptyString => [EmptyString]
  | String c s' =>
      if Ascii.eqb c sep then EmptyString :: split_on sep s'
      else match split_on sep s' with
           | [] => [String c EmptyString]
           | h :: t => String c h :: t
           end
  end.

(** [sep.join(parts)], the inverse direction of [split_on]. *)
Fixpoint join_with (sep : ascii) (parts : list string) : string :=
  match parts with
  | [] => EmptyString
  | [p] => p
  | p :: rest => String.append p (String sep (join_with sep rest))
  end.

(** The characters [str.isspace] accepts below 128. *)
Definition is_space (c : ascii) : bool :=
  let n := N_of_ascii c in
  ((9 <=? n) && (n <=? 13) || (28 <=? n) && (n <=? 32))%N.

Fixpoint lstrip (s : string) : string :=
  match s with
  | EmptyString => EmptyString
  | String c s' => if is_space c then lstrip s' else s
  end.

Fixpoint rstrip (s : string) : string :=
  match s with
  | EmptyString => EmptyString
  | String c s' =>
      match rstrip s' with
      | EmptyString => if is_space c then EmptyString else String c EmptyString
      | r => String c r
      end
  end.

Definition strip (s : string) : string := rstrip (lstrip s).

(** *** [int(s)] and [str(n)]

    [int] of a text: surrounding whitespace is dropped, one sign is allowed,
    then decimal digits, single underscores being allowed between digits.
    [None] stands for ValueError.  Digits outside ASCII and the limit on the
    number of digits ([sys.set_int_max_str_digits]) are not modelled. *)

Definition digit_val (c : ascii) : option Z :=
  let n := N_of_ascii c in
  if ((48 <=? n) && (n <=? 57))%N then Some (Z.of_N n - 48) else None.

Fixpoint parse_digits (s : string) (acc : Z) (after_digit : bool) : option Z :=
  match s with
  | EmptyString => if after_digit then Some acc else None
  | String c s' =>
      match digit_val c with
      | Some d => parse_digits s' (10 * acc + d) true
      | None =>
          if is_char 95 c && after_digit then parse_digits s' acc false
          else None
      end
  end.

Definition int_of_str (s : string) : option Z :=
  match strip s with
  | EmptyString => None
  | String c s' =>
      if is_char 45 c then option_map Z.opp (parse_digits s' 0 false)
      else if is_char 43 c then parse_digits s' 0 false
      else parse_digits (String c s') 0 false
  end.

Definition digit_char (d : Z) : ascii := ascii_of_N (Z.to_N (48 + d)).

Fixpoint digits_of (fuel : nat) (n : Z) (acc : string) : string :=
  match fuel with
  | O => acc
  | S f =>
      let acc' := String (digit_char (n mod 10)) acc in
      if n <? 10 then acc' else digits_of f (n / 10) acc'
  end.

(** The decimal digits of [n >= 0]; [n < 2 ^ (1 + log2 n)] bounds their number. *)
Definition str_of_nonneg (n : Z) : string :=
  digits_of (S (Z.to_nat (Z.log2 n))) n EmptyString.

Definition str_of_int (n : Z) : string :=
  if n <? 0 then String (ascii_of_N 45) (str_of_nonneg (- n))
  else str_of_nonneg n.

(** [b.decode()] of bytes that are ASCII; a byte above 127 is outside the
    model and reported as UnicodeDecodeError. *)
Fixpoint decode_ascii (b : string) : option string :=
  match b with
  | EmptyString => Some EmptyString
  | String c b' =>
      if (N_of_ascii c <? 128)%N
      then option_map (String c) (decode_ascii b')
      else None
  end.

(** ** [base64] of the Python standard library *)

Module Base64.

Definition table_b2a_base64 : string :=
  "ABCDEFGHIJKLMNOPQRSTUVWXYZabcdefghijklmnopqrstuvwxyz0123456789+/".

Definition BASE64_PAD : ascii := ascii_of_N 61.

Definition b2a (v : N) : ascii :=
  match String.get (N.to_nat v) table_b2a_base64 with
  | Some c => c
  | None => BASE64_PAD
  end.

Fixpoint index_from (c : ascii) (s : string) (i : N) : option N :=
  match s with
  | EmptyString => None
  | String x s' => if Ascii.eqb x c then Some i else index_from c s' (N.succ i)
  end.

(** [table_a2b_base64]: the value of an alphabet character, [None] for the
    others. *)
Definition a2b (c : ascii) : option N := index_from c table_b2a_base64 0.

(** [binascii.b2a_base64(s, newline=False)] *)
Fixpoint b64encode (s : string) : string :=
  match s with
  | EmptyString => EmptyString
  | String x EmptyString =>
      let a := N_of_ascii x in
      String (b2a (a / 4)) (String (b2a ((a mod 4) * 16))
        (String BASE64_PAD (String BASE64_PAD EmptyString)))
  | String x (String y EmptyString) =>
      let a := N_of_ascii x in
      let b := N_of_ascii y in
      String (b2a (a / 4)) (String (b2a ((a mod 4) * 16 + b / 16))
        (String (b2a ((b mod 16) * 4)) (String BASE64_PAD EmptyString)))
  | String x (String y (String z rest)) =>
      let a := N_of_ascii x in
      let b := N_of_ascii y in
      let c := N_of_ascii z in
      String (b2a (a / 4)) (String (b2a ((a mod 4) * 16 + b / 16))
        (String (b2a ((b mod 16) * 4 + c / 64)) (String (b2a (c mod 64))
          (b64encode rest))))
  end%N.

(** [bytes.maketrans(b'+/', b'-_')] and its inverse, applied by [translate]. *)
Definition urlsafe_encode_char (c : ascii) : ascii :=
  if is_char 43 c then ascii_of_N 45
  else if is_char 47 c then ascii_of_N 95 else c.

Definition urlsafe_decode_char (c : ascii) : ascii :=
  if is_char 45 c then ascii_of_N 43
  else if is_char 95 c then ascii_of_N 47 else c.

Fixpoint translate (f : ascii -> ascii) (s : string) : string :=
  match s with
  | EmptyString => EmptyString
  | String c s' => String (f c) (translate f s')
  end.

Definition urlsafe_b64encode (s : string) : string :=
  translate urlsafe_encode_char (b64encode s).

(** [binascii.a2b_base64] in its default, non-strict mode, after the loop of
    CPython 3.11: [quad_pos] counts the characters of the current group,
    [leftchar] holds its pending bits, [pads] the padding seen since the last
    data character; characters outside the alphabet are skipped, a padding
    that completes a group ends the input, and a group left open at the end
    is an error ([None]). *)
Fixpoint a2b_base64_loop (s : string) (quad_pos leftchar pads : N)
         (bin_data : string) : option string :=
  match s with
  | EmptyString => if (quad_pos =? 0)%N then Some bin_data else None
  | String this_ch s' =>
      if Ascii.eqb this_ch BASE64_PAD then
        if (2 <=? quad_pos)%N then
          if (4 <=? quad_pos + (pads + 1))%N then Some bin_data
          else a2b_base64_loop s' quad_pos leftchar (pads + 1) bin_data
        else a2b_base64_loop s' quad_pos leftchar pads bin_data
      else
        match a2b this_ch with
        | None => a2b_base64_loop s' quad_pos leftchar pads bin_data
        | Some v =>
            let emit (x : N) :=
              String.append bin_data
                (String (ascii_of_N (x mod 256)) EmptyString) in
            if (quad_pos =? 0)%N then
              a2b_base64_loop s' 1 v 0 bin_data
            else if (quad_pos =? 1)%N then
              a2b_base64_loop s' 2 (N.land v 15) 0
                (emit (N.lor (N.shiftl leftchar 2) (N.shiftr v 4)))
            else if (quad_pos =? 2)%N then
              a2b_base64_loop s' 3 (N.land v 3) 0
                (emit (N.lor (N.shiftl leftchar 4) (N.shiftr v 2)))
            else
              a2b_base64_loop s' 0 0 0
                (emit (N.lor (N.shiftl leftchar 6) v))
        end
  end.

Definition a2b_base64 (s : string) : option string :=
  a2b_base64_loop s 0 0 0 EmptyString.

Definition urlsafe_b64decode (s : string) : option string :=
  a2b_base64 (translate urlsafe_decode_char s).

End Base64.

(** ** [utils.py]: referral links *)

(** [s.rstrip('=')] *)
Fixpoint rstrip_pad (s : string) : string :=
  match s with
  | EmptyString => EmptyString
  | String c s' =>
      match rstrip_pad s' with
      | EmptyString =>
          if Ascii.eqb c Base64.BASE64_PAD then EmptyString
          else String c EmptyString
      | r => String c r
      end
  end.

(** ['=' * n] *)
Fixpoint pad_string (n : nat) : string :=
  match n with
  | O => EmptyString
  | S k => String Base64.BASE64_PAD (pad_string k)
  end.

(** The start parameter [ref_<encoded_id>] that [generate_ref_link] puts in
    the link. *)
Definition ref_start_param (uid : Z) : string :=
  String.append "ref_" (rstrip_pad (Base64.urlsafe_b64encode (str_of_int uid))).

Definition generate_ref_link (bot_username : string) (uid : Z) : string :=
  String.append "https://t.me/"
    (String.append bot_username
       (String.append "?start=" (ref_start_param uid))).

Definition extract_referrer_id (start_param : string) : option Z :=
  if (String.length start_param =? 0)%nat
     || negb (String.prefix "ref_" start_param)
  then None
  else
    let encoded_id := drop 4 start_param in
    let padding := pad_string (4 - Nat.modulo (String.length encoded_id) 4) in
    match Base64.urlsafe_b64decode (String.append encoded_id padding) with
    | None => None
    | Some raw =>
        match decode_ascii raw with
        | None => None
        | Some decoded => int_of_str decoded
        end
    end.

(** ** [utils.py]: callback data and phone numbers *)

(** The dict that [parse_callback_data] returns: [action] is always there,
    the other keys only when the text has enough parts. *)
Record CallbackData : Type := mkCallbackData {
  cb_action : string;
  cb_product : option string;
  cb_method : option string;
  cb_id : option string
}.

Definition parse_callback_data (callback_data : string) : CallbackData :=
  let parts := split_on (ascii_of_N 58) callback_data in
  mkCallbackData (nth 0 parts EmptyString) (nth_error parts 1)
                 (nth_error parts 2) (nth_error parts 3).

(** The callback data of the buttons of [keyboards.payment_methods_kb]:
    [f"pay_method:{product_type}:{method}"]. *)
Definition pay_method_callback (product method : string) : string :=
  String.append "pay_method:"
    (String.append product (String (ascii_of_N 58) method)).

(** The invoice payload that [callback_pay_method] sends with a Stars
    invoice: [f"payment_{payment_id}"]. *)
Definition stars_invoice_payload (pid : Z) : string :=
  String.append "payment_" (str_of_int pid).

(** A Python [str] is a sequence of code points. *)
Definition code_points := list N.

Definition code_points_of (s : string) : code_points :=
  map N_of_ascii (list_ascii_of_string s).

(** The decimal digits of Unicode 14.0, the version of CPython 3.11, as
    ranges of code points (category Nd). *)
Definition nd_ranges_unicode_14 : list (N * N) :=
  [(48, 57); (1632, 1641); (1776, 1785); (1984, 1993); (2406, 2415);
   (2534, 2543); (2662, 2671); (2790, 2799); (2918, 2927); (3046, 3055);
   (3174, 3183); (3302, 3311); (3430, 3439); (3558, 3567); (3664, 3673);
   (3792, 3801); (3872, 3881); (4160, 4169); (4240, 4249); (6112, 6121);
   (6160, 6169); (6470, 6479); (6608, 6617); (6784, 6793); (6800, 6809);
   (6992, 7001); (7088, 7097); (7232, 7241); (7248, 7257); (42528, 42537);
   (43216, 43225); (43264, 43273); (43472, 43481); (43504, 43513);
   (43600, 43609); (44016, 44025); (65296, 65305); (66720, 66729);
   (68912, 68921); (69734, 69743); (69872, 69881); (69942, 69951);
   (70096, 70105); (70384, 70393); (70736, 70745); (70864, 70873);
   (71248, 71257); (71360, 71369); (71472, 71481); (71904, 71913);
   (72016, 72025); (72784, 72793); (73040, 73049); (73120, 73129);
   (92768, 92777); (92864, 92873); (93008, 93017); (120782, 120831);
   (123200, 123209); (123632, 123641); (125264, 125273); (130032, 130041)]%N.

Definition isdecimal_unicode_14 (c : N) : bool :=
  existsb (fun r => (fst r <=? c) && (c <=? snd r))%N nd_ranges_unicode_14.

Section Phone.

(** [isdecimal c]: the code point [c] is a decimal digit in the Unicode
    version of the interpreter.  In a [str] pattern [\d] matches exactly
    these code points, not only [0] to [9]. *)
Variable isdecimal : N -> bool.

(** [re.sub(r'[^\d]', '', phone)] *)
Definition digits_only (phone : code_points) : code_points :=
  filter isdecimal phone.

Definition validate_phone_number (phone : code_points) : bool :=
  let n := List.length (digits_only phone) in
  ((10 <=? n) && (n <=? 15))%nat.

End Phone.


(** ** Python floats

    A Python [float] is an IEEE 754 binary64 number, here the primitive
    [float] of the kernel; [*] and [/] on floats are the primitive
    operations, rounding to nearest, ties to even. *)

Module PyFloat.
Import PrimFloat FloatOps SpecFloat.

(** [float(n)] for an int [n], as the mixed operations [int * float] and
    [float / int] apply it: the nearest binary64, ties to even, and
    OverflowError ([None]) when [n] is too large for a finite one. *)
Definition float_of_int (n : Z) : option float :=
  let x := SF2Prim (binary_normalize prec emax n 0 false) in
  if is_infinity x then None else Some x.

(** [int(x)]: the integer part, truncated towards zero; OverflowError for
    an infinity and ValueError for a NaN (both [None]). *)
Definition int_of_float (x : float) : option Z :=
  match Prim2SF x with
  | S754_zero _ => Some 0
  | S754_finite s m e =>
      let v := if 0 <=? e then Z.shiftl (Z.pos m) e
               else Z.shiftr (Z.pos m) (- e) in
      Some (if s then - v else v)
  | _ => None
  end.

(** [n / 2 ^ k] rounded to the nearest integer, ties to even ([k > 0]). *)
Definition round_half_even_shift (n k : Z) : Z :=
  let q := Z.shiftr n k in
  let r := Z.land n (Z.ones k) in
  let half := Z.shiftl 1 (k - 1) in
  if r <? half then q
  else if half <? r then q + 1
  else if Z.even q then q else q + 1.

(** The value [m * 2 ^ e] in millionths, correctly rounded: what the
    conversion behind ["{:.6f}"] computes from the exact binary value. *)
Definition millionths (m : positive) (e : Z) : Z :=
  let n := Z.pos m * 1000000 in
  if 0 <=? e then Z.shiftl n e else round_half_even_shift n (- e).

(** [s.rjust(width, '0')] *)
Definition zfill (width : nat) (s : string) : string :=
  String.append
    (string_of_list_ascii (repeat (ascii_of_N 48) (width - String.length s)))
    s.

(** A number of millionths written with six digits after the point. *)
Definition render6 (negative : bool) (u : Z) : string :=
  String.append (if negative then "-" else "")
    (String.append (str_of_nonneg (u / 1000000))
       (String (ascii_of_N 46) (zfill 6 (str_of_nonneg (u mod 1000000))))).

(** ["{:.6f}".format(x)] *)
Definition format_6f (x : float) : string :=
  match Prim2SF x with
  | S754_zero s => render6 s 0
  | S754_finite s m e => render6 s (millionths m e)
  | S754_infinity s => if s then "-inf" else "inf"
  | S754_nan => "nan"
  end.

End PyFloat.

(** ** The price conversions of [callback_pay_method] and
    [callback_crypto_asset] *)

Module Pricing.
Import PrimFloat.

(** [int(amount * 0.75)] *)
Definition stars_amount (amount : Z) : option Z :=
  match PyFloat.float_of_int amount with
  | Some a => PyFloat.int_of_float (a * 0.75)%float
  | None => None
  end.

(** The dict [crypto_rates]; [None] is the KeyError of the lookup. *)
Definition crypto_rates (asset : string) : option Z :=
  if String.eqb asset "BTC" then Some 60000
  else if String.eqb asset "ETH" then Some 30000
  else if String.eqb asset "USDT" then Some 1
  else None.

(** [rub_to_usd = 1 / 75.0] *)
Definition rub_to_usd : float := (1 / 75)%float.

(** [amount_usd = payment_info["amount"] * rub_to_usd] *)
Definition amount_usd (amount : Z) : option float :=
  option_map (fun a => (a * rub_to_usd)%float) (PyFloat.float_of_int amount).

(** [amount_crypto = amount_usd / crypto_rates[asset]] *)
Definition amount_crypto (usd : float) (rate : Z) : option float :=
  option_map (fun r => (usd / r)%float) (PyFloat.float_of_int rate).

(** The amount as the specification writes it,
    [(fiat_amount / 75.0) / asset_usd_rate], in the same arithmetic. *)
Definition amount_crypto_as_specified (amount rate : Z) : option float :=
  match PyFloat.float_of_int amount, PyFloat.float_of_int rate with
  | Some a, Some r => Some (a / 75 / r)%float
  | _, _ => None
  end.

(** The millionths that ["{:.6f}"] prints for a float that is not
    negative. *)
Definition nonneg_millionths (x : float) : option Z :=
  match FloatOps.Prim2SF x with
  | SpecFloat.S754_zero false => Some 0
  | SpecFloat.S754_finite false m e => Some (PyFloat.millionths m e)
  | _ => None
  end.

End Pricing.
Section Engine.

Variable env : Env.

(** ** Interactions with the outside world *)

(** [datetime.datetime.now()] *)
Definition now : M datetime :=
  fun w => (Ok (env_now env (tick w)), mkWorld (db w) (S (tick w)) (log w)).

(** SQLite's CURRENT_TIMESTAMP and [datetime('now')], in whole seconds. *)
Definition sql_now : M Z :=
  fun w => (Ok (env_sql_now env (tick w)), mkWorld (db w) (S (tick w)) (log w)).

(** A Bot API call: logged, and raising when the platform refuses it. *)
Definition bot_call (e : bool -> Event) : M unit :=
  fun w =>
    let ok := env_bot_ok env (tick w) in
    (if ok then Ok tt else Raise TelegramError,
     mkWorld (db w) (S (tick w)) (e ok :: log w)).

Definition send_message (chat : Z) (m : Msg) : M unit :=
  bot_call (SendMessage chat m).

Definition ban_chat_member (chat user : Z) (until_date : datetime) : M unit :=
  bot_call (BanChatMember chat user until_date).

(** [CryptoPayAPI.check_invoice] followed by [invoice.get('status')]. *)
Definition check_invoice_status (invoice : string) : M (option string) :=
  fun w =>
    let w' := mkWorld (db w) (S (tick w)) (log w) in
    match env_invoice env (tick w) invoice with
    | InvoiceError => (Raise CryptoPayError, w')
    | InvoiceFound st => (Ok st, w')
    end.

(** ** [database.py]: users *)

Definition set_names (u : User) (un fn ln : option string) : User :=
  mkUser (user_id u) un fn ln (registration_date u) (balance u) (is_admin u).

Definition add_balance (u : User) (x : Z) : User :=
  mkUser (user_id u) (username u) (first_name u) (last_name u)
         (registration_date u) (balance u + x) (is_admin u).

(** SELECT ... FROM users WHERE user_id = ?, [fetchone]; [user_id] is the
    primary key, so at most one row matches. *)
Definition find_user (uid : Z) (us : list User) : option User :=
  find (fun u => user_id u =? uid) us.

Definition add_user (uid : Z) (un fn ln : option string) : M bool :=
  d <- get_db ;;
  match find_user uid (users d) with
  | Some _ =>
      put_db (with_users d
        (map (fun u => if user_id u =? uid then set_names u un fn ln else u)
             (users d)))
  | None =>
      t <- sql_now ;;
      put_db (with_users d (users d ++ [mkUser uid un fn ln t 0 false]))
  end ;;
  ret true.

Definition get_user (uid : Z) : M (option User) :=
  d <- get_db ;; ret (find_user uid (users d)).

Definition update_user_balance (uid x : Z) : M Z :=
  d <- get_db ;;
  let us := map (fun u => if user_id u =? uid then add_balance u x else u)
                (users d) in
  put_db (with_users d us) ;;
  ret (match find_user uid us with
       | Some u => balance u
       | None => 0
       end).

(** ** [database.py]: subscriptions *)

Definition set_end_date (s : Subscription) (e : datetime) : Subscription :=
  mkSubscription (subscription_id s) (sub_user_id s) (start_date s) e
                 (sub_status s).

Definition set_sub_status (s : Subscription) (st : status) : Subscription :=
  mkSubscription (subscription_id s) (sub_user_id s) (start_date s)
                 (end_date s) st.

(** ORDER BY end_date DESC LIMIT 1: a row of the greatest [end_date]; among
    equal dates the model takes the row of the smallest rowid. *)
Fixpoint max_end_row (rows : list Subscription) : option Subscription :=
  match rows with
  | [] => None
  | r :: rest =>
      match max_end_row rest with
      | Some m => if end_date r <? end_date m then Some m else Some r
      | None => Some r
      end
  end.

Definition is_active_of (uid : Z) (s : Subscription) : bool :=
  (sub_user_id s =? uid) && status_eqb (sub_status s) active.

(** SELECT subscription_id, end_date FROM subscriptions
    WHERE user_id = ? AND status = 'active' ORDER BY end_date DESC LIMIT 1 *)
Definition select_latest_active (uid : Z) (subs : list Subscription)
  : option Subscription :=
  max_end_row (filter (is_active_of uid) subs).

Definition add_subscription (uid days : Z) : M Z :=
  t <- now ;;
  let end_date0 := t + timedelta days in
  d <- get_db ;;
  match select_latest_active uid (subscriptions d) with
  | Some existing_sub =>
      let sid := subscription_id existing_sub in
      let current_end := end_date existing_sub in
      t' <- now ;;
      let new_end_date :=
        if current_end <? t' then end_date0
        else current_end + timedelta days in
      put_db (with_subscriptions d
        (map (fun s => if subscription_id s =? sid
                       then set_end_date s new_end_date else s)
             (subscriptions d))) ;;
      ret sid
  | None =>
      st <- sql_now ;;
      let sid := lastrowid (map subscription_id (subscriptions d)) in
      put_db (with_subscriptions d
        (subscriptions d ++ [mkSubscription sid uid st end_date0 active])) ;;
      ret sid
  end.

(** SELECT s.*, u.* FROM subscriptions s JOIN users u ON s.user_id = u.user_id
    WHERE s.status = 'active' AND datetime(s.end_date) < datetime('now') *)
Definition get_expired_subscriptions : M (list (Subscription * User)) :=
  t <- sql_now ;;
  d <- get_db ;;
  ret (flat_map
         (fun s =>
            if status_eqb (sub_status s) active
               && (env_sql_datetime env (end_date s) <? t)
            then match find_user (sub_user_id s) (users d) with
                 | Some u => [(s, u)]
                 | None => []
                 end
            else [])
         (subscriptions d)).

(** The same join with WHERE s.status = 'active' AND date(s.end_date) = date(?),
    the parameter being the date of [now() + timedelta(days)]. *)
Definition get_expiring_subscriptions (days : Z)
  : M (list (Subscription * User)) :=
  t <- now ;;
  let target_date := env_sql_date env (t + timedelta days) in
  d <- get_db ;;
  ret (flat_map
         (fun s =>
            if status_eqb (sub_status s) active
               && (env_sql_date env (end_date s) =? target_date)
            then match find_user (sub_user_id s) (users d) with
                 | Some u => [(s, u)]
                 | None => []
                 end
            else [])
         (subscriptions d)).

Definition deactivate_subscription (sid : Z) : M bool :=
  d <- get_db ;;
  put_db (with_subscriptions d
    (map (fun s => if subscription_id s =? sid
                   then set_sub_status s expired else s)
         (subscriptions d))) ;;
  ret true.

(** ** [database.py]: payments *)

Definition confirm_row (p : Payment) (t : datetime) : Payment :=
  mkPayment (payment_id p) (pay_user_id p) (amount p) (product_type p)
            (payment_method p) confirmed (created_at p) (Some t).

Definition create_payment (uid amt : Z) (product method : string) : M Z :=
  t <- sql_now ;;
  d <- get_db ;;
  let pid := lastrowid (map payment_id (payments d)) in
  put_db (with_payments d
    (payments d ++ [mkPayment pid uid amt product method pending t None])) ;;
  ret pid.

Definition confirm_payment (pid : Z) : M bool :=
  t <- now ;;
  d <- get_db ;;
  put_db (with_payments d
    (map (fun p => if payment_id p =? pid then confirm_row p t else p)
         (payments d))) ;;
  ret true.

Definition get_payment (pid : Z) : M (option Payment) :=
  d <- get_db ;; ret (find (fun p => payment_id p =? pid) (payments d)).

(** ** [database.py]: crypto payments *)

Definition cp_confirm_row (p : CryptoPayment) (t : datetime) : CryptoPayment :=
  mkCryptoPayment (cp_payment_id p) (cp_user_id p) (invoice_id p) (asset p)
                  (cp_amount p) (cp_product_type p) confirmed
                  (cp_created_at p) (Some t).

Definition cp_expire_row (p : CryptoPayment) : CryptoPayment :=
  mkCryptoPayment (cp_payment_id p) (cp_user_id p) (invoice_id p) (asset p)
                  (cp_amount p) (cp_product_type p) expired
                  (cp_created_at p) (paid_at p).

Definition create_crypto_payment (uid : Z) (invoice asset0 amt product : string)
  : M Z :=
  t <- sql_now ;;
  d <- get_db ;;
  let pid := lastrowid (map cp_payment_id (crypto_payments d)) in
  put_db (with_crypto_payments d
    (crypto_payments d
       ++ [mkCryptoPayment pid uid invoice asset0 amt product pending t None])) ;;
  ret pid.

Definition confirm_crypto_payment (invoice : string) : M bool :=
  t <- now ;;
  d <- get_db ;;
  put_db (with_crypto_payments d
    (map (fun p => if String.eqb (invoice_id p) invoice
                   then cp_confirm_row p t else p)
         (crypto_payments d))) ;;
  ret true.

Definition get_crypto_payment_by_invoice (invoice : string)
  : M (option CryptoPayment) :=
  d <- get_db ;;
  ret (find (fun p => String.eqb (invoice_id p) invoice) (crypto_payments d)).

Definition get_crypto_payment_by_id (pid : Z) : M (option CryptoPayment) :=
  d <- get_db ;;
  ret (find (fun p => cp_payment_id p =? pid) (crypto_payments d)).

(** ORDER BY created_at DESC, as a stable insertion sort: rows of equal
    [created_at] come out in the order of the table, by rowid, as SQLite's
    sorter returns them. *)
Fixpoint insert_by_created_desc (p : CryptoPayment) (l : list CryptoPayment)
  : list CryptoPayment :=
  match l with
  | [] => [p]
  | q :: l' =>
      if cp_created_at q <=? cp_created_at p then p :: q :: l'
      else q :: insert_by_created_desc p l'
  end.

Definition sort_by_created_desc (l : list CryptoPayment) : list CryptoPayment :=
  fold_right insert_by_created_desc [] l.

(** SELECT cp.*, u.username, u.first_name FROM crypto_payments cp
    LEFT JOIN users u ON cp.user_id = u.user_id
    WHERE cp.status = 'pending' ORDER BY cp.created_at DESC *)
Definition get_pending_crypto_payments : M (list (CryptoPayment * option User)) :=
  d <- get_db ;;
  ret (map (fun p => (p, find_user (cp_user_id p) (users d)))
           (sort_by_created_desc
              (filter (fun p => status_eqb (cp_status p) pending)
                      (crypto_payments d)))).

Definition mark_crypto_payment_expired (invoice : string) : M bool :=
  d <- get_db ;;
  put_db (with_crypto_payments d
    (map (fun p => if String.eqb (invoice_id p) invoice
                   then cp_expire_row p else p)
         (crypto_payments d))) ;;
  ret true.

(** ** [database.py]: referrals *)

Definition add_referral (uid referrer : Z) : M Z :=
  d <- get_db ;;
  match find (fun r => ref_user_id r =? uid) (referrals d) with
  | Some _ => ret 0
  | None =>
      t <- sql_now ;;
      let rid := lastrowid (map referral_id (referrals d)) in
      put_db (with_referrals d
        (referrals d ++ [mkReferral rid uid referrer t true])) ;;
      ret rid
  end.

(** SELECT COUNT( * ) FROM referrals WHERE referrer_id = ? AND is_active = 1 *)
Definition count_user_referrals (uid : Z) : M Z :=
  d <- get_db ;;
  ret (Z.of_nat (List.length
         (filter (fun r => (referrer_id r =? uid) && is_active r)
                 (referrals d)))).

(** ** [utils.py] *)

Variable config : Config.

Record PaymentInfo : Type := mkPaymentInfo {
  info_amount : Z;
  info_days : Z
}.

(** The [amount] and [days] entries of the description; the display texts
    are left out. *)
Definition get_payment_description (product : string) : PaymentInfo :=
  if String.eqb product "club" then mkPaymentInfo (club_price config) 30
  else if String.eqb product "vietnam"
       then mkPaymentInfo (vietnam_tour_price config) 0
  else if String.eqb product "consultation"
       then mkPaymentInfo (consultation_price config) 0
  else mkPaymentInfo 0 0.

(** [get_user_name] reads the attribute [user.first_name].  The rows that
    [Database.get_user] returns are dicts, on which that lookup raises
    AttributeError. *)
Definition get_user_name_of_row (u : User) : M unit := raise AttributeError.

Definition kick_user_from_group (uid : Z) : M bool :=
  try_except
    (t <- now ;;
     ban_chat_member (group_id config) uid (t + timedelta_seconds 35) ;;
     ret true)
    (fun _ => ret false).

(** What [format_time_left] prints: the text for a passed date, or the
    numbers it puts in "d days h hours", "h hours m minutes", "m minutes". *)
Inductive TimeLeft : Type :=
| TimeExpired
| DaysHours (d h : Z)
| HoursMinutes (h m : Z)
| MinutesOnly (m : Z).

Definition format_time_left (end_date0 : datetime) : M TimeLeft :=
  t <- now ;;
  if end_date0 <? t then ret TimeExpired
  else
    let delta := end_date0 - t in
    let days := delta / 86400000000 in
    let seconds := (delta mod 86400000000) / 1000000 in
    let hours := seconds / 3600 in
    let minutes := (seconds mod 3600) / 60 in
    ret (if 0 <? days then DaysHours days hours
         else if 0 <? hours then HoursMinutes hours minutes
         else MinutesOnly minutes).

(** ** [handlers/start.py] *)

Definition check_referrer_bonuses (referrer : Z) : M unit :=
  referrals_count <- count_user_referrals referrer ;;
  user <- get_user referrer ;;
  match user with
  | None => ret tt
  | Some _ =>
      if referrals_count =? 3 then send_message referrer (MsgMilestone 3)
      else if referrals_count =? 5 then
        add_subscription referrer 30 ;;
        send_message referrer (MsgMilestone 5)
      else if referrals_count =? 10 then send_message referrer (MsgMilestone 10)
      else ret tt
  end.

(** [cmd_start]; [words] is [message.text.split()], the message comes from
    the user [uid] in the private chat of the same id. *)
Definition cmd_start (uid : Z) (un fn ln : option string) (words : list string)
  : M unit :=
  add_user uid un fn ln ;;
  let start_param :=
    if (1 <? List.length words)%nat then Some (last words EmptyString)
    else None in
  let greeting := send_message uid MsgGreeting in
  match start_param with
  | None => greeting
  | Some p =>
      if negb (String.length p =? 0)%nat && String.prefix "ref_" p then
        match extract_referrer_id p with
        | None => greeting
        | Some referrer =>
            if negb (referrer =? 0) && negb (referrer =? uid) then
              referrer_row <- get_user referrer ;;
              match referrer_row with
              | None => greeting
              | Some _ =>
                  rid <- add_referral uid referrer ;;
                  if 0 <? rid then
                    update_user_balance referrer (points_per_referral config) ;;
                    add_subscription uid (free_days config) ;;
                    send_message referrer
                      (MsgReferralReward (points_per_referral config)) ;;
                    send_message uid (MsgReferralWelcome (free_days config)) ;;
                    check_referrer_bonuses referrer
                  else greeting
              end
            else greeting
        end
      else greeting
  end.

(** ** Payment confirmation ([handlers/club.py], [handlers/admin.py]) *)

(** The fulfilment branch shared by the two [cmd_confirm_payment]. *)
Definition notify_customer (customer : Z) (product : string) : M unit :=
  if String.eqb product "club" then
    let payment_info := get_payment_description product in
    add_subscription customer (info_days payment_info) ;;
    try_except (send_message customer MsgPaymentConfirmedClub)
               (fun _ => ret tt)
  else
    try_except (send_message customer (MsgPaymentConfirmedOther product))
               (fun _ => ret tt).

(** [cmd_confirm_payment] of [handlers/club.py]; [args] is
    [message.text.split()]. *)
Definition club_cmd_confirm_payment (sender : Z) (args : list string) : M unit :=
  if negb (existsb (Z.eqb sender) (admin_ids config)) then
    send_message sender MsgNotAdmin
  else
    match args with
    | [_; arg] =>
        match int_of_str arg with
        | None => send_message sender MsgIdNotNumber
        | Some pid =>
            payment <- get_payment pid ;;
            match payment with
            | None => send_message sender (MsgPaymentNotFound pid)
            | Some p =>
                if status_eqb (pay_status p) confirmed then
                  send_message sender (MsgAlreadyConfirmed pid)
                else
                  confirm_payment pid ;;
                  notify_customer (pay_user_id p) (product_type p) ;;
                  send_message sender
                    (MsgAdminConfirmReport pid (product_type p) (pay_user_id p))
            end
        end
    | _ => send_message sender MsgBadFormat
    end.

(** [cmd_confirm_payment] of [handlers/admin.py]: the same steps, with the
    customer's row read, and its name taken, between the confirmation and
    the fulfilment. *)
Definition admin_cmd_confirm_payment (sender : Z) (args : list string) : M unit :=
  if negb (existsb (Z.eqb sender) (admin_ids config)) then
    send_message sender MsgNotAdmin
  else
    match args with
    | [_; arg] =>
        match int_of_str arg with
        | None => send_message sender MsgIdNotNumber
        | Some pid =>
            payment <- get_payment pid ;;
            match payment with
            | None => send_message sender (MsgPaymentNotFound pid)
            | Some p =>
                if status_eqb (pay_status p) confirmed then
                  send_message sender (MsgAlreadyConfirmed pid)
                else
                  confirm_payment pid ;;
                  user_data <- get_user (pay_user_id p) ;;
                  match user_data with
                  | Some u => get_user_name_of_row u
                  | None => ret tt
                  end ;;
                  notify_customer (pay_user_id p) (product_type p) ;;
                  send_message sender
                    (MsgAdminConfirmReport pid (product_type p) (pay_user_id p))
            end
        end
    | _ => send_message sender MsgBadFormat
    end.

(** [int(payment_payload.split("_")[1])] *)
Definition payload_payment_id (payload : string) : M Z :=
  match split_on (ascii_of_N 95) payload with
  | _ :: part :: _ =>
      match int_of_str part with
      | Some pid => ret pid
      | None => raise ValueError
      end
  | _ => raise IndexError
  end.

(** [successful_payment_handler] of [handlers/club.py]; the message arrives
    in [chat] with the invoice payload [payload]. *)
Definition successful_payment_handler (chat : Z) (payload : string) : M unit :=
  if String.prefix "payment_" payload then
    pid <- payload_payment_id payload ;;
    payment <- get_payment pid ;;
    match payment with
    | None => send_message chat MsgPaymentError
    | Some p =>
        let uid := pay_user_id p in
        let product := product_type p in
        confirm_payment pid ;;
        if String.eqb product "club" then
          let payment_info := get_payment_description product in
          add_subscription uid (info_days payment_info) ;;
          send_message chat MsgStarsThanksClub
        else
          send_message chat MsgStarsThanksOther ;;
          for_each (admin_ids config) (fun admin =>
            try_except
              (send_message admin (MsgAdminStarsPayment uid product (amount p)))
              (fun _ => ret tt))
    end
  else ret tt.

(** ** Choosing a payment method ([handlers/club.py], [handlers/crypto.py]) *)

(** [callback.message.edit_text], [callback.message.answer_invoice] and
    [callback.answer]; the button was pressed by the user [uid] in the
    private chat of the same id. *)
Definition edit_text (chat : Z) (m : Msg) : M unit :=
  bot_call (EditMessageText chat m).

Definition answer_invoice (chat : Z) (payload : string) (price : Z) : M unit :=
  bot_call (SendInvoice chat payload price).

Definition callback_answer : M unit := bot_call AnswerCallbackQuery.

(** The truth value of [d.get(key)] or of a conditional part: [None] and the
    empty string are false. *)
Definition nonempty (o : option string) : option string :=
  match o with
  | Some EmptyString => None
  | other => other
  end.

(** [callback_pay_method] of [handlers/club.py]. *)
Definition callback_pay_method (uid : Z) (data : string) : M unit :=
  let callback_data := parse_callback_data data in
  match nonempty (cb_product callback_data),
        nonempty (cb_method callback_data) with
  | Some product_type, Some payment_method =>
      let payment_info := get_payment_description product_type in
      let amount := info_amount payment_info in
      payment_id <- create_payment uid amount product_type payment_method ;;
      (if String.eqb payment_method "card" then
         edit_text uid (MsgCardDetails product_type amount)
       else if String.eqb payment_method "stars" then
         match Pricing.stars_amount amount with
         | None => raise OverflowError
         | Some stars_amount =>
             edit_text uid (MsgStarsOffer stars_amount amount product_type) ;;
             answer_invoice uid (stars_invoice_payload payment_id) stars_amount
         end
       else ret tt) ;;
      callback_answer
  | _, _ =>
      edit_text uid MsgPayMethodError ;;
      callback_answer
  end.

(** [callback_crypto_asset] of [handlers/crypto.py]. *)
Definition callback_crypto_asset (uid : Z) (data : string) : M unit :=
  let parts := split_on (ascii_of_N 58) data in
  match nonempty (nth_error parts 1), nonempty (nth_error parts 2) with
  | Some product_type, Some asset =>
      try_except
        (let payment_info := get_payment_description product_type in
         match Pricing.amount_usd (info_amount payment_info) with
         | None => raise OverflowError
         | Some amount_usd =>
             match Pricing.crypto_rates asset with
             | None => raise KeyError
             | Some rate =>
                 match Pricing.amount_crypto amount_usd rate with
                 | None => raise OverflowError
                 | Some amount_crypto =>
                     let amount_crypto_str := PyFloat.format_6f amount_crypto in
                     create_payment uid (info_amount payment_info) product_type
                       (String.append "crypto:" asset) ;;
                     edit_text uid
                       (MsgCryptoDetails product_type asset amount_crypto_str)
                 end
             end
         end)
        (fun _ => edit_text uid MsgCryptoCreateError) ;;
      callback_answer
  | _, _ =>
      edit_text uid MsgCryptoSelectError ;;
      callback_answer
  end.

(** ** [scheduled_tasks.py] *)

Definition _check_expiring_subscriptions : M unit :=
  for_each [3; 1] (fun days =>
    expiring <- get_expiring_subscriptions days ;;
    for_each expiring (fun su =>
      let uid := user_id (snd su) in
      try_except (send_message uid (MsgSubscriptionEnd days))
                 (fun _ => ret tt))).

(** One turn of the loop of [_check_expired_subscriptions]. *)
Definition expire_one (su : Subscription * User) : M unit :=
  let uid := user_id (snd su) in
  let sid := subscription_id (fst su) in
  try_except
    (deactivate_subscription sid ;;
     kick_result <- kick_user_from_group uid ;;
     send_message uid (MsgSubscriptionEnd 0))
    (fun _ => ret tt).

Definition _check_expired_subscriptions : M unit :=
  expired_subs <- get_expired_subscriptions ;;
  for_each expired_subs expire_one.

Definition is_status (st : option string) (s : string) : bool :=
  match st with
  | Some x => String.eqb x s
  | None => false
  end.

(** One turn of the loop of [_check_pending_crypto_payments]. *)
Definition poll_one (payment : CryptoPayment * option User) : M unit :=
  let invoice := invoice_id (fst payment) in
  let uid := cp_user_id (fst payment) in
  let product := cp_product_type (fst payment) in
  try_except
    (st <- check_invoice_status invoice ;;
     if is_status st "paid" then
       confirm_crypto_payment invoice ;;
       (if String.eqb product "club" then
          let payment_info := get_payment_description product in
          add_subscription uid (info_days payment_info) ;;
          try_except
            (send_message uid (MsgCryptoConfirmedClub (info_days payment_info)))
            (fun _ => ret tt)
        else
          try_except (send_message uid (MsgCryptoConfirmedOther product))
                     (fun _ => ret tt)) ;;
       for_each (admin_ids config) (fun admin =>
         try_except
           (user_data <- get_user uid ;;
            match user_data with
            | Some u => get_user_name_of_row u
            | None => ret tt
            end ;;
            send_message admin (MsgAdminCryptoConfirmed uid product))
           (fun _ => ret tt))
     else if is_status st "expired" then
       mark_crypto_payment_expired invoice ;;
       try_except (send_message uid MsgCryptoExpired) (fun _ => ret tt)
     else ret tt)
    (fun _ => ret tt).

Definition _check_pending_crypto_payments : M unit :=
  try_except
    (pending_payments <- get_pending_crypto_payments ;;
     match pending_payments with
     | [] => ret tt
     | _ :: _ =>
         match crypto_pay config with
         | None => raise AttributeError
         | Some _ => for_each pending_payments poll_one
         end
     end)
    (fun _ => ret tt).

End Engine.

(** ** Concrete data for the examples *)

Definition one_day : Z := timedelta 1.

(** A cooperative world: the local clock starts at day 1000 and advances by
    a microsecond per reading, every Bot API call succeeds, invoice [inv1]
    is paid, [inv2] expired, [inv3] unreachable, any other still active. *)
Definition demo_env : Env :=
  mkEnv (fun n => 1000 * one_day + Z.of_nat n)
        (fun n => 86400000 + Z.of_nat n)
        (fun t => t / 1000000)
        (fun t => t / one_day)
        (fun _ => true)
        (fun _ inv =>
           if String.eqb inv "inv1" then InvoiceFound (Some "paid"%string)
           else if String.eqb inv "inv2" then InvoiceFound (Some "expired"%string)
           else if String.eqb inv "inv3" then InvoiceError
           else InvoiceFound (Some "active"%string)).

(** The same world with a Bot API that refuses every call. *)
Definition offline_env : Env :=
  mkEnv (env_now demo_env) (env_sql_now demo_env) (env_sql_datetime demo_env)
        (env_sql_date demo_env) (fun _ => false) (env_invoice demo_env).

Definition demo_config : Config :=
  mkConfig [99] (-100500) 1000 1000 2000 1000 7
           (Some (mkCryptoPayConfig "token" false)).

Definition demo_user (uid : Z) : User :=
  mkUser uid None (Some "Ann"%string) None 86000000 0 false.

(** User 7 holds subscription 1, active and ending on day [end_day]. *)
Definition demo_world (end_day : Z) : World :=
  mkWorld
    (mkDatabase [demo_user 7; demo_user 8]
                [mkSubscription 1 7 86000000 (end_day * one_day) active]
                [] [] [])
    0 [].

(** User 8 was invited by user 7. *)
Definition demo_referred_world : World :=
  mkWorld
    (mkDatabase [demo_user 7; demo_user 8] [] [] []
                [mkReferral 1 8 7 86400000 true])
    0 [].

(** User 7 has invited the users 11, 12, ... up to [n] of them. *)
Definition demo_referrer_world (n : nat) : World :=
  mkWorld
    (mkDatabase [demo_user 7] [] [] []
       (map (fun k => mkReferral (Z.of_nat k) (10 + Z.of_nat k) 7 86400000 true)
            (seq 1 n)))
    0 [].

(** Two due subscriptions, of users 7 and 8. *)
Definition demo_sweep_world : World :=
  mkWorld
    (mkDatabase [demo_user 7; demo_user 8]
                [mkSubscription 1 7 86000000 (990 * one_day) active;
                 mkSubscription 2 8 86000000 (995 * one_day) active]
                [] [] [])
    0 [].

(** A world whose Bot API refuses the third interaction: in a sweep started
    at tick 0, the ban of the first due row. *)
Definition flaky_env : Env :=
  mkEnv (env_now demo_env) (env_sql_now demo_env) (env_sql_datetime demo_env)
        (env_sql_date demo_env) (fun n => negb (n =? 2)%nat)
        (env_invoice demo_env).

(** Pending crypto payments of the users 7 and 8 for the invoices [inv1]
    (paid) and [inv2] (expired). *)
Definition demo_crypto_world : World :=
  mkWorld
    (mkDatabase [demo_user 7; demo_user 8] [] []
       [mkCryptoPayment 1 7 "inv1" "BTC" "0.000222" "club" pending 86300000 None;
        mkCryptoPayment 2 8 "inv2" "BTC" "0.000222" "club" pending 86300001 None]
       [])
    0 [].

(** User 7 asked to pay the club with Stars (payment 1), and administrator
    99 confirmed that payment by hand. *)
Definition demo_confirmed_world : World :=
  exec (create_payment demo_env 7 1000 "club" "stars" ;;
        club_cmd_confirm_payment demo_env demo_config 99
          ["/confirm_payment"%string; "1"%string])%monad
       (mkWorld (mkDatabase [demo_user 7] [] [] [] []) 0 []).

(** ** Notions used by the statements *)

(** The rows the cycle walks through: the pending ones, newest first. *)
Definition pending_rows (w : World) : list (CryptoPayment * option User) :=
  map (fun p => (p, find_user (cp_user_id p) (users (db w))))
      (sort_by_created_desc
         (filter (fun p => status_eqb (cp_status p) pending)
                 (crypto_payments (db w)))).

(** [quiet c]: [c] returns normally and leaves the database as it is. *)
Definition quiet (c : M unit) : Prop :=
  forall w, fst (c w) = Ok tt /\ db (snd (c w)) = db w.

Definition keeps_db {A : Type} (c : M A) : Prop :=
  forall w, db (snd (c w)) = db w.

(** What a sweep never undoes: the table keeps its rows and their ids, a
    row that is expired stays so, and the log only grows. *)
Definition sweep_progress (w w' : World) : Prop :=
  Forall2 (fun s s' => subscription_id s' = subscription_id s /\
                       (sub_status s = expired -> sub_status s' = expired))
          (subscriptions (db w)) (subscriptions (db w')) /\
  (forall e, In e (log w) -> In e (log w')).

Definition swept (su : Subscription * User) (w : World) : Prop :=
  (forall s, In s (subscriptions (db w)) ->
             subscription_id s = subscription_id (fst su) ->
             sub_status s = expired) /\
  (exists ok, In (SendMessage (user_id (snd su)) (MsgSubscriptionEnd 0) ok)
                 (log w)).

(** ** The payment lifecycle as a transition system *)

(** The operations that create or move a payment: the creation of a payment
    when a method is chosen, the two [/confirm_payment] commands, the
    platform's [successful_payment] message, the creation of a crypto
    payment for an invoice, and the crypto poll cycle. *)
Inductive Op : Type :=
| OpCreatePayment (uid amt : Z) (product method : string)
| OpConfirmCommand (sender : Z) (args : list string)
| OpAdminConfirmCommand (sender : Z) (args : list string)
| OpSuccessfulPayment (chat : Z) (payload : string)
| OpCreateCryptoPayment (uid : Z) (invoice asset0 amt product : string)
| OpCryptoPoll.

Definition run_op (env : Env) (config : Config) (op : Op) : M unit :=
  match op with
  | OpCreatePayment uid amt product method =>
      create_payment env uid amt product method ;; ret tt
  | OpConfirmCommand sender args =>
      club_cmd_confirm_payment env config sender args
  | OpAdminConfirmCommand sender args =>
      admin_cmd_confirm_payment env config sender args
  | OpSuccessfulPayment chat payload =>
      successful_payment_handler env config chat payload
  | OpCreateCryptoPayment uid invoice asset0 amt product =>
      create_crypto_payment env uid invoice asset0 amt product ;; ret tt
  | OpCryptoPoll => _check_pending_crypto_payments env config
  end.

(** The invoice service issues a new id for every invoice: a crypto payment
    is created for an invoice that no row refers to yet. *)
Definition fresh_invoice (invoice : string) (w : World) : bool :=
  forallb (fun p => negb (String.eqb (invoice_id p) invoice))
          (crypto_payments (db w)).

Definition admissible (op : Op) (w : World) : bool :=
  match op with
  | OpCreateCryptoPayment _ invoice _ _ _ => fresh_invoice invoice w
  | _ => true
  end.

(** A handler that raises leaves the changes it has committed. *)
Fixpoint run_ops (env : Env) (config : Config) (ops : list Op) (w : World)
  : option World :=
  match ops with
  | [] => Some w
  | op :: rest =>
      if admissible op w
      then run_ops env config rest (exec (run_op env config op) w)
      else None
  end.

(** The moves allowed to the status of a payment and of a crypto payment. *)
Definition pay_ok (s s' : status) : Prop :=
  s' = s \/ (s = pending /\ s' = confirmed).

Definition crypto_ok (s s' : status) : Prop :=
  s' = s \/ (s = pending /\ (s' = confirmed \/ s' = expired)).

(** [evolves id st ok T T']: table [T'] holds the rows of [T], in place,
    with their ids and with a status that [ok] allows, followed by new rows
    whose status [ok] allows to a row created [pending]. *)
Definition evolves {Row : Type} (id : Row -> Z) (st : Row -> status)
           (ok : status -> status -> Prop) (T T' : list Row) : Prop :=
  exists U N,
    T' = U ++ N /\
    Forall2 (fun r r' => id r' = id r /\ ok (st r) (st r')) T U /\
    Forall (fun r' => ok pending (st r')) N.

Definition lifecycle_ok (w w' : World) : Prop :=
  evolves payment_id pay_status pay_ok
          (payments (db w)) (payments (db w')) /\
  evolves cp_payment_id cp_status crypto_ok
          (crypto_payments (db w)) (crypto_payments (db w')).

(** What holds of every state the operations reach. *)
Definition ledger_inv (w : World) : Prop :=
  NoDup (map invoice_id (crypto_payments (db w))) /\
  Forall (fun p => pay_status p = pending \/ pay_status p = confirmed)
         (payments (db w)).

(** A computation that, of the two payment tables, changes nothing but
    payments it confirms. *)
Definition only_confirms (w w' : World) : Prop :=
  crypto_payments (db w') = crypto_payments (db w) /\
  Forall2 (fun p p' => p' = p \/ exists t, p' = confirm_row p t)
          (payments (db w)) (payments (db w')).

Definition respects (R : World -> World -> Prop) {A : Type} (c : M A) : Prop :=
  forall w, R w (snd (c w)).

(** A crypto row and its later state: the same payment, the same invoice,
    and a status that [crypto_ok] allows. *)
Definition crow_ok (q q' : CryptoPayment) : Prop :=
  cp_payment_id q' = cp_payment_id q /\
  invoice_id q' = invoice_id q /\
  crypto_ok (cp_status q) (cp_status q').

Definition demo_ops_before : list Op :=
  [OpCreatePayment 7 1000 "club" "card";
   OpCreateCryptoPayment 7 "inv1" "BTC" "0.000222" "club";
   OpCreateCryptoPayment 8 "inv2" "BTC" "0.000222" "vietnam"].

Definition demo_ops_after : list Op :=
  [OpConfirmCommand 99 ["/confirm_payment"%string; "1"%string];
   OpCryptoPoll;
   OpSuccessfulPayment 7 "payment_1";
   OpCreatePayment 8 2000 "consultation" "stars"].

Definition run_from (ops : list Op) (w : World) : World :=
  match run_ops demo_env demo_config ops w with
  | Some w' => w'
  | None => w
  end.

(** [all_chars P s]: every character of [s] satisfies [P]. *)
Fixpoint all_chars (P : ascii -> bool) (s : string) : bool :=
  match s with
  | EmptyString => true
  | String c s' => P c && all_chars P s'
  end.

Definition is_digit (c : ascii) : bool :=
  ((48 <=? N_of_ascii c) && (N_of_ascii c <=? 57))%N.

(** The 6-bit values. *)
Definition range64 : list N := map N.of_nat (seq 0 64).

(** The facts about the alphabet character of a 6-bit value [v] that the
    round trip uses: it is no padding, neither before nor after the URL-safe
    translation, the two translations cancel on it, and the decoding table
    gives [v] back. *)
Definition alphabet_check (v : N) : bool :=
  let c := Base64.b2a v in
  negb (Ascii.eqb c Base64.BASE64_PAD)
  && negb (Ascii.eqb (Base64.urlsafe_encode_char c) Base64.BASE64_PAD)
  && Ascii.eqb (Base64.urlsafe_decode_char (Base64.urlsafe_encode_char c)) c
  && match Base64.a2b c with
     | Some v' => N.eqb v' v
     | None => false
     end.

(** The shifts and masks of the decoder on two 6-bit values, as
    arithmetic. *)
Definition bits_check (u v : N) : bool :=
  (N.eqb (N.lor (N.shiftl u 2) (N.shiftr v 4)) (u * 4 + v / 16)
   && N.eqb (N.lor (N.shiftl (N.land u 15) 4) (N.shiftr v 2))
            ((u mod 16) * 16 + v / 4)
   && N.eqb (N.lor (N.shiftl (N.land u 3) 6) v) ((u mod 4) * 64 + v))%N.

(** The value of the query parameter that ends a link: the text after its
    last [=]. *)
Definition link_start_value (link : string) : string :=
  last (split_on (ascii_of_N 61) link) EmptyString.

(** The characters allowed in a Telegram start parameter: letters, digits,
    [_] and [-]. *)
Definition is_start_param_char (c : ascii) : bool :=
  let n := N_of_ascii c in
  ((65 <=? n) && (n <=? 90) || (97 <=? n) && (n <=? 122)
   || (48 <=? n) && (n <=? 57) || (n =? 95) || (n =? 45))%N.

Definition alphabet_urlsafe_check (v : N) : bool :=
  is_start_param_char (Base64.urlsafe_encode_char (Base64.b2a v)).

(** What the messages and the milestone check at the end of [cmd_start] keep:
    the users, the referral edges, and every subscription row with its id,
    user and state. *)
Definition keeps_grants (w w' : World) : Prop :=
  users (db w') = users (db w) /\
  referrals (db w') = referrals (db w) /\
  forall s, In s (subscriptions (db w)) ->
    exists s', In s' (subscriptions (db w')) /\
               subscription_id s' = subscription_id s /\
               sub_user_id s' = sub_user_id s /\
               sub_status s' = sub_status s.

(** What an expiry sweep over the due rows [due] may do to the ledger: only
    turn to [expired] subscription rows that have the id of a due row. *)
Definition only_expires (due : list (Subscription * User)) (w w' : World)
  : Prop :=
  users (db w') = users (db w) /\
  payments (db w') = payments (db w) /\
  crypto_payments (db w') = crypto_payments (db w) /\
  referrals (db w') = referrals (db w) /\
  Forall2 (fun s s' =>
             s' = s \/
             (s' = set_sub_status s expired /\
              In (subscription_id s) (map (fun su => subscription_id (fst su)) due)))
          (subscriptions (db w)) (subscriptions (db w')).

(** The referral graph as [cmd_start] keeps it: nobody is the invitee of two
    edges, nobody refers themselves, no edge has the referrer 0, and both
    ends of every edge are registered users. *)
Definition registered (d : Database) (x : Z) : Prop :=
  find_user x (users d) <> None.

Definition referral_graph_ok (d : Database) : Prop :=
  NoDup (map ref_user_id (referrals d)) /\
  Forall (fun e => referrer_id e <> ref_user_id e /\
                   referrer_id e <> 0 /\
                   registered d (referrer_id e) /\
                   registered d (ref_user_id e))
         (referrals d).

(** What a payment row keeps for good, and the table that keeps its rows:
    [payments_kept w w'] when the table of [w'] is the table of [w], every
    row in place with the same id, payer, amount, product, method and
    creation time, followed by the rows created since. *)
Definition payment_kept (p p' : Payment) : Prop :=
  payment_id p' = payment_id p /\
  pay_user_id p' = pay_user_id p /\
  amount p' = amount p /\
  product_type p' = product_type p /\
  payment_method p' = payment_method p /\
  created_at p' = created_at p.

Definition payments_kept (w w' : World) : Prop :=
  exists U N,
    payments (db w') = U ++ N /\
    Forall2 payment_kept (payments (db w)) U.

Definition payment_ids_ok (w : World) : Prop :=
  NoDup (map payment_id (payments (db w))) /\
  Forall (fun p => 0 < payment_id p) (payments (db w)).

(** User 7, a member until day 1010, has a pending crypto payment for the
    club whose invoice [inv1] is paid. *)
Definition demo_crypto_member_world : World :=
  mkWorld
    (mkDatabase [demo_user 7]
       [mkSubscription 1 7 86000000 (1010 * one_day) active] []
       [mkCryptoPayment 1 7 "inv1" "BTC" "0.000222" "club" pending 86300000 None]
       [])
    0 [].

(** A world where the referrer has blocked the bot: the Bot API refuses the
    fifth interaction, which in a [/start] of a new invitee through a
    referral link, started at tick 0, is the notice to the referrer. *)
Definition blocked_env : Env :=
  mkEnv (env_now demo_env) (env_sql_now demo_env) (env_sql_datetime demo_env)
        (env_sql_date demo_env) (fun n => negb (n =? 4)%nat)
        (env_invoice demo_env).

(** ** The prices checked

    The conversions run in binary64; what the theorem on them says is
    established by evaluating them on every price from 0 to
    [price_bound]. *)
Definition price_bound : Z := 20000.

Definition stars_checked (amount : Z) : bool :=
  match Pricing.stars_amount amount with
  | Some v => v =? 3 * amount / 4
  | None => false
  end.

(** For one price and one rate: the float that the code formats and the
    float of the formula as specified both print the same millionths [u],
    and [u] is the integer nearest to [amount * 10^6 / (75 * rate)]. *)
Definition crypto_checked (amount rate : Z) : bool :=
  match Pricing.amount_usd amount with
  | Some usd =>
      match Pricing.amount_crypto usd rate,
            Pricing.amount_crypto_as_specified amount rate with
      | Some c, Some c' =>
          match Pricing.nonneg_millionths c, Pricing.nonneg_millionths c' with
          | Some u, Some u' =>
              (2 * Z.abs (u * (75 * rate) - amount * 1000000) <? 75 * rate)
              && (u' =? u)
          | _, _ => false
          end
      | _, _ => false
      end
  | None => false
  end.

Definition price_checked (amount : Z) : bool :=
  stars_checked amount && forallb (crypto_checked amount) [60000; 30000; 1].

Fixpoint all_from (p : Z -> bool) (a : Z) (n : nat) : bool :=
  match n with
  | O => true
  | S k => p a && all_from p (a + 1) k
  end.

(** * Properties *)

(** ** Lists and tables *)

Lemma max_end_row_in (l : list Subscription) (m : Subscription) :
  max_end_row l = Some m -> In m l.
Proof.
  revert m; induction l as [|r l IH]; simpl; intros m H; [discriminate|].
  destruct (max_end_row l) as [m'|].
  - destruct (end_date r <? end_date m'); inversion H; subst; auto.
  - inversion H; auto.
Qed.

Lemma max_end_row_ge (l : list Subscription) (m : Subscription) :
  max_end_row l = Some m -> forall r, In r l -> end_date r <= end_date m.
Proof.
  revert m; induction l as [|x l IH]; simpl; intros m H r Hr; [tauto|].
  destruct (max_end_row l) as [m'|] eqn:E.
  - destruct (Z.ltb_spec (end_date x) (end_date m')); inversion H; subst.
    + destruct Hr as [<-|Hr]; [lia | eauto].
    + destruct Hr as [<-|Hr]; [lia|]. specialize (IH _ eq_refl _ Hr). lia.
  - inversion H; subst. destruct Hr as [<-|Hr]; [lia|].
    destruct l; [destruct Hr | simpl in E; destruct (max_end_row l);
      [destruct (_ <? _)|]; discriminate].
Qed.

Lemma max_end_row_nonempty (l : list Subscription) (r : Subscription) :
  In r l -> exists m, max_end_row l = Some m.
Proof.
  destruct l as [|x l]; simpl; [tauto|]. intros _.
  destruct (max_end_row l) as [m'|]; [destruct (_ <? _)|]; eauto.
Qed.

Lemma select_latest_active_spec (uid : Z) (subs : list Subscription)
      (r : Subscription) :
  select_latest_active uid subs = Some r ->
  In r subs /\ sub_user_id r = uid /\ sub_status r = active /\
  forall s, In s subs -> sub_user_id s = uid -> sub_status s = active ->
            end_date s <= end_date r.
Proof.
  unfold select_latest_active. intros H.
  pose proof (max_end_row_in _ _ H) as Hin.
  apply filter_In in Hin. destruct Hin as [Hin Hact].
  unfold is_active_of in Hact. apply andb_true_iff in Hact.
  destruct Hact as [Hu Hs]. apply Z.eqb_eq in Hu.
  repeat split; auto.
  - destruct (sub_status r); simpl in Hs; congruence.
  - intros s Hs1 Hs2 Hs3. apply (max_end_row_ge _ _ H).
    apply filter_In. split; auto. unfold is_active_of.
    rewrite Hs2, Hs3, Z.eqb_refl. reflexivity.
Qed.

Lemma status_eqb_eq (a b : status) : status_eqb a b = true <-> a = b.
Proof. destruct a, b; simpl; split; congruence. Qed.

(** Updating the end date of the rows of one id keeps the users and the
    states of all rows. *)
Lemma filter_active_map_set_end (uid sid : Z) (e : datetime)
      (subs : list Subscription) :
  filter (is_active_of uid)
    (map (fun s => if subscription_id s =? sid then set_end_date s e else s) subs)
  = map (fun s => if subscription_id s =? sid then set_end_date s e else s)
        (filter (is_active_of uid) subs).
Proof.
  induction subs as [|s subs IH]; simpl; [reflexivity|].
  assert (is_active_of uid
            (if subscription_id s =? sid then set_end_date s e else s)
          = is_active_of uid s) as ->
    by (destruct (subscription_id s =? sid); reflexivity).
  destruct (is_active_of uid s); simpl; rewrite IH; reflexivity.
Qed.

(** ** C3: a stale active subscription restarts from now *)

(** C3.  When the row that [add_subscription] selects for the user (the
    active row of the greatest end date) has its end date already behind
    the clock, the call returns that row's id, creates no row, and sets the
    end date of that row to the time read on entry plus [days] days: the
    base is now, not the past end date.  Rows of another id are untouched. *)
Theorem add_subscription_restarts_when_stale
        (env : Env) (w : World) (uid days : Z) (r : Subscription) :
  select_latest_active uid (subscriptions (db w)) = Some r ->
  end_date r < env_now env (S (tick w)) ->
  exists w',
    add_subscription env uid days w = (Ok (subscription_id r), w') /\
    List.length (subscriptions (db w')) = List.length (subscriptions (db w)) /\
    (exists s, In s (subscriptions (db w')) /\
               subscription_id s = subscription_id r /\
               sub_user_id s = uid /\ sub_status s = active) /\
    (forall s, In s (subscriptions (db w')) ->
               subscription_id s = subscription_id r ->
               end_date s = env_now env (tick w) + timedelta days) /\
    (forall s, In s (subscriptions (db w)) ->
               subscription_id s <> subscription_id r ->
               In s (subscriptions (db w'))).
Proof.
  intros Hsel Hpast.
  unfold add_subscription, bind, now, get_db, put_db, ret; simpl.
  rewrite Hsel; simpl.
  apply Z.ltb_lt in Hpast. rewrite Hpast.
  eexists; split; [reflexivity|]; simpl.
  destruct (select_latest_active_spec _ _ _ Hsel) as (Hin & Hu & Hs & _).
  split; [apply length_map|]. split; [|split].
  - exists (set_end_date r (env_now env (tick w) + timedelta days)).
    split; [|simpl; auto].
    apply in_map_iff. exists r. rewrite Z.eqb_refl. auto.
  - intros s Hs' Hid. apply in_map_iff in Hs'.
    destruct Hs' as (s0 & Heq & _).
    destruct (Z.eqb_spec (subscription_id s0) (subscription_id r));
      subst s; [reflexivity | contradiction].
  - intros s Hs' Hid. apply in_map_iff. exists s.
    destruct (Z.eqb_spec (subscription_id s) (subscription_id r));
      [contradiction | auto].
Qed.

Lemma add_subscription_restarts_when_stale_witness :
  exists w',
    add_subscription demo_env 7 30 (demo_world 990) = (Ok 1, w') /\
    List.length (subscriptions (db w')) = 1%nat.
Proof.
  destruct (add_subscription_restarts_when_stale demo_env (demo_world 990) 7 30
              (mkSubscription 1 7 86000000 (990 * one_day) active))
    as (w' & H1 & H2 & _).
  - reflexivity.
  - vm_compute. reflexivity.
  - exists w'. split; [exact H1 | exact H2].
Defined.

(** ** C2: grants stack on a subscription that is still running *)

Lemma timedelta_nonneg (d : Z) : 0 <= d -> 0 <= timedelta d.
Proof. unfold timedelta. lia. Qed.

Lemma latest_after_extension (uid : Z) (subs : list Subscription)
      (r : Subscription) (delta : Z) :
  select_latest_active uid subs = Some r ->
  0 <= delta ->
  exists r1,
    select_latest_active uid
      (map (fun s => if subscription_id s =? subscription_id r
                     then set_end_date s (end_date r + delta) else s) subs)
    = Some r1 /\
    end_date r1 = end_date r + delta.
Proof.
  intros Hsel Hd.
  unfold select_latest_active in *. rewrite filter_active_map_set_end.
  set (f := fun s => if subscription_id s =? subscription_id r
                     then set_end_date s (end_date r + delta) else s).
  set (F := filter (is_active_of uid) subs) in *.
  pose proof (max_end_row_in _ _ Hsel) as Hin.
  assert (In (f r) (map f F)) as Hfr by (apply in_map; exact Hin).
  destruct (max_end_row_nonempty _ _ Hfr) as [r1 Hr1].
  exists r1. split; [exact Hr1|].
  pose proof (max_end_row_ge _ _ Hr1 _ Hfr) as Hge.
  pose proof (max_end_row_in _ _ Hr1) as Hin1.
  apply in_map_iff in Hin1. destruct Hin1 as (x & Hx & HxF).
  pose proof (max_end_row_ge _ _ Hsel _ HxF) as Hle.
  assert (end_date (f r) = end_date r + delta) as Hfe
    by (unfold f; rewrite Z.eqb_refl; reflexivity).
  rewrite Hfe in Hge. subst r1. unfold f in *.
  destruct (subscription_id x =? subscription_id r); simpl in *; lia.
Qed.

(** C2.  Let [r] be the row [add_subscription] selects for the user, with
    an end date not behind the clock when the first call checks it, and,
    once extended by [d1 >= 0] days, not behind the clock when the second
    call checks it.  Then [add_subscription uid d1] followed by
    [add_subscription uid d2] creates no row and returns the id of an active
    row of the user whose end date is the original end date plus [d1] plus
    [d2] days. *)
Theorem add_subscription_stacks
        (env : Env) (w : World) (uid d1 d2 : Z) (r : Subscription) :
  select_latest_active uid (subscriptions (db w)) = Some r ->
  0 <= d1 ->
  env_now env (S (tick w)) <= end_date r ->
  env_now env (S (S (S (tick w)))) <= end_date r + timedelta d1 ->
  exists sid w2,
    (add_subscription env uid d1 ;; add_subscription env uid d2)%monad w
      = (Ok sid, w2) /\
    List.length (subscriptions (db w2)) = List.length (subscriptions (db w)) /\
    (exists s, In s (subscriptions (db w2)) /\ subscription_id s = sid /\
               sub_user_id s = uid /\ sub_status s = active) /\
    (forall s, In s (subscriptions (db w2)) -> subscription_id s = sid ->
               end_date s = end_date r + timedelta d1 + timedelta d2).
Proof.
  intros Hsel Hd1 Hfut1 Hfut2.
  destruct (latest_after_extension uid _ r (timedelta d1) Hsel
              (timedelta_nonneg _ Hd1)) as (r1 & Hsel1 & He1).
  unfold add_subscription, bind, now, get_db, put_db, ret; simpl.
  rewrite Hsel; simpl.
  assert ((end_date r <? env_now env (S (tick w))) = false) as ->
    by (apply Z.ltb_ge; exact Hfut1).
  simpl. rewrite Hsel1; simpl.
  assert ((end_date r1 <? env_now env (S (S (S (tick w))))) = false) as ->
    by (apply Z.ltb_ge; lia).
  exists (subscription_id r1). eexists. split; [reflexivity|]. simpl.
  destruct (select_latest_active_spec _ _ _ Hsel1) as (Hin1 & Hu1 & Hs1 & _).
  split; [rewrite !length_map; reflexivity|]. split.
  - exists (set_end_date r1 (end_date r1 + timedelta d2)).
    split; [|simpl; auto].
    apply in_map_iff. exists r1. rewrite Z.eqb_refl. auto.
  - intros s Hs Hid. apply in_map_iff in Hs. destruct Hs as (s0 & Heq & _).
    destruct (Z.eqb_spec (subscription_id s0) (subscription_id r1));
      subst s; [simpl; lia | contradiction].
Qed.

Lemma add_subscription_stacks_witness :
  exists sid w2,
    (add_subscription demo_env 7 30 ;; add_subscription demo_env 7 7)%monad
      (demo_world 1010) = (Ok sid, w2) /\
    List.length (subscriptions (db w2)) = 1%nat.
Proof.
  destruct (add_subscription_stacks demo_env (demo_world 1010) 7 30 7
              (mkSubscription 1 7 86000000 (1010 * one_day) active))
    as (sid & w2 & H1 & H2 & _).
  - reflexivity.
  - lia.
  - vm_compute. discriminate.
  - vm_compute. discriminate.
  - exists sid, w2. split; [exact H1 | exact H2].
Defined.

(** ** Monad and world lemmas *)

Lemma db_send_message (env : Env) (chat : Z) (m : Msg) (w : World) :
  db (snd (send_message env chat m w)) = db w.
Proof. reflexivity. Qed.

Lemma find_some_in {A : Type} (f : A -> bool) (l : list A) (x : A) :
  In x l -> f x = true -> exists y, find f l = Some y.
Proof.
  induction l as [|a l IH]; simpl; [tauto|].
  intros [->|Hin] Hf.
  - rewrite Hf. eauto.
  - destruct (f a); eauto.
Qed.

Lemma find_user_map (f : User -> User) (uid : Z) (us : list User) :
  (forall u, user_id (f u) = user_id u) ->
  find_user uid (map f us) = option_map f (find_user uid us).
Proof.
  intros Hf. unfold find_user.
  induction us as [|u us IH]; simpl; [reflexivity|].
  rewrite Hf. destruct (user_id u =? uid); [reflexivity | exact IH].
Qed.

Lemma find_user_app (uid : Z) (us more : list User) (u : User) :
  find_user uid us = Some u -> find_user uid (us ++ more) = Some u.
Proof.
  unfold find_user. induction us as [|a us IH]; simpl; [discriminate|].
  destruct (user_id a =? uid); auto.
Qed.

(** [add_user] leaves every table but [users] alone and keeps the balance
    of every user already present. *)
Lemma add_user_effect (env : Env) (uid : Z) (un fn ln : option string)
      (w : World) :
  let w' := snd (add_user env uid un fn ln w) in
  fst (add_user env uid un fn ln w) = Ok true /\
  subscriptions (db w') = subscriptions (db w) /\
  payments (db w') = payments (db w) /\
  crypto_payments (db w') = crypto_payments (db w) /\
  referrals (db w') = referrals (db w) /\
  log w' = log w /\
  (forall x u, find_user x (users (db w)) = Some u ->
     exists u', find_user x (users (db w')) = Some u' /\
                balance u' = balance u).
Proof.
  unfold add_user, bind, get_db, put_db, sql_now, ret; simpl.
  destruct (find_user uid (users (db w))) as [u0|] eqn:E; simpl.
  - repeat split; auto. intros x u Hx.
    rewrite find_user_map
      by (intros u1; destruct (user_id u1 =? uid); reflexivity).
    rewrite Hx; simpl. eexists; split; [reflexivity|].
    destruct (user_id u =? uid); reflexivity.
  - repeat split; auto. intros x u Hx.
    exists u. split; [apply find_user_app; exact Hx | reflexivity].
Qed.

(** ** C6: a second referral of the same invitee changes nothing *)

Lemma add_referral_existing (env : Env) (w : World) (uid referrer : Z)
      (e : Referral) :
  In e (referrals (db w)) -> ref_user_id e = uid ->
  add_referral env uid referrer w = (Ok 0, w).
Proof.
  intros Hin He. unfold add_referral, bind, get_db, ret; simpl.
  destruct (find_some_in (fun r => ref_user_id r =? uid) _ e Hin) as [y ->];
    [apply Z.eqb_eq; exact He | reflexivity].
Qed.

(** C6.  For an invitee who already has a referral edge, [add_referral]
    returns 0 and leaves the whole world as it is; and [cmd_start] for that
    invitee, whatever the text of the message, leaves the referral and
    subscription tables unchanged and keeps every user's balance: no edge is
    inserted, no bonus points are credited, no free days are granted. *)
Theorem add_referral_idempotent
        (env : Env) (config : Config) (w : World) (uid : Z) (e : Referral) :
  In e (referrals (db w)) -> ref_user_id e = uid ->
  (forall referrer, add_referral env uid referrer w = (Ok 0, w)) /\
  (forall un fn ln words,
     let w' := exec (cmd_start env config uid un fn ln words) w in
     referrals (db w') = referrals (db w) /\
     subscriptions (db w') = subscriptions (db w) /\
     (forall x u, find_user x (users (db w)) = Some u ->
        exists u', find_user x (users (db w')) = Some u' /\
                   balance u' = balance u)).
Proof.
  intros Hin He. split.
  - intros referrer. eapply add_referral_existing; eauto.
  - intros un fn ln words.
    destruct (add_user_effect env uid un fn ln w)
      as (Hok & Hsub & _ & _ & Href & _ & Hbal).
    unfold exec, cmd_start, bind.
    destruct (add_user env uid un fn ln w) as [res w1] eqn:Eadd.
    simpl in Hok, Hsub, Href, Hbal. subst res.
    assert (forall c : M unit, db (snd (c w1)) = db w1 ->
              let w' := snd (c w1) in
              referrals (db w') = referrals (db w) /\
              subscriptions (db w') = subscriptions (db w) /\
              (forall x u, find_user x (users (db w)) = Some u ->
                 exists u', find_user x (users (db w')) = Some u' /\
                            balance u' = balance u)) as Hkeep.
    { intros c Hc; simpl. rewrite Hc. auto. }
    destruct (1 <? Datatypes.length words)%nat; [|apply Hkeep; reflexivity].
    destruct (negb (String.length (last words EmptyString) =? 0)%nat
              && String.prefix "ref_" (last words EmptyString));
      [|apply Hkeep; reflexivity].
    destruct (extract_referrer_id (last words EmptyString)) as [referrer|];
      [|apply Hkeep; reflexivity].
    destruct (negb (referrer =? 0) && negb (referrer =? uid));
      [|apply Hkeep; reflexivity].
    apply Hkeep. unfold bind, get_user, get_db, ret; simpl.
    destruct (find_user referrer (users (db w1))); [|reflexivity].
    rewrite (add_referral_existing env w1 uid referrer e)
      by (rewrite ?Href; auto).
    reflexivity.
Qed.

Lemma add_referral_idempotent_witness :
  add_referral demo_env 8 7 demo_referred_world = (Ok 0, demo_referred_world).
Proof.
  exact (proj1 (add_referral_idempotent demo_env demo_config
                  demo_referred_world 8 (mkReferral 1 8 7 86400000 true)
                  (or_introl eq_refl) eq_refl) 7).
Defined.

(** ** C7: referral milestones *)

(** C7, evaluated.  User 7 has four active referrals and has blocked the
    bot; user 20 sends [/start] with the referral parameter of user 7.
    [cmd_start] books the referral - user 7 now has five active referrals,
    the invitee has the free days - and then raises at the notice to the
    referrer, which the Bot API refuses: [check_referrer_bonuses] is never
    reached, and user 7 gets no subscription.  When the notice is
    delivered, the same [/start] ends with the 30 days granted to user 7. *)
Theorem fifth_referral_milestone_skipped :
  let w := demo_referrer_world 4 in
  let start env :=
    cmd_start env demo_config 20 None None None
      ["/start"%string; ref_start_param 7] w in
  fst (count_user_referrals 7 w) = Ok 4 /\
  fst (start blocked_env) = Raise TelegramError /\
  fst (count_user_referrals 7 (snd (start blocked_env))) = Ok 5 /\
  log (snd (start blocked_env))
    = [SendMessage 7 (MsgReferralReward 1000) false] /\
  map sub_user_id (subscriptions (db (snd (start blocked_env)))) = [20] /\
  fst (start demo_env) = Ok tt /\
  map (fun s => (sub_user_id s, end_date s))
      (subscriptions (db (snd (start demo_env))))
    = [(20, env_now demo_env 2 + timedelta 7);
       (7, env_now demo_env 6 + timedelta 30)].
Proof. vm_compute. repeat split. Qed.

(** ** Loops whose turns never raise *)

(** A loop whose body always returns keeps every relation [R] that is
    reflexive, transitive and kept by the body, and ends with every
    per-item fact [Q] that a turn establishes and [R] preserves. *)
Lemma for_each_each {A : Type} (xs : list A) (body : A -> M unit)
      (R : World -> World -> Prop) (Q : A -> World -> Prop) :
  (forall w, R w w) ->
  (forall w1 w2 w3, R w1 w2 -> R w2 w3 -> R w1 w3) ->
  (forall x w w', Q x w -> R w w' -> Q x w') ->
  (forall x w, In x xs ->
     fst (body x w) = Ok tt /\ R w (snd (body x w)) /\ Q x (snd (body x w))) ->
  forall w,
    fst (for_each xs body w) = Ok tt /\
    R w (snd (for_each xs body w)) /\
    forall x, In x xs -> Q x (snd (for_each xs body w)).
Proof.
  intros Hrefl Htrans Hpres.
  induction xs as [|x xs IH]; intros Hbody w; simpl.
  - repeat split; auto. intros x [].
  - unfold bind.
    destruct (Hbody x w (or_introl eq_refl)) as (Hok & HR & HQ).
    destruct (body x w) as [res w1]; simpl in Hok, HR, HQ. subst res.
    destruct (IH (fun y w0 Hy => Hbody y w0 (or_intror Hy)) w1)
      as (Hok' & HR' & HQ').
    split; [exact Hok'|]. split; [eapply Htrans; eauto|].
    intros y [<-|Hy]; [eapply Hpres; eauto | auto].
Qed.

(** ** C8: the expiry sweep treats every due row *)


Lemma Forall2_same {A : Type} (P : A -> A -> Prop) (l : list A) :
  (forall x, P x x) -> Forall2 P l l.
Proof. intros H; induction l; constructor; auto. Qed.

Lemma Forall2_compose {A : Type} (P : A -> A -> Prop) (l1 l2 l3 : list A) :
  (forall x y z, P x y -> P y z -> P x z) ->
  Forall2 P l1 l2 -> Forall2 P l2 l3 -> Forall2 P l1 l3.
Proof.
  intros Ht H12; revert l3.
  induction H12; intros l3 H23; inversion H23; subst; constructor; eauto.
Qed.

Lemma Forall2_in_right {A : Type} (P : A -> A -> Prop) (l1 l2 : list A) (y : A) :
  Forall2 P l1 l2 -> In y l2 -> exists x, In x l1 /\ P x y.
Proof.
  induction 1; simpl; [tauto|].
  intros [<-|Hin]; [eauto|]. destruct (IHForall2 Hin) as (x0 & ? & ?); eauto.
Qed.

Lemma Forall2_map_right {A : Type} (P : A -> A -> Prop) (f : A -> A)
      (l : list A) :
  (forall x, P x (f x)) -> Forall2 P l (map f l).
Proof. intros H; induction l; simpl; constructor; auto. Qed.

Lemma sweep_progress_refl (w : World) : sweep_progress w w.
Proof. split; [apply Forall2_same; auto | auto]. Qed.

Lemma sweep_progress_trans (w1 w2 w3 : World) :
  sweep_progress w1 w2 -> sweep_progress w2 w3 -> sweep_progress w1 w3.
Proof.
  intros [H1 L1] [H2 L2]. split; [|auto].
  eapply Forall2_compose; [|exact H1|exact H2].
  simpl. intros x y z [E1 S1] [E2 S2]. split; [congruence | auto].
Qed.

Lemma swept_preserved (su : Subscription * User) (w w' : World) :
  swept su w -> sweep_progress w w' -> swept su w'.
Proof.
  intros [Hs [ok Hl]] [HF HL]. split; [|eauto].
  intros s' Hin Hid.
  destruct (Forall2_in_right _ _ _ _ HF Hin) as (s & Hs0 & Heq & Hst).
  apply Hst, Hs; [exact Hs0 | congruence].
Qed.

(** One turn: it returns, whatever the Bot API answers, having expired the
    rows of that id and having called [send_message] for the user. *)
Lemma expire_one_effect (env : Env) (config : Config)
      (su : Subscription * User) (w : World) :
  fst (expire_one env config su w) = Ok tt /\
  sweep_progress w (snd (expire_one env config su w)) /\
  swept su (snd (expire_one env config su w)).
Proof.
  unfold expire_one, try_except, bind, deactivate_subscription,
    kick_user_from_group, try_except, bind, now, ban_chat_member,
    send_message, bot_call, get_db, put_db, ret; simpl.
  set (deact := fun s : Subscription =>
         if subscription_id s =? subscription_id (fst su)
         then set_sub_status s expired else s).
  assert (Forall2 (fun s s' => subscription_id s' = subscription_id s /\
                     (sub_status s = expired -> sub_status s' = expired))
            (subscriptions (db w)) (map deact (subscriptions (db w)))) as HF.
  { apply Forall2_map_right. intros s. unfold deact.
    destruct (subscription_id s =? _); simpl; auto. }
  assert (forall s, In s (map deact (subscriptions (db w))) ->
            subscription_id s = subscription_id (fst su) ->
            sub_status s = expired) as HD.
  { intros s Hin Hid. apply in_map_iff in Hin. destruct Hin as (s0 & <- & _).
    unfold deact in *.
    destruct (Z.eqb_spec (subscription_id s0) (subscription_id (fst su)));
      [reflexivity | contradiction]. }
  destruct (env_bot_ok env (S (tick w))); simpl;
    destruct (env_bot_ok env (S (S (tick w)))); simpl;
    (split; [reflexivity|]); (split; [split; simpl; [exact HF | auto]|]);
    (split; simpl; [exact HD | eexists; left; reflexivity]).
Qed.

(** C8.  Whatever the Bot API does - the ban of any row's user may fail,
    and so may any message - the sweep returns normally, and for every due
    row that [get_expired_subscriptions] returned the subscription rows of
    that id are present and expired and [send_message] was called for its
    user with the end-of-subscription text. *)
Theorem expiry_sweep_isolates_failures
        (env : Env) (config : Config) (w w0 : World)
        (due : list (Subscription * User)) :
  get_expired_subscriptions env w = (Ok due, w0) ->
  let w' := exec (_check_expired_subscriptions env config) w in
  fst (_check_expired_subscriptions env config w) = Ok tt /\
  map subscription_id (subscriptions (db w'))
    = map subscription_id (subscriptions (db w)) /\
  forall su, In su due ->
    (forall s, In s (subscriptions (db w')) ->
               subscription_id s = subscription_id (fst su) ->
               sub_status s = expired) /\
    (exists ok, In (SendMessage (user_id (snd su)) (MsgSubscriptionEnd 0) ok)
                   (log w')).
Proof.
  intros Hdue. unfold exec, _check_expired_subscriptions, bind.
  rewrite Hdue.
  destruct (for_each_each due (expire_one env config) sweep_progress swept
              sweep_progress_refl sweep_progress_trans swept_preserved
              (fun su w1 _ => expire_one_effect env config su w1) w0)
    as (Hok & [HF _] & HQ).
  split; [exact Hok|]. split; [|exact HQ].
  assert (db w0 = db w) as Hdb.
  { revert Hdue. unfold get_expired_subscriptions, bind, sql_now, get_db, ret.
    simpl. intros E; inversion E; reflexivity. }
  rewrite Hdb in HF. clear - HF.
  induction HF as [|s s' l l' [Hid _] _ IH]; simpl; [reflexivity|].
  rewrite Hid, IH. reflexivity.
Qed.

Lemma expiry_sweep_isolates_failures_witness :
  fst (_check_expired_subscriptions flaky_env demo_config demo_sweep_world)
    = Ok tt /\
  In (BanChatMember (-100500) 7 (1000 * one_day + 1 + timedelta_seconds 35) false)
     (log (exec (_check_expired_subscriptions flaky_env demo_config)
                demo_sweep_world)) /\
  map sub_status
      (subscriptions (db (exec (_check_expired_subscriptions flaky_env demo_config)
                               demo_sweep_world)))
    = [expired; expired].
Proof.
  split; [|split].
  - exact (proj1 (expiry_sweep_isolates_failures flaky_env demo_config
                    demo_sweep_world
                    (snd (get_expired_subscriptions flaky_env demo_sweep_world))
                    match fst (get_expired_subscriptions flaky_env
                                 demo_sweep_world) with
                    | Ok l => l
                    | Raise _ => []
                    end eq_refl)).
  - vm_compute. tauto.
  - reflexivity.
Defined.

(** ** Computations that only talk *)


Lemma keeps_db_bind {A B : Type} (c : M A) (k : A -> M B) :
  keeps_db c -> (forall a, keeps_db (k a)) -> keeps_db (bind c k).
Proof.
  intros Hc Hk w. unfold bind. specialize (Hc w).
  destruct (c w) as [[a|e] w1]; simpl in *; [rewrite Hk|]; exact Hc.
Qed.

Lemma keeps_db_send (env : Env) (chat : Z) (m : Msg) :
  keeps_db (send_message env chat m).
Proof. intros w; reflexivity. Qed.

Lemma quiet_try (c : M unit) :
  keeps_db c -> quiet (try_except c (fun _ => ret tt)).
Proof.
  intros Hc w. unfold try_except. specialize (Hc w).
  destruct (c w) as [[[]|e] w1]; simpl in *; auto.
Qed.

Lemma quiet_bind (c k : M unit) : quiet c -> quiet k -> quiet (c ;; k).
Proof.
  intros Hc Hk w. unfold bind. destruct (Hc w) as [H1 H2].
  destruct (c w) as [r w1]; simpl in *. subst r.
  destruct (Hk w1) as [H3 H4]. split; congruence.
Qed.

Lemma quiet_for_each {A : Type} (xs : list A) (body : A -> M unit) :
  (forall x, quiet (body x)) -> quiet (for_each xs body).
Proof.
  intros Hb. induction xs as [|x xs IH]; simpl.
  - intros w; auto.
  - apply quiet_bind; auto.
Qed.

Lemma quiet_run (c : M unit) (w : World) :
  quiet c -> exists w', c w = (Ok tt, w') /\ db w' = db w.
Proof.
  intros H. destruct (H w) as [H1 H2].
  destruct (c w) as [r w1]; simpl in *. subst. eauto.
Qed.

(** ** [add_subscription]: frame and totality *)

Lemma add_subscription_ok (env : Env) (uid days : Z) (w : World) :
  exists sid w', add_subscription env uid days w = (Ok sid, w').
Proof.
  unfold add_subscription, bind, now, sql_now, get_db, put_db, ret; simpl.
  destruct (select_latest_active _ _); simpl; eauto.
Qed.

(** The call touches no table but [subscriptions], no log, and what it makes
    of [subscriptions] depends on that table and on the clock alone. *)
Lemma add_subscription_frame (env : Env) (uid days : Z) (w : World) :
  let w' := exec (add_subscription env uid days) w in
  users (db w') = users (db w) /\
  payments (db w') = payments (db w) /\
  crypto_payments (db w') = crypto_payments (db w) /\
  referrals (db w') = referrals (db w) /\
  log w' = log w.
Proof.
  unfold exec, add_subscription, bind, now, sql_now, get_db, put_db, ret; simpl.
  destruct (select_latest_active _ _); simpl; auto.
Qed.

Lemma add_subscription_local (env : Env) (uid days : Z) (w1 w2 : World) :
  subscriptions (db w1) = subscriptions (db w2) -> tick w1 = tick w2 ->
  subscriptions (db (exec (add_subscription env uid days) w1))
  = subscriptions (db (exec (add_subscription env uid days) w2)).
Proof.
  intros Hs Ht.
  unfold exec, add_subscription, bind, now, sql_now, get_db, put_db, ret; simpl.
  rewrite Hs, Ht.
  destruct (select_latest_active _ _); simpl; reflexivity.
Qed.

Lemma bind_run {A B : Type} (c : M A) (k : A -> M B) (w w1 : World) (a : A) :
  c w = (Ok a, w1) -> bind c k w = k a w1.
Proof. intros H; unfold bind; rewrite H; reflexivity. Qed.

Lemma bind_assoc {A B C : Type} (c : M A) (k1 : A -> M B) (k2 : B -> M C)
      (w : World) :
  bind (bind c k1) k2 w = bind c (fun a => bind (k1 a) k2) w.
Proof. unfold bind. destruct (c w) as [[a|e] w1]; reflexivity. Qed.

Lemma bind_raise {A B : Type} (c : M A) (k : A -> M B) (w w1 : World) (e : exn) :
  c w = (Raise e, w1) -> bind c k w = (Raise e, w1).
Proof. intros H; unfold bind; rewrite H; reflexivity. Qed.

Lemma quiet_notice (env : Env) (chat : Z) (m : Msg) :
  quiet (try_except (send_message env chat m) (fun _ => ret tt)).
Proof. apply quiet_try, keeps_db_send. Qed.

(** The notices to the administrators of a confirmed crypto payment. *)
Lemma quiet_admin_notices (env : Env) (admins : list Z) (uid : Z)
      (product : string) :
  quiet (for_each admins (fun admin =>
           try_except
             (user_data <- get_user uid ;;
              match user_data with
              | Some u => get_user_name_of_row u
              | None => ret tt
              end ;;
              send_message env admin (MsgAdminCryptoConfirmed uid product))
             (fun _ => ret tt))).
Proof.
  apply quiet_for_each. intros admin. apply quiet_try.
  apply keeps_db_bind; [intros w; reflexivity|].
  intros [u|]; (apply keeps_db_bind; [intros w; reflexivity|]);
    intros _; apply keeps_db_send.
Qed.

(** ** C1: the crypto poll cycle *)


Lemma poll_one_quiet_result (env : Env) (config : Config)
      (pu : CryptoPayment * option User) (w : World) :
  fst (poll_one env config pu w) = Ok tt.
Proof.
  unfold poll_one, try_except at 1.
  match goal with |- fst (match ?c with _ => _ end) = _ =>
    destruct c as [[[]|e] w1] end; reflexivity.
Qed.

(** With a configuration that carries [crypto_pay], the cycle is the loop
    of [poll_one] over the pending rows, and it returns normally. *)
Lemma poll_cycle_unfold (env : Env) (config : Config) (c : CryptoPayConfig)
      (w : World) :
  crypto_pay config = Some c ->
  _check_pending_crypto_payments env config w
  = for_each (pending_rows w) (poll_one env config) w.
Proof.
  intros Hc.
  unfold _check_pending_crypto_payments, try_except,
    get_pending_crypto_payments, bind at 1, get_db, ret; simpl.
  fold (pending_rows w). rewrite Hc.
  destruct (pending_rows w) as [|pu rest] eqn:E; [reflexivity|].
  destruct (for_each_each (pu :: rest) (poll_one env config)
              (fun _ _ => True) (fun _ _ => True)
              (fun _ => I) (fun _ _ _ _ _ => I) (fun _ _ _ _ _ => I)
              (fun x w1 _ => conj (poll_one_quiet_result env config x w1)
                                  (conj I I)) w) as (Hok & _).
  destruct (for_each (pu :: rest) (poll_one env config) w) as [r w1].
  simpl in Hok. subst r. reflexivity.
Qed.

(** What a turn of the loop makes of the database, by the reply of the
    invoice service. *)
Lemma poll_one_db (env : Env) (config : Config) (p : CryptoPayment)
      (ou : option User) (w : World) :
  exists w',
    poll_one env config (p, ou) w = (Ok tt, w') /\
    match env_invoice env (tick w) (invoice_id p) with
    | InvoiceFound (Some st) =>
        if String.eqb st "paid" then
          let w2 :=
            mkWorld
              (with_crypto_payments (db w)
                 (map (fun q => if String.eqb (invoice_id q) (invoice_id p)
                                then cp_confirm_row q (env_now env (S (tick w)))
                                else q)
                      (crypto_payments (db w))))
              (S (S (tick w))) (log w) in
          if String.eqb (cp_product_type p) "club"
          then db w' = db (exec (add_subscription env (cp_user_id p) 30) w2)
          else db w' = db w2
        else if String.eqb st "expired" then
          db w' = with_crypto_payments (db w)
                    (map (fun q => if String.eqb (invoice_id q) (invoice_id p)
                                   then cp_expire_row q else q)
                         (crypto_payments (db w)))
        else db w' = db w
    | _ => db w' = db w
    end.
Proof.
  set (w1 := mkWorld (db w) (S (tick w)) (log w)).
  remember (env_invoice env (tick w) (invoice_id p)) as reply eqn:Ereply.
  assert (check_invoice_status env (invoice_id p) w
          = match reply with
            | InvoiceError => (Raise CryptoPayError, w1)
            | InvoiceFound st => (Ok st, w1)
            end) as Hchk
    by (unfold check_invoice_status; rewrite <- Ereply; reflexivity).
  remember (poll_one env config (p, ou) w) as R eqn:HR.
  unfold poll_one in HR. cbn [fst snd] in HR. unfold try_except at 1 in HR.
  destruct reply as [|[st|]].
  - rewrite (bind_raise _ _ _ _ _ Hchk) in HR. subst R. simpl.
    eexists; split; reflexivity.
  - rewrite (bind_run _ _ _ _ _ Hchk) in HR. unfold is_status in HR.
    destruct (String.eqb_spec st "paid") as [->|Hpaid].
    + set (w2 := mkWorld
             (with_crypto_payments (db w)
                (map (fun q => if String.eqb (invoice_id q) (invoice_id p)
                               then cp_confirm_row q (env_now env (S (tick w)))
                               else q)
                     (crypto_payments (db w))))
             (S (S (tick w))) (log w)).
      rewrite (bind_run _ _ _ w2 true) in HR by reflexivity.
      destruct (String.eqb_spec (cp_product_type p) "club") as [Hclub|Hclub].
      * destruct (add_subscription_ok env (cp_user_id p)
                    (info_days (get_payment_description config
                                  (cp_product_type p))) w2)
          as (sid & w3 & Hadd).
        destruct (quiet_run _ w3
                    (quiet_bind _ _
                       (quiet_notice env (cp_user_id p)
                          (MsgCryptoConfirmedClub
                             (info_days (get_payment_description config
                                           (cp_product_type p)))))
                       (quiet_admin_notices env (admin_ids config)
                          (cp_user_id p) (cp_product_type p))))
          as (w5 & Hrun & Hdb).
        rewrite bind_assoc, (bind_run _ _ _ _ _ Hadd) in HR.
        cbv beta in HR. rewrite Hrun in HR. subst R. simpl.
        assert (info_days (get_payment_description config
                             (cp_product_type p)) = 30) as Hdays
          by (rewrite Hclub; reflexivity).
        rewrite Hdays in Hadd.
        exists w5. split; [reflexivity|].
        rewrite Hdb. unfold exec. rewrite Hadd. reflexivity.
      * destruct (quiet_run _ w2
                    (quiet_bind _ _
                       (quiet_notice env (cp_user_id p)
                          (MsgCryptoConfirmedOther (cp_product_type p)))
                       (quiet_admin_notices env (admin_ids config)
                          (cp_user_id p) (cp_product_type p))))
          as (w5 & Hrun & Hdb).
        rewrite Hrun in HR. subst R. simpl. eauto.
    + destruct (String.eqb_spec st "expired") as [->|Hexp].
      * set (w2 := mkWorld
               (with_crypto_payments (db w)
                  (map (fun q => if String.eqb (invoice_id q) (invoice_id p)
                                 then cp_expire_row q else q)
                       (crypto_payments (db w))))
               (S (tick w)) (log w)).
        rewrite (bind_run _ _ _ w2 true) in HR by reflexivity.
        destruct (quiet_run _ w2 (quiet_notice env (cp_user_id p) MsgCryptoExpired))
          as (w3 & Hrun & Hdb).
        rewrite Hrun in HR. subst R. simpl. eauto.
      * subst R. simpl. eauto.
  - rewrite (bind_run _ _ _ _ _ Hchk) in HR. subst R. simpl. eauto.
Qed.

(** The subscription table after [add_subscription], written out. *)
Lemma add_subscription_table (env : Env) (uid days : Z) (w : World) :
  subscriptions (db (exec (add_subscription env uid days) w))
  = match select_latest_active uid (subscriptions (db w)) with
    | Some r =>
        map (fun s => if subscription_id s =? subscription_id r
                      then set_end_date s
                             (if end_date r <? env_now env (S (tick w))
                              then env_now env (tick w) + timedelta days
                              else end_date r + timedelta days)
                      else s)
            (subscriptions (db w))
    | None =>
        subscriptions (db w)
          ++ [mkSubscription
                (lastrowid (map subscription_id (subscriptions (db w))))
                uid (env_sql_now env (S (tick w)))
                (env_now env (tick w) + timedelta days) active]
    end.
Proof.
  unfold exec, add_subscription, bind, now, sql_now, get_db, put_db, ret; simpl.
  destruct (select_latest_active _ _); reflexivity.
Qed.

(** The cycle for every configuration: without a [crypto_pay] section - the
    [Config] of [config.py] declares none - the attribute lookup raises
    inside the outer [try] and no row is processed; with one, the cycle is
    the loop of [poll_one] over the pending rows, newest first. *)
Lemma poll_cycle_run (env : Env) (config : Config) (w : World) :
  _check_pending_crypto_payments env config w
  = (Ok tt,
     match crypto_pay config with
     | Some _ => exec (for_each (pending_rows w) (poll_one env config)) w
     | None => w
     end).
Proof.
  destruct (crypto_pay config) as [c|] eqn:Hc.
  - rewrite (poll_cycle_unfold env config c w Hc).
    destruct (for_each_each (pending_rows w) (poll_one env config)
                (fun _ _ => True) (fun _ _ => True)
                (fun _ => I) (fun _ _ _ _ _ => I) (fun _ _ _ _ _ => I)
                (fun x w1 _ => conj (poll_one_quiet_result env config x w1)
                                    (conj I I)) w) as (Hok & _).
    unfold exec.
    destruct (for_each (pending_rows w) (poll_one env config) w) as [r w1].
    simpl in Hok. subst r. reflexivity.
  - unfold _check_pending_crypto_payments, try_except,
      get_pending_crypto_payments, bind at 1, get_db, ret; simpl.
    rewrite Hc. destruct (map _ _); reflexivity.
Qed.



(** ** C4: confirmation of a payment that is already confirmed *)

(** C4, evaluated.  Payment 1 of user 7 (club, Stars) has been confirmed by
    the administrator's command, which created subscription 1 ending thirty
    days later.  The administrator's command run again leaves the database
    as it is.  The platform's [successful_payment] message for the same
    payment does not: [successful_payment_handler] stamps [confirmed_at]
    anew and extends the subscription by thirty more days. *)
Theorem stars_callback_confirms_again :
  let w := demo_confirmed_world in
  let w_admin :=
    exec (club_cmd_confirm_payment demo_env demo_config 99
            ["/confirm_payment"%string; "1"%string]) w in
  let w_stars :=
    exec (successful_payment_handler demo_env demo_config 7 "payment_1") w in
  map pay_status (payments (db w)) = [confirmed] /\
  map end_date (subscriptions (db w)) = [env_now demo_env 2 + timedelta 30] /\
  db w_admin = db w /\
  map pay_status (payments (db w_stars)) = [confirmed] /\
  map confirmed_at (payments (db w_stars))
    <> map confirmed_at (payments (db w)) /\
  map end_date (subscriptions (db w_stars))
    = [env_now demo_env 2 + timedelta 30 + timedelta 30].
Proof.
  vm_compute. repeat split; try reflexivity. discriminate.
Qed.

(** ** Computations that respect a preorder on worlds *)

Section Respects.

Variable R : World -> World -> Prop.
Hypothesis R_refl : forall w, R w w.
Hypothesis R_trans : forall w1 w2 w3, R w1 w2 -> R w2 w3 -> R w1 w3.

Lemma respects_ret {A : Type} (a : A) : respects R (ret a).
Proof. intros w; apply R_refl. Qed.

Lemma respects_raise {A : Type} (e : exn) : respects R (@raise A e).
Proof. intros w; apply R_refl. Qed.

Lemma respects_bind {A B : Type} (c : M A) (k : A -> M B) :
  respects R c -> (forall a, respects R (k a)) -> respects R (bind c k).
Proof.
  intros Hc Hk w. unfold bind. specialize (Hc w).
  destruct (c w) as [[a|e] w1]; simpl in *; [|exact Hc].
  eapply R_trans; [exact Hc | apply Hk].
Qed.

Lemma respects_try {A : Type} (c : M A) (h : exn -> M A) :
  respects R c -> (forall e, respects R (h e)) -> respects R (try_except c h).
Proof.
  intros Hc Hh w. unfold try_except. specialize (Hc w).
  destruct (c w) as [[a|e] w1]; simpl in *; [exact Hc|].
  eapply R_trans; [exact Hc | apply Hh].
Qed.

Lemma respects_for_each {A : Type} (xs : list A) (body : A -> M unit) :
  (forall x, respects R (body x)) -> respects R (for_each xs body).
Proof.
  intros Hb. induction xs as [|x xs IH]; simpl.
  - apply respects_ret.
  - apply respects_bind; auto.
Qed.

Lemma respects_same_db {A : Type} (c : M A) :
  (forall w w', db w' = db w -> R w w') -> keeps_db c -> respects R c.
Proof. intros HR Hc w. apply HR, Hc. Qed.

End Respects.

(** ** The payment tables under the confirmation handlers *)

Lemma only_confirms_refl (w : World) : only_confirms w w.
Proof. split; [reflexivity | apply Forall2_same; auto]. Qed.

Lemma only_confirms_trans (w1 w2 w3 : World) :
  only_confirms w1 w2 -> only_confirms w2 w3 -> only_confirms w1 w3.
Proof.
  intros [C1 P1] [C2 P2]. split; [congruence|].
  eapply Forall2_compose; [|exact P1|exact P2]. simpl.
  intros x y z [->|[t ->]] [->|[t' ->]];
    [left; reflexivity | right; exists t'; reflexivity
    | right; exists t; reflexivity | right; exists t'; reflexivity].
Qed.

Lemma only_confirms_same_db (w w' : World) :
  db w' = db w -> only_confirms w w'.
Proof. intros H. unfold only_confirms. rewrite H. apply only_confirms_refl. Qed.

Lemma respects_oc_send (env : Env) (chat : Z) (m : Msg) :
  respects only_confirms (send_message env chat m).
Proof. intros w. apply only_confirms_same_db. reflexivity. Qed.

Lemma respects_oc_add_subscription (env : Env) (uid days : Z) :
  respects only_confirms (add_subscription env uid days).
Proof.
  intros w.
  destruct (add_subscription_frame env uid days w) as (_ & Hp & Hc & _).
  unfold exec in *. split; [exact Hc|]. rewrite Hp. apply Forall2_same; auto.
Qed.

Lemma respects_oc_confirm_payment (env : Env) (pid : Z) :
  respects only_confirms (confirm_payment env pid).
Proof.
  intros w. unfold confirm_payment, bind, now, get_db, put_db, ret; simpl.
  split; [reflexivity|]. simpl. apply Forall2_map_right.
  intros p. destruct (payment_id p =? pid); eauto.
Qed.

Lemma respects_oc_notify_customer (env : Env) (config : Config) (customer : Z)
      (product : string) :
  respects only_confirms (notify_customer env config customer product).
Proof.
  unfold notify_customer. destruct (String.eqb product "club").
  - apply respects_bind;
      [apply only_confirms_trans | apply respects_oc_add_subscription|].
    intros _. apply respects_try; [apply only_confirms_trans | |].
    + apply respects_oc_send.
    + intros e. apply respects_ret, only_confirms_refl.
  - apply respects_try; [apply only_confirms_trans | |].
    + apply respects_oc_send.
    + intros e. apply respects_ret, only_confirms_refl.
Qed.

Ltac oc_step :=
  first
    [ apply respects_oc_send
    | apply respects_oc_confirm_payment
    | apply respects_oc_add_subscription
    | apply respects_oc_notify_customer
    | apply respects_ret, only_confirms_refl
    | apply respects_raise, only_confirms_refl
    | apply respects_bind; [apply only_confirms_trans | | intros ?]
    | apply respects_try; [apply only_confirms_trans | | intros ?]
    | apply respects_for_each;
        [apply only_confirms_refl | apply only_confirms_trans | intros ?] ].

Lemma respects_oc_get_payment (env : Env) (pid : Z) :
  respects only_confirms (get_payment pid).
Proof. intros w. apply only_confirms_refl. Qed.

Lemma respects_oc_get_user (uid : Z) : respects only_confirms (get_user uid).
Proof. intros w. apply only_confirms_refl. Qed.

Lemma respects_oc_club_confirm (env : Env) (config : Config) (sender : Z)
      (args : list string) :
  respects only_confirms (club_cmd_confirm_payment env config sender args).
Proof.
  unfold club_cmd_confirm_payment.
  destruct (negb _); [oc_step|].
  destruct args as [|a [|arg [|]]]; try oc_step.
  destruct (int_of_str arg) as [pid|]; [|oc_step].
  apply respects_bind;
    [apply only_confirms_trans | apply respects_oc_get_payment; exact env|].
  intros [p|]; [|oc_step].
  destruct (status_eqb _ _); repeat oc_step.
Qed.

Lemma respects_oc_admin_confirm (env : Env) (config : Config) (sender : Z)
      (args : list string) :
  respects only_confirms (admin_cmd_confirm_payment env config sender args).
Proof.
  unfold admin_cmd_confirm_payment.
  destruct (negb _); [oc_step|].
  destruct args as [|a [|arg [|]]]; try oc_step.
  destruct (int_of_str arg) as [pid|]; [|oc_step].
  apply respects_bind;
    [apply only_confirms_trans | apply respects_oc_get_payment; exact env|].
  intros [p|]; [|oc_step].
  destruct (status_eqb _ _); [oc_step|].
  oc_step; [oc_step|].
  apply respects_bind;
    [apply only_confirms_trans | apply respects_oc_get_user|].
  intros [u|]; repeat oc_step.
Qed.

Lemma respects_oc_successful_payment (env : Env) (config : Config) (chat : Z)
      (payload : string) :
  respects only_confirms (successful_payment_handler env config chat payload).
Proof.
  unfold successful_payment_handler.
  destruct (String.prefix _ _); [|oc_step].
  apply respects_bind; [apply only_confirms_trans | |].
  - unfold payload_payment_id.
    destruct (split_on _ _) as [|x [|part l]]; try oc_step.
    destruct (int_of_str part); oc_step.
  - intros pid. apply respects_bind;
      [apply only_confirms_trans | apply respects_oc_get_payment; exact env|].
    intros [p|]; [|oc_step].
    cbv zeta. oc_step; [oc_step|].
    destruct (String.eqb (product_type p) "club"); repeat oc_step.
Qed.

(** ** The crypto table under the poll cycle *)

Lemma insert_by_created_desc_perm (p : CryptoPayment) (l : list CryptoPayment) :
  Permutation (insert_by_created_desc p l) (p :: l).
Proof.
  induction l as [|q l IH]; simpl; [reflexivity|].
  destruct (cp_created_at q <=? cp_created_at p); [reflexivity|].
  rewrite IH. apply perm_swap.
Qed.

Lemma sort_by_created_desc_perm (l : list CryptoPayment) :
  Permutation (sort_by_created_desc l) l.
Proof.
  induction l as [|p l IH]; simpl; [reflexivity|].
  rewrite insert_by_created_desc_perm. constructor. exact IH.
Qed.

Lemma NoDup_map_filter {A B : Type} (f : A -> B) (g : A -> bool) (l : list A) :
  NoDup (map f l) -> NoDup (map f (filter g l)).
Proof.
  induction l as [|a l IH]; simpl; intros H; [constructor|].
  inversion H as [|x xs Hnin Hnd]; subst.
  destruct (g a); simpl; [constructor|]; auto.
  intros Hin. apply Hnin. apply in_map_iff in Hin.
  destruct Hin as (y & Hy & Hin). apply filter_In in Hin.
  apply in_map_iff. exists y. tauto.
Qed.

Lemma NoDup_map_inj {A B : Type} (f : A -> B) (l : list A) (x y : A) :
  NoDup (map f l) -> In x l -> In y l -> f x = f y -> x = y.
Proof.
  induction l as [|a l IH]; simpl; intros H Hx Hy Hf; [tauto|].
  inversion H as [|b bs Hnin Hnd]; subst.
  destruct Hx as [->|Hx], Hy as [->|Hy]; auto.
  - exfalso. apply Hnin. rewrite Hf. apply in_map; exact Hy.
  - exfalso. apply Hnin. rewrite <- Hf. apply in_map; exact Hx.
Qed.

Lemma pending_rows_in (w : World) (pu : CryptoPayment * option User) :
  In pu (pending_rows w) ->
  In (fst pu) (crypto_payments (db w)) /\ cp_status (fst pu) = pending.
Proof.
  unfold pending_rows. intros H. apply in_map_iff in H.
  destruct H as (p & <- & Hp). simpl.
  apply (Permutation_in _ (sort_by_created_desc_perm _)) in Hp.
  apply filter_In in Hp. destruct Hp as [Hin Hst].
  split; [exact Hin | apply status_eqb_eq; exact Hst].
Qed.

Lemma pending_rows_nodup (w : World) :
  NoDup (map invoice_id (crypto_payments (db w))) ->
  NoDup (map (fun pu => invoice_id (fst pu)) (pending_rows w)).
Proof.
  intros H. unfold pending_rows. rewrite map_map. simpl.
  eapply Permutation_NoDup;
    [apply Permutation_map; symmetry; apply sort_by_created_desc_perm|].
  apply NoDup_map_filter. exact H.
Qed.

Lemma map_if_same {A : Type} (g : A -> bool) (l : list A) :
  map (fun q => if g q then q else q) l = l.
Proof.
  induction l as [|a l IH]; simpl; [reflexivity|].
  rewrite IH. destruct (g a); reflexivity.
Qed.

(** A turn leaves [payments] alone and rewrites, of [crypto_payments], only
    rows of the invoice it checked, confirming or expiring them. *)
Lemma poll_one_tables (env : Env) (config : Config) (p : CryptoPayment)
      (ou : option User) (w : World) :
  exists w' f,
    poll_one env config (p, ou) w = (Ok tt, w') /\
    payments (db w') = payments (db w) /\
    (forall q, f q = q \/ (exists t, f q = cp_confirm_row q t)
               \/ f q = cp_expire_row q) /\
    crypto_payments (db w')
    = map (fun q => if String.eqb (invoice_id q) (invoice_id p)
                    then f q else q)
          (crypto_payments (db w)).
Proof.
  destruct (poll_one_db env config p ou w) as (w' & Hrun & Hdb).
  exists w'.
  assert (db w' = db w ->
          exists f,
            poll_one env config (p, ou) w = (Ok tt, w') /\
            payments (db w') = payments (db w) /\
            (forall q, f q = q \/ (exists t, f q = cp_confirm_row q t)
                       \/ f q = cp_expire_row q) /\
            crypto_payments (db w')
            = map (fun q => if String.eqb (invoice_id q) (invoice_id p)
                            then f q else q)
                  (crypto_payments (db w))) as Hsame.
  { intros E. exists (fun q => q). rewrite E, map_if_same. auto. }
  destruct (env_invoice env (tick w) (invoice_id p)) as [|[st|]]; auto.
  destruct (String.eqb st "paid").
  - cbv zeta in Hdb.
    exists (fun q => cp_confirm_row q (env_now env (S (tick w)))).
    split; [exact Hrun|].
    destruct (String.eqb (cp_product_type p) "club"); rewrite Hdb.
    + match goal with |- context [exec (add_subscription ?e ?u ?d) ?w2] =>
        destruct (add_subscription_frame e u d w2) as (_ & Hp & Hc & _)
      end.
      cbv zeta in Hp, Hc. rewrite Hp, Hc. simpl.
      split; [reflexivity|]. split; [intros q; eauto | reflexivity].
    + simpl. split; [reflexivity|]. split; [intros q; eauto | reflexivity].
  - destruct (String.eqb st "expired"); [|auto].
    exists cp_expire_row. rewrite Hdb. simpl.
    split; [exact Hrun|]. split; [reflexivity|].
    split; [intros q; auto | reflexivity].
Qed.

Lemma crypto_ok_refl (s : status) : crypto_ok s s.
Proof. left; reflexivity. Qed.

Lemma crypto_ok_trans (a b c : status) :
  crypto_ok a b -> crypto_ok b c -> crypto_ok a c.
Proof.
  unfold crypto_ok. intuition congruence.
Qed.

Lemma pay_ok_trans (a b c : status) : pay_ok a b -> pay_ok b c -> pay_ok a c.
Proof.
  unfold pay_ok. intuition congruence.
Qed.

Lemma crow_ok_trans (a b c : CryptoPayment) :
  crow_ok a b -> crow_ok b c -> crow_ok a c.
Proof.
  intros (I1 & V1 & S1) (I2 & V2 & S2).
  repeat split; [congruence | congruence | eapply crypto_ok_trans; eauto].
Qed.

Lemma Forall2_map_right_in {A : Type} (P : A -> A -> Prop) (f : A -> A)
      (l : list A) :
  (forall x, In x l -> P x (f x)) -> Forall2 P l (map f l).
Proof.
  induction l as [|a l IH]; simpl; intros H; constructor; auto.
Qed.

(** The loop of the cycle over rows of distinct invoices, each the invoice
    of pending rows only. *)
Lemma poll_loop_tables (env : Env) (config : Config)
      (L : list (CryptoPayment * option User)) :
  forall w,
    NoDup (map (fun pu => invoice_id (fst pu)) L) ->
    (forall pu q, In pu L -> In q (crypto_payments (db w)) ->
                  invoice_id q = invoice_id (fst pu) -> cp_status q = pending) ->
    payments (db (snd (for_each L (poll_one env config) w)))
      = payments (db w) /\
    Forall2 crow_ok (crypto_payments (db w))
            (crypto_payments (db (snd (for_each L (poll_one env config) w)))).
Proof.
  induction L as [|[p ou] L IH]; intros w Hnd Hpend; simpl.
  - split; [reflexivity|]. apply Forall2_same.
    intros q. repeat split. apply crypto_ok_refl.
  - destruct (poll_one_tables env config p ou w)
      as (w1 & f & Hrun & Hpay & Hf & Hcp).
    unfold bind. rewrite Hrun.
    inversion Hnd as [|x xs Hnin Hnd']; subst.
    assert (Forall2 crow_ok (crypto_payments (db w)) (crypto_payments (db w1)))
      as Hstep.
    { rewrite Hcp. apply Forall2_map_right_in. intros q Hq.
      destruct (String.eqb_spec (invoice_id q) (invoice_id p)) as [E|E];
        [|repeat split; apply crypto_ok_refl].
      pose proof (Hpend (p, ou) q (or_introl eq_refl) Hq E) as Hst.
      destruct (Hf q) as [->|[[t ->]| ->]]; simpl;
        repeat split; solve [apply crypto_ok_refl | right; auto]. }
    destruct (IH w1 Hnd') as (Hpay' & Hrest).
    { intros pu q' Hpu Hq' Hinv. rewrite Hcp in Hq'.
      apply in_map_iff in Hq'. destruct Hq' as (q & Hq & Hin).
      assert (invoice_id q' = invoice_id q) as Hsame.
      { subst q'. destruct (String.eqb (invoice_id q) (invoice_id p));
          [|reflexivity].
        destruct (Hf q) as [->|[[t ->]| ->]]; reflexivity. }
      destruct (String.eqb_spec (invoice_id q) (invoice_id p)) as [E|E].
      - exfalso. apply Hnin. simpl. apply in_map_iff. exists pu.
        split; [congruence | exact Hpu].
      - subst q'. apply (Hpend pu q (or_intror Hpu) Hin). congruence. }
    split; [congruence|].
    eapply Forall2_compose; [apply crow_ok_trans | exact Hstep | exact Hrest].
Qed.

Lemma snd_try_ret (c : M unit) (w : World) :
  snd (try_except c (fun _ => ret tt) w) = snd (c w).
Proof. unfold try_except. destruct (c w) as [[a|e] w1]; reflexivity. Qed.

Lemma poll_cycle_world (env : Env) (config : Config) (w : World) :
  exec (_check_pending_crypto_payments env config) w
  = match pending_rows w, crypto_pay config with
    | _ :: _, Some _ => snd (for_each (pending_rows w) (poll_one env config) w)
    | _, _ => w
    end.
Proof.
  unfold exec, _check_pending_crypto_payments. rewrite snd_try_ret.
  rewrite (bind_run _ _ w w (pending_rows w)) by reflexivity.
  destruct (pending_rows w) as [|pu rest]; [reflexivity|].
  destruct (crypto_pay config); reflexivity.
Qed.

Lemma poll_cycle_tables (env : Env) (config : Config) (w : World) :
  NoDup (map invoice_id (crypto_payments (db w))) ->
  let w' := exec (_check_pending_crypto_payments env config) w in
  payments (db w') = payments (db w) /\
  Forall2 crow_ok (crypto_payments (db w)) (crypto_payments (db w')).
Proof.
  intros Hnd.
  assert (payments (db w) = payments (db w) /\
          Forall2 crow_ok (crypto_payments (db w)) (crypto_payments (db w)))
    as Hsame.
  { split; [reflexivity|]. apply Forall2_same.
    intros q. repeat split. apply crypto_ok_refl. }
  cbv zeta. rewrite poll_cycle_world.
  destruct (pending_rows w) as [|pu rest] eqn:E; [exact Hsame|].
  destruct (crypto_pay config); [|exact Hsame].
  rewrite <- E. apply poll_loop_tables.
  - apply pending_rows_nodup. exact Hnd.
  - intros pu' q Hpu Hq Hinv.
    destruct (pending_rows_in w pu' Hpu) as [Hin Hst].
    rewrite (NoDup_map_inj invoice_id _ q (fst pu') Hnd Hq Hin Hinv).
    exact Hst.
Qed.

(** ** C5: the status of a payment only moves forward *)

Lemma Forall2_Forall_right {A : Type} (P : A -> A -> Prop) (Q Q' : A -> Prop)
      (l l' : list A) :
  (forall x y, Q x -> P x y -> Q' y) ->
  Forall2 P l l' -> Forall Q l -> Forall Q' l'.
Proof.
  intros H HF. induction HF; intros HQ; constructor;
    inversion HQ; subst; eauto.
Qed.

Lemma evolves_trans {Row : Type} (id : Row -> Z) (st : Row -> status)
      (ok : status -> status -> Prop) (T1 T2 T3 : list Row) :
  (forall a b c, ok a b -> ok b c -> ok a c) ->
  evolves id st ok T1 T2 -> evolves id st ok T2 T3 -> evolves id st ok T1 T3.
Proof.
  intros Hok (U & N & -> & HU & HN) (U' & N' & -> & HU' & HN').
  apply Forall2_app_inv_l in HU'.
  destruct HU' as (Ua & Ub & HUa & HUb & ->).
  exists Ua, (Ub ++ N'). split; [rewrite app_assoc; reflexivity|]. split.
  - eapply Forall2_compose; [|exact HU|exact HUa].
    simpl. intros x y z [I1 O1] [I2 O2]. split; [congruence | eauto].
  - apply Forall_app. split; [|exact HN'].
    eapply Forall2_Forall_right; [|exact HUb|exact HN].
    simpl. intros x y Hx [_ Hxy]. eapply Hok; eauto.
Qed.

Lemma evolves_same {Row : Type} (id : Row -> Z) (st : Row -> status)
      (ok : status -> status -> Prop) (T T' : list Row) :
  Forall2 (fun r r' => id r' = id r /\ ok (st r) (st r')) T T' ->
  evolves id st ok T T'.
Proof.
  intros H. exists T', []. rewrite app_nil_r. repeat split; auto.
Qed.

Lemma evolves_refl {Row : Type} (id : Row -> Z) (st : Row -> status)
      (ok : status -> status -> Prop) (T : list Row) :
  (forall s, ok s s) -> evolves id st ok T T.
Proof. intros H. apply evolves_same, Forall2_same. auto. Qed.

Lemma evolves_insert {Row : Type} (id : Row -> Z) (st : Row -> status)
      (ok : status -> status -> Prop) (T : list Row) (r : Row) :
  (forall s, ok s s) -> st r = pending -> evolves id st ok T (T ++ [r]).
Proof.
  intros H Hr. exists T, [r]. repeat split.
  - apply Forall2_same. auto.
  - constructor; [rewrite Hr; apply H | constructor].
Qed.

Lemma pay_ok_refl (s : status) : pay_ok s s.
Proof. left; reflexivity. Qed.

Lemma lifecycle_ok_refl (w : World) : lifecycle_ok w w.
Proof.
  split; apply evolves_refl; [apply pay_ok_refl | apply crypto_ok_refl].
Qed.

Lemma lifecycle_ok_trans (w1 w2 w3 : World) :
  lifecycle_ok w1 w2 -> lifecycle_ok w2 w3 -> lifecycle_ok w1 w3.
Proof.
  intros [P1 C1] [P2 C2]. split.
  - eapply evolves_trans; [apply pay_ok_trans | exact P1 | exact P2].
  - eapply evolves_trans; [apply crypto_ok_trans | exact C1 | exact C2].
Qed.

Lemma Forall2_Forall_left {A : Type} (P P' : A -> A -> Prop) (Q : A -> Prop)
      (l l' : list A) :
  (forall x y, Q x -> P x y -> P' x y) ->
  Forall2 P l l' -> Forall Q l -> Forall2 P' l l'.
Proof.
  intros H HF. induction HF; intros HQ; constructor;
    inversion HQ; subst; eauto.
Qed.

(** A step that only confirms payments keeps the invariant and is a legal
    move of the lifecycle. *)
Lemma only_confirms_step (w w' : World) :
  ledger_inv w -> only_confirms w w' -> ledger_inv w' /\ lifecycle_ok w w'.
Proof.
  intros [Hnd Hst] [Hc Hp]. split; [split|split].
  - rewrite Hc. exact Hnd.
  - eapply Forall2_Forall_right; [|exact Hp|exact Hst].
    simpl. intros x y Hx [->|[t ->]]; simpl; auto.
  - apply evolves_same.
    eapply Forall2_Forall_left; [|exact Hp|exact Hst].
    simpl. intros x y Hx [->|[t ->]]; simpl.
    + split; [reflexivity | apply pay_ok_refl].
    + split; [reflexivity|]. destruct Hx as [Hx|Hx]; rewrite Hx;
        [right; auto | left; reflexivity].
  - rewrite Hc. apply evolves_refl, crypto_ok_refl.
Qed.

Lemma fresh_invoice_not_in (invoice : string) (w : World) :
  fresh_invoice invoice w = true ->
  ~ In invoice (map invoice_id (crypto_payments (db w))).
Proof.
  unfold fresh_invoice. intros H Hin. rewrite forallb_forall in H.
  apply in_map_iff in Hin. destruct Hin as (q & Hq & Hin).
  specialize (H q Hin). rewrite Hq, String.eqb_refl in H. discriminate.
Qed.

(** Every admissible operation keeps the invariant and is a legal move. *)
Lemma run_op_step (env : Env) (config : Config) (op : Op) (w : World) :
  ledger_inv w -> admissible op w = true ->
  ledger_inv (exec (run_op env config op) w) /\
  lifecycle_ok w (exec (run_op env config op) w).
Proof.
  intros Hinv Hadm. destruct op as [uid amt product method | sender args
    | sender args | chat payload | uid invoice asset0 amt product | ];
    unfold run_op.
  - (* create_payment *)
    destruct Hinv as [Hnd Hst].
    unfold exec, create_payment, bind, sql_now, get_db, put_db, ret; simpl.
    split; [split|split]; simpl.
    + exact Hnd.
    + apply Forall_app. split; [exact Hst|]. constructor; simpl; auto.
    + apply evolves_insert; [apply pay_ok_refl | reflexivity].
    + apply evolves_refl, crypto_ok_refl.
  - apply only_confirms_step; [exact Hinv|].
    apply respects_oc_club_confirm.
  - apply only_confirms_step; [exact Hinv|].
    apply respects_oc_admin_confirm.
  - apply only_confirms_step; [exact Hinv|].
    apply respects_oc_successful_payment.
  - (* create_crypto_payment *)
    destruct Hinv as [Hnd Hst]. simpl in Hadm.
    apply fresh_invoice_not_in in Hadm.
    unfold exec, create_crypto_payment, bind, sql_now, get_db, put_db, ret;
      simpl.
    split; [split|split]; simpl.
    + rewrite map_app. simpl.
      eapply Permutation_NoDup; [apply Permutation_cons_append|].
      constructor; assumption.
    + exact Hst.
    + apply evolves_refl, pay_ok_refl.
    + apply evolves_insert; [apply crypto_ok_refl | reflexivity].
  - (* the poll cycle *)
    destruct Hinv as [Hnd Hst].
    destruct (poll_cycle_tables env config w Hnd) as [Hp Hc].
    cbv zeta in Hp, Hc.
    split; [split|split].
    + assert (map invoice_id
                (crypto_payments
                   (db (exec (_check_pending_crypto_payments env config) w)))
              = map invoice_id (crypto_payments (db w))) as ->; [|exact Hnd].
      clear - Hc. induction Hc as [|q q' l l' (_ & Hi & _) _ IH]; simpl;
        [reflexivity | rewrite Hi, IH; reflexivity].
    + rewrite Hp. exact Hst.
    + rewrite Hp. apply evolves_refl, pay_ok_refl.
    + apply evolves_same.
      eapply Forall2_Forall_left with (Q := fun _ => True);
        [|exact Hc|apply Forall_forall; auto].
      simpl. intros x y _ (Hi & _ & Ho). auto.
Qed.

Lemma run_ops_steps (env : Env) (config : Config) (ops : list Op) :
  forall w w',
    ledger_inv w -> run_ops env config ops w = Some w' ->
    ledger_inv w' /\ lifecycle_ok w w'.
Proof.
  induction ops as [|op ops IH]; simpl; intros w w' Hinv Hrun.
  - inversion Hrun; subst. split; [exact Hinv | apply lifecycle_ok_refl].
  - destruct (admissible op w) eqn:Hadm; [|discriminate].
    destruct (run_op_step env config op w Hinv Hadm) as [Hinv1 Hok1].
    destruct (IH _ _ Hinv1 Hrun) as [Hinv' Hok'].
    split; [exact Hinv' | eapply lifecycle_ok_trans; eauto].
Qed.

(** C5.  Take any state [w] that a sequence of payment operations reaches
    from the empty ledger, and any state [w'] that a further sequence
    reaches from [w], a crypto payment being created only for an invoice
    that no row refers to yet.  Every payment of [w] is in [w'], under the
    same id, with the same status or moved from [pending] to [confirmed];
    every crypto payment of [w] is in [w'] with the same status or moved
    from [pending] to [confirmed] or to [expired]; the rows created in
    between have a status reached in the same way from [pending]. *)
Theorem payment_status_only_moves_forward
        (env : Env) (config : Config) (ops1 ops2 : list Op) (w w' : World) :
  run_ops env config ops1 initial_world = Some w ->
  run_ops env config ops2 w = Some w' ->
  lifecycle_ok w w'.
Proof.
  intros H1 H2.
  assert (ledger_inv initial_world) as H0
    by (split; simpl; constructor).
  destruct (run_ops_steps env config ops1 _ _ H0 H1) as [Hinv _].
  exact (proj2 (run_ops_steps env config ops2 _ _ Hinv H2)).
Qed.

Lemma payment_status_only_moves_forward_witness :
  lifecycle_ok (run_from demo_ops_before initial_world)
               (run_from demo_ops_after
                         (run_from demo_ops_before initial_world)) /\
  map pay_status
      (payments (db (run_from demo_ops_after
                       (run_from demo_ops_before initial_world))))
    = [confirmed; pending] /\
  map cp_status
      (crypto_payments (db (run_from demo_ops_after
                              (run_from demo_ops_before initial_world))))
    = [confirmed; expired].
Proof.
  split; [|split; reflexivity].
  apply (payment_status_only_moves_forward demo_env demo_config
           demo_ops_before demo_ops_after); reflexivity.
Defined.

(** ** Decimal texts *)

Lemma digit_val_digit_char (d : Z) :
  0 <= d <= 9 -> digit_val (digit_char d) = Some d.
Proof.
  intros H.
  assert (d = 0 \/ d = 1 \/ d = 2 \/ d = 3 \/ d = 4 \/ d = 5 \/ d = 6 \/
          d = 7 \/ d = 8 \/ d = 9) as Hd by lia.
  repeat (destruct Hd as [->|Hd]; [reflexivity|]). subst; reflexivity.
Qed.

Lemma is_digit_digit_char (d : Z) : 0 <= d <= 9 -> is_digit (digit_char d) = true.
Proof.
  intros H.
  assert (d = 0 \/ d = 1 \/ d = 2 \/ d = 3 \/ d = 4 \/ d = 5 \/ d = 6 \/
          d = 7 \/ d = 8 \/ d = 9) as Hd by lia.
  repeat (destruct Hd as [->|Hd]; [reflexivity|]). subst; reflexivity.
Qed.

Lemma parse_digits_cons_digit (c : ascii) (s : string) (a d : Z) (b : bool) :
  digit_val c = Some d ->
  parse_digits (String c s) a b = parse_digits s (10 * a + d) true.
Proof. intros H. cbn [parse_digits]. rewrite H. reflexivity. Qed.

Lemma parse_digits_digits_of (f : nat) :
  forall n acc b,
    0 <= n < 10 ^ Z.of_nat (S f) ->
    parse_digits (digits_of (S f) n acc) 0 b = parse_digits acc n true.
Proof.
  induction f as [|f IH]; intros n acc b Hn;
    assert (0 <= n mod 10 <= 9) as Hm
      by (pose proof (Z.mod_pos_bound n 10); lia).
  - cbn [digits_of]. change (10 ^ Z.of_nat 1) with 10 in Hn.
    destruct (Z.ltb_spec n 10); [|lia].
    rewrite (parse_digits_cons_digit _ _ _ _ _ (digit_val_digit_char _ Hm)).
    rewrite Z.mod_small by lia. f_equal.
  - change (digits_of (S (S f)) n acc)
      with (if n <? 10 then String (digit_char (n mod 10)) acc
            else digits_of (S f) (n / 10) (String (digit_char (n mod 10)) acc)).
    destruct (Z.ltb_spec n 10).
    + rewrite (parse_digits_cons_digit _ _ _ _ _ (digit_val_digit_char _ Hm)).
      rewrite Z.mod_small by lia. f_equal.
    + rewrite IH.
      * rewrite (parse_digits_cons_digit _ _ _ _ _ (digit_val_digit_char _ Hm)).
        f_equal. pose proof (Z.div_mod n 10). lia.
      * rewrite Nat2Z.inj_succ, Z.pow_succ_r in Hn by lia.
        split; [apply Z.div_pos; lia|].
        apply Z.div_lt_upper_bound; lia.
Qed.

Lemma digits_of_all_digits (f : nat) :
  forall n acc,
    0 <= n -> all_chars is_digit acc = true ->
    all_chars is_digit (digits_of f n acc) = true.
Proof.
  induction f as [|f IH]; intros n acc Hn Hacc; simpl; [exact Hacc|].
  assert (all_chars is_digit (String (digit_char (n mod 10)) acc) = true) as H.
  { simpl. rewrite Hacc, is_digit_digit_char;
      [reflexivity | pose proof (Z.mod_pos_bound n 10); lia]. }
  destruct (n <? 10); [exact H|].
  apply IH; [apply Z.div_pos; lia | exact H].
Qed.

Lemma digits_of_nonempty (f : nat) (n : Z) (acc : string) :
  exists c s, digits_of (S f) n acc = String c s.
Proof.
  revert n acc. induction f as [|f IH]; intros n acc.
  - simpl. destruct (n <? 10); eauto.
  - change (digits_of (S (S f)) n acc)
      with (if n <? 10 then String (digit_char (n mod 10)) acc
            else digits_of (S f) (n / 10) (String (digit_char (n mod 10)) acc)).
    destruct (n <? 10); eauto.
Qed.

Lemma fuel_enough (n : Z) :
  0 <= n -> 0 <= n < 10 ^ Z.of_nat (S (Z.to_nat (Z.log2 n))).
Proof.
  intros Hn. split; [exact Hn|].
  rewrite Nat2Z.inj_succ, Z2Nat.id by apply Z.log2_nonneg.
  destruct (Z.eq_dec n 0) as [->|Hz]; [reflexivity|].
  pose proof (Z.log2_spec n ltac:(lia)) as [_ Hlt].
  eapply Z.lt_le_trans; [exact Hlt|].
  apply Z.pow_le_mono_l. pose proof (Z.log2_nonneg n). lia.
Qed.

Lemma rstrip_no_space (s : string) :
  all_chars (fun c => negb (is_space c)) s = true -> rstrip s = s.
Proof.
  induction s as [|c s IH]; simpl; [reflexivity|].
  intros H. apply andb_true_iff in H. destruct H as [Hc Hs].
  rewrite (IH Hs). apply negb_true_iff in Hc. rewrite Hc.
  destruct s; reflexivity.
Qed.

Lemma strip_no_space (s : string) :
  all_chars (fun c => negb (is_space c)) s = true -> strip s = s.
Proof.
  intros H. unfold strip.
  assert (lstrip s = s) as ->; [|apply rstrip_no_space; exact H].
  destruct s as [|c s]; simpl in *; [reflexivity|].
  apply andb_true_iff in H. destruct H as [Hc _].
  apply negb_true_iff in Hc. rewrite Hc. reflexivity.
Qed.

Lemma all_chars_impl (P Q : ascii -> bool) (s : string) :
  (forall c, P c = true -> Q c = true) ->
  all_chars P s = true -> all_chars Q s = true.
Proof.
  intros H. induction s as [|c s IH]; simpl; [reflexivity|].
  intros Hs. apply andb_true_iff in Hs. destruct Hs as [Hc Hs].
  rewrite (H _ Hc), (IH Hs). reflexivity.
Qed.

(** A digit is a readable ASCII character that is no space, no sign and no
    padding. *)
Lemma is_digit_facts (c : ascii) :
  is_digit c = true ->
  is_space c = false /\ is_char 45 c = false /\ is_char 43 c = false /\
  (N_of_ascii c <? 128)%N = true.
Proof.
  unfold is_digit, is_space, is_char. intros H.
  apply andb_true_iff in H. destruct H as [H1 H2].
  apply N.leb_le in H1. apply N.leb_le in H2.
  repeat split.
  - apply orb_false_iff. split; apply andb_false_iff.
    + right. apply N.leb_gt. lia.
    + right. apply N.leb_gt. lia.
  - apply N.eqb_neq. lia.
  - apply N.eqb_neq. lia.
  - apply N.ltb_lt. lia.
Qed.

Lemma int_of_str_nonneg (n : Z) : 0 <= n -> int_of_str (str_of_nonneg n) = Some n.
Proof.
  intros Hn. unfold int_of_str, str_of_nonneg.
  set (f := Z.to_nat (Z.log2 n)).
  pose proof (digits_of_all_digits (S f) n EmptyString Hn eq_refl) as Hall.
  rewrite strip_no_space.
  2:{ eapply all_chars_impl; [|exact Hall].
      intros c Hc. destruct (is_digit_facts c Hc) as (-> & _). reflexivity. }
  pose proof (parse_digits_digits_of f n EmptyString false (fuel_enough n Hn))
    as Hparse.
  destruct (digits_of_nonempty f n EmptyString) as (c & s & E).
  rewrite E in *. simpl in Hall. apply andb_true_iff in Hall.
  destruct Hall as [Hc _].
  destruct (is_digit_facts c Hc) as (_ & -> & -> & _).
  rewrite Hparse. reflexivity.
Qed.

(** [int(str(n)) == n] *)
Lemma int_of_str_of_int (n : Z) : int_of_str (str_of_int n) = Some n.
Proof.
  unfold str_of_int. destruct (Z.ltb_spec n 0) as [Hneg|Hpos].
  - assert (0 <= - n) as Hn by lia.
    pose proof (int_of_str_nonneg (- n) Hn) as H.
    unfold int_of_str, str_of_nonneg in *.
    set (f := Z.to_nat (Z.log2 (- n))) in *.
    pose proof (digits_of_all_digits (S f) (- n) EmptyString Hn eq_refl) as Hall.
    assert (all_chars (fun c => negb (is_space c))
              (digits_of (S f) (- n) EmptyString) = true) as Hns.
    { eapply all_chars_impl; [|exact Hall].
      intros c Hc. destruct (is_digit_facts c Hc) as (-> & _). reflexivity. }
    rewrite strip_no_space in H by exact Hns.
    rewrite strip_no_space by (cbn [all_chars]; rewrite Hns; reflexivity).
    change (is_char 45 (ascii_of_N 45)) with true. cbv iota.
    pose proof (parse_digits_digits_of f (- n) EmptyString false
                  (fuel_enough (- n) Hn)) as Hparse.
    rewrite Hparse. simpl. f_equal. lia.
  - apply int_of_str_nonneg. exact Hpos.
Qed.

(** ** Base64 *)

Lemma in_range64 (v : N) : (v < 64)%N -> In v range64.
Proof.
  intros H. unfold range64. apply in_map_iff. exists (N.to_nat v).
  split; [apply N2Nat.id|]. apply in_seq. lia.
Qed.

Lemma alphabet_facts (v : N) :
  (v < 64)%N ->
  Ascii.eqb (Base64.b2a v) Base64.BASE64_PAD = false /\
  Ascii.eqb (Base64.urlsafe_encode_char (Base64.b2a v)) Base64.BASE64_PAD
    = false /\
  Base64.urlsafe_decode_char (Base64.urlsafe_encode_char (Base64.b2a v))
    = Base64.b2a v /\
  Base64.a2b (Base64.b2a v) = Some v.
Proof.
  intros H.
  assert (forallb alphabet_check range64 = true) as Hall
    by (vm_compute; reflexivity).
  rewrite forallb_forall in Hall. specialize (Hall v (in_range64 v H)).
  unfold alphabet_check in Hall.
  repeat (apply andb_true_iff in Hall; destruct Hall as [Hall ?]).
  repeat split.
  - apply negb_true_iff. assumption.
  - apply negb_true_iff. assumption.
  - apply Ascii.eqb_eq. assumption.
  - destruct (Base64.a2b (Base64.b2a v)) as [v'|]; [|discriminate].
    f_equal. apply N.eqb_eq. assumption.
Qed.

Lemma bits_facts (u v : N) :
  (u < 64)%N -> (v < 64)%N ->
  (N.lor (N.shiftl u 2) (N.shiftr v 4) = u * 4 + v / 16 /\
   N.lor (N.shiftl (N.land u 15) 4) (N.shiftr v 2) = (u mod 16) * 16 + v / 4 /\
   N.lor (N.shiftl (N.land u 3) 6) v = (u mod 4) * 64 + v)%N.
Proof.
  intros Hu Hv.
  assert (forallb (fun a => forallb (bits_check a) range64) range64 = true)
    as Hall by (vm_compute; reflexivity).
  rewrite forallb_forall in Hall. specialize (Hall u (in_range64 u Hu)).
  rewrite forallb_forall in Hall. specialize (Hall v (in_range64 v Hv)).
  unfold bits_check in Hall.
  repeat (apply andb_true_iff in Hall; destruct Hall as [Hall ?]).
  repeat split; apply N.eqb_eq; assumption.
Qed.

(** The four 6-bit values of three bytes, and the bytes back. *)
Lemma sextets (a b c : N) :
  (a < 256 -> b < 256 -> c < 256 ->
   a / 4 < 64 /\ (a mod 4) * 16 + b / 16 < 64 /\
   (b mod 16) * 4 + c / 64 < 64 /\ c mod 64 < 64 /\
   ((a / 4) * 4 + ((a mod 4) * 16 + b / 16) / 16) mod 256 = a /\
   ((((a mod 4) * 16 + b / 16) mod 16) * 16
      + ((b mod 16) * 4 + c / 64) / 4) mod 256 = b /\
   ((((b mod 16) * 4 + c / 64) mod 4) * 64 + c mod 64) mod 256 = c)%N.
Proof.
  intros Ha Hb Hc.
  repeat split; zify; Z.to_euclidean_division_equations; lia.
Qed.

Lemma append_nil_r (s : string) : String.append s EmptyString = s.
Proof. induction s as [|c s IH]; simpl; [reflexivity | rewrite IH; reflexivity]. Qed.

Lemma append_assoc (s1 s2 s3 : string) :
  String.append (String.append s1 s2) s3
  = String.append s1 (String.append s2 s3).
Proof. induction s1 as [|c s1 IH]; simpl; [reflexivity | rewrite IH; reflexivity]. Qed.

(** The decoder on one data character. *)
Lemma a2b_loop_data (c : ascii) (v : N) (s : string) (quad_pos leftchar pads : N)
      (bin : string) :
  Ascii.eqb c Base64.BASE64_PAD = false ->
  Base64.a2b c = Some v ->
  Base64.a2b_base64_loop (String c s) quad_pos leftchar pads bin
  = if (quad_pos =? 0)%N then Base64.a2b_base64_loop s 1 v 0 bin
    else if (quad_pos =? 1)%N then
      Base64.a2b_base64_loop s 2 (N.land v 15) 0
        (String.append bin
           (String (ascii_of_N
                      (N.lor (N.shiftl leftchar 2) (N.shiftr v 4) mod 256))
                   EmptyString))
    else if (quad_pos =? 2)%N then
      Base64.a2b_base64_loop s 3 (N.land v 3) 0
        (String.append bin
           (String (ascii_of_N
                      (N.lor (N.shiftl leftchar 4) (N.shiftr v 2) mod 256))
                   EmptyString))
    else
      Base64.a2b_base64_loop s 0 0 0
        (String.append bin
           (String (ascii_of_N (N.lor (N.shiftl leftchar 6) v mod 256))
                   EmptyString)).
Proof.
  intros Hpad Hv. cbn [Base64.a2b_base64_loop]. rewrite Hpad, Hv. reflexivity.
Qed.

(** Three bytes, encoded to four characters of the URL-safe alphabet and
    then translated back, are decoded to themselves. *)
Lemma a2b_loop_quad (x y z : ascii) (s bin : string) :
  let a := N_of_ascii x in
  let b := N_of_ascii y in
  let c := N_of_ascii z in
  let tr v := Base64.urlsafe_decode_char
                (Base64.urlsafe_encode_char (Base64.b2a v)) in
  Base64.a2b_base64_loop
    (String (tr (a / 4)%N)
       (String (tr ((a mod 4) * 16 + b / 16)%N)
          (String (tr ((b mod 16) * 4 + c / 64)%N)
             (String (tr (c mod 64)%N) s)))) 0 0 0 bin
  = Base64.a2b_base64_loop s 0 0 0
      (String.append bin (String x (String y (String z EmptyString)))).
Proof.
  intros a b c tr.
  pose proof (N_ascii_bounded x) as Ha. pose proof (N_ascii_bounded y) as Hb.
  pose proof (N_ascii_bounded z) as Hc. fold a in Ha. fold b in Hb. fold c in Hc.
  destruct (sextets a b c Ha Hb Hc) as (H1 & H2 & H3 & H4 & Ea & Eb & Ec).
  destruct (alphabet_facts _ H1) as (P1 & _ & T1 & V1).
  destruct (alphabet_facts _ H2) as (P2 & _ & T2 & V2).
  destruct (alphabet_facts _ H3) as (P3 & _ & T3 & V3).
  destruct (alphabet_facts _ H4) as (P4 & _ & T4 & V4).
  unfold tr. rewrite T1, T2, T3, T4.
  rewrite (a2b_loop_data _ _ _ _ _ _ _ P1 V1). cbn [N.eqb].
  rewrite (a2b_loop_data _ _ _ _ _ _ _ P2 V2). cbn [N.eqb Pos.eqb].
  rewrite (a2b_loop_data _ _ _ _ _ _ _ P3 V3). cbn [N.eqb Pos.eqb].
  rewrite (a2b_loop_data _ _ _ _ _ _ _ P4 V4). cbn [N.eqb Pos.eqb].
  destruct (bits_facts _ _ H1 H2) as (B1 & _ & _).
  destruct (bits_facts _ _ H2 H3) as (_ & B2 & _).
  destruct (bits_facts _ _ H3 H4) as (_ & _ & B3).
  rewrite B1, B2, B3, Ea, Eb, Ec.
  unfold a, b, c. rewrite !ascii_N_embedding, !append_assoc. reflexivity.
Qed.

Lemma rstrip_pad_cons (c : ascii) (s : string) :
  Ascii.eqb c Base64.BASE64_PAD = false ->
  rstrip_pad (String c s) = String c (rstrip_pad s).
Proof.
  intros H. cbn [rstrip_pad]. rewrite H. destruct (rstrip_pad s); reflexivity.
Qed.

Lemma string_ind3 (P : string -> Prop) :
  P EmptyString ->
  (forall x, P (String x EmptyString)) ->
  (forall x y, P (String x (String y EmptyString))) ->
  (forall x y z r, P r -> P (String x (String y (String z r)))) ->
  forall s, P s.
Proof.
  intros H0 H1 H2 H3. fix IH 1.
  intros [|x [|y [|z r]]]; [exact H0 | apply H1 | apply H2 | apply H3, IH].
Qed.

Lemma mod4_step (n : nat) :
  Nat.modulo (S (S (S (S n)))) 4 = Nat.modulo n 4.
Proof.
  replace (S (S (S (S n)))) with (n + 1 * 4)%nat by lia.
  apply Nat.Div0.mod_add.
Qed.

(** The URL-safe encoding, its padding stripped and then restored the way
    [extract_referrer_id] does, decodes to the bytes encoded - also when the
    stripped text has a length divisible by 4 and four padding characters
    are appended. *)
Lemma urlsafe_roundtrip_from (s : string) :
  forall bin,
    Base64.a2b_base64_loop
      (Base64.translate Base64.urlsafe_decode_char
         (String.append
            (rstrip_pad (Base64.urlsafe_b64encode s))
            (pad_string
               (4 - Nat.modulo
                      (String.length (rstrip_pad (Base64.urlsafe_b64encode s)))
                      4))))
      0 0 0 bin
    = Some (String.append bin s).
Proof.
  unfold Base64.urlsafe_b64encode.
  induction s as [|x|x y|x y z r IH] using string_ind3; intros bin.
  - rewrite append_nil_r. reflexivity.
  - pose proof (N_ascii_bounded x) as Ha.
    set (a := N_of_ascii x) in *.
    assert (a / 4 < 64 /\ (a mod 4) * 16 < 64 /\
            ((a / 4) * 4 + ((a mod 4) * 16) / 16) mod 256 = a)%N
      as (H1 & H2 & Ea)
      by (repeat split; zify; Z.to_euclidean_division_equations; lia).
    destruct (alphabet_facts _ H1) as (P1 & Q1 & T1 & V1).
    destruct (alphabet_facts _ H2) as (P2 & Q2 & T2 & V2).
    cbn [Base64.b64encode Base64.translate]. fold a.
    rewrite (rstrip_pad_cons _ _ Q1), (rstrip_pad_cons _ _ Q2).
    change (rstrip_pad
              (String (Base64.urlsafe_encode_char Base64.BASE64_PAD)
                 (String (Base64.urlsafe_encode_char Base64.BASE64_PAD)
                    EmptyString))) with EmptyString.
    cbn [String.length Nat.modulo Nat.divmod fst snd Nat.sub pad_string
         String.append Base64.translate].
    rewrite T1, T2.
    rewrite (a2b_loop_data _ _ _ _ _ _ _ P1 V1). cbn [N.eqb].
    rewrite (a2b_loop_data _ _ _ _ _ _ _ P2 V2). cbn [N.eqb Pos.eqb].
    destruct (bits_facts _ _ H1 H2) as (B1 & _ & _).
    rewrite B1, Ea. unfold a. rewrite ascii_N_embedding. reflexivity.
  - pose proof (N_ascii_bounded x) as Ha. pose proof (N_ascii_bounded y) as Hb.
    set (a := N_of_ascii x) in *. set (b := N_of_ascii y) in *.
    assert (a / 4 < 64 /\ (a mod 4) * 16 + b / 16 < 64 /\
            (b mod 16) * 4 < 64 /\
            ((a / 4) * 4 + ((a mod 4) * 16 + b / 16) / 16) mod 256 = a /\
            ((((a mod 4) * 16 + b / 16) mod 16) * 16
               + ((b mod 16) * 4) / 4) mod 256 = b)%N
      as (H1 & H2 & H3 & Ea & Eb)
      by (repeat split; zify; Z.to_euclidean_division_equations; lia).
    destruct (alphabet_facts _ H1) as (P1 & Q1 & T1 & V1).
    destruct (alphabet_facts _ H2) as (P2 & Q2 & T2 & V2).
    destruct (alphabet_facts _ H3) as (P3 & Q3 & T3 & V3).
    cbn [Base64.b64encode Base64.translate]. fold a b.
    rewrite (rstrip_pad_cons _ _ Q1), (rstrip_pad_cons _ _ Q2),
      (rstrip_pad_cons _ _ Q3).
    change (rstrip_pad
              (String (Base64.urlsafe_encode_char Base64.BASE64_PAD)
                 EmptyString)) with EmptyString.
    cbn [String.length Nat.modulo Nat.divmod fst snd Nat.sub pad_string
         String.append Base64.translate].
    rewrite T1, T2, T3.
    rewrite (a2b_loop_data _ _ _ _ _ _ _ P1 V1). cbn [N.eqb].
    rewrite (a2b_loop_data _ _ _ _ _ _ _ P2 V2). cbn [N.eqb Pos.eqb].
    rewrite (a2b_loop_data _ _ _ _ _ _ _ P3 V3). cbn [N.eqb Pos.eqb].
    destruct (bits_facts _ _ H1 H2) as (B1 & _ & _).
    destruct (bits_facts _ _ H2 H3) as (_ & B2 & _).
    rewrite B1, B2, Ea, Eb. unfold a, b.
    rewrite !ascii_N_embedding, !append_assoc. reflexivity.
  - pose proof (N_ascii_bounded x) as Ha. pose proof (N_ascii_bounded y) as Hb.
    pose proof (N_ascii_bounded z) as Hc.
    destruct (sextets _ _ _ Ha Hb Hc) as (H1 & H2 & H3 & H4 & _).
    destruct (alphabet_facts _ H1) as (_ & Q1 & _).
    destruct (alphabet_facts _ H2) as (_ & Q2 & _).
    destruct (alphabet_facts _ H3) as (_ & Q3 & _).
    destruct (alphabet_facts _ H4) as (_ & Q4 & _).
    cbn [Base64.b64encode Base64.translate].
    rewrite (rstrip_pad_cons _ _ Q1), (rstrip_pad_cons _ _ Q2),
      (rstrip_pad_cons _ _ Q3), (rstrip_pad_cons _ _ Q4).
    cbn [String.length]. rewrite mod4_step.
    cbn [String.append Base64.translate].
    rewrite (a2b_loop_quad x y z). rewrite IH, append_assoc. reflexivity.
Qed.

(** ** C10: the referral link round trip *)

Lemma decode_ascii_id (s : string) :
  all_chars (fun c => (N_of_ascii c <? 128)%N) s = true ->
  decode_ascii s = Some s.
Proof.
  induction s as [|c s IH]; simpl; [reflexivity|].
  intros H. apply andb_true_iff in H. destruct H as [-> Hs].
  rewrite (IH Hs). reflexivity.
Qed.

Lemma str_of_nonneg_digits (n : Z) :
  0 <= n -> all_chars is_digit (str_of_nonneg n) = true.
Proof. intros H. apply digits_of_all_digits; [exact H | reflexivity]. Qed.

Lemma str_of_int_ascii (n : Z) :
  all_chars (fun c => (N_of_ascii c <? 128)%N) (str_of_int n) = true.
Proof.
  assert (forall m, 0 <= m ->
            all_chars (fun c => (N_of_ascii c <? 128)%N) (str_of_nonneg m)
            = true) as H.
  { intros m Hm. eapply all_chars_impl; [|apply str_of_nonneg_digits; exact Hm].
    intros c Hc. apply (is_digit_facts c Hc). }
  unfold str_of_int. destruct (Z.ltb_spec n 0).
  - cbn [all_chars]. rewrite H by lia. reflexivity.
  - apply H. assumption.
Qed.

Lemma prefix_append (p s : string) : String.prefix p (String.append p s) = true.
Proof.
  induction p as [|a p IH]; simpl; [destruct s; reflexivity|].
  destruct (ascii_dec a a); [exact IH | contradiction].
Qed.

Lemma extract_referrer_id_of_encoding (s : string) :
  extract_referrer_id
    (String.append "ref_" (rstrip_pad (Base64.urlsafe_b64encode s)))
  = match decode_ascii s with
    | Some decoded => int_of_str decoded
    | None => None
    end.
Proof.
  unfold extract_referrer_id. rewrite prefix_append.
  cbn [String.append String.length Nat.eqb orb negb drop].
  unfold Base64.urlsafe_b64decode, Base64.a2b_base64.
  rewrite urlsafe_roundtrip_from. reflexivity.
Qed.

Lemma split_on_no_sep (sep : ascii) (s : string) :
  all_chars (fun c => negb (Ascii.eqb c sep)) s = true ->
  split_on sep s = [s].
Proof.
  induction s as [|c s IH]; simpl; [reflexivity|].
  intros H. apply andb_true_iff in H. destruct H as [Hc Hs].
  apply negb_true_iff in Hc. rewrite Hc, (IH Hs). reflexivity.
Qed.

Lemma split_on_tail (sep : ascii) (pre s : string) :
  all_chars (fun c => negb (Ascii.eqb c sep)) s = true ->
  exists h t,
    split_on sep (String.append pre (String sep s)) = h :: t /\
    t <> [] /\ last t EmptyString = s.
Proof.
  intros Hs. induction pre as [|c pre IH].
  - cbn [String.append split_on]. rewrite Ascii.eqb_refl.
    rewrite (split_on_no_sep _ _ Hs).
    exists EmptyString, [s]. repeat split. discriminate.
  - destruct IH as (h & t & E & Hne & Hl).
    cbn [String.append split_on]. rewrite E.
    destruct (Ascii.eqb c sep).
    + exists EmptyString, (h :: t). repeat split; [discriminate|].
      destruct t; [contradiction | exact Hl].
    + exists (String c h), t. auto.
Qed.

Lemma last_split_on (sep : ascii) (pre s : string) :
  all_chars (fun c => negb (Ascii.eqb c sep)) s = true ->
  last (split_on sep (String.append pre (String sep s))) EmptyString = s.
Proof.
  intros Hs. destruct (split_on_tail sep pre s Hs) as (h & t & -> & Hne & Hl).
  destruct t; [contradiction | exact Hl].
Qed.

Lemma alphabet_urlsafe (v : N) :
  (v < 64)%N ->
  is_start_param_char (Base64.urlsafe_encode_char (Base64.b2a v)) = true.
Proof.
  intros H.
  assert (forallb alphabet_urlsafe_check range64 = true) as Hall
    by (vm_compute; reflexivity).
  rewrite forallb_forall in Hall. exact (Hall v (in_range64 v H)).
Qed.

(** The stripped encoding consists of letters, digits, [_] and [-]. *)
Lemma stripped_encoding_chars (s : string) :
  all_chars is_start_param_char (rstrip_pad (Base64.urlsafe_b64encode s)) = true.
Proof.
  unfold Base64.urlsafe_b64encode.
  induction s as [|x|x y|x y z r IH] using string_ind3.
  - reflexivity.
  - pose proof (N_ascii_bounded x) as Ha.
    set (a := N_of_ascii x) in *.
    assert (a / 4 < 64 /\ (a mod 4) * 16 < 64)%N as (H1 & H2)
      by (split; zify; Z.to_euclidean_division_equations; lia).
    destruct (alphabet_facts _ H1) as (_ & Q1 & _).
    destruct (alphabet_facts _ H2) as (_ & Q2 & _).
    cbn [Base64.b64encode Base64.translate]. fold a.
    rewrite (rstrip_pad_cons _ _ Q1), (rstrip_pad_cons _ _ Q2).
    change (rstrip_pad
              (String (Base64.urlsafe_encode_char Base64.BASE64_PAD)
                 (String (Base64.urlsafe_encode_char Base64.BASE64_PAD)
                    EmptyString))) with EmptyString.
    cbn [all_chars]. rewrite !alphabet_urlsafe by assumption. reflexivity.
  - pose proof (N_ascii_bounded x) as Ha. pose proof (N_ascii_bounded y) as Hb.
    set (a := N_of_ascii x) in *. set (b := N_of_ascii y) in *.
    assert (a / 4 < 64 /\ (a mod 4) * 16 + b / 16 < 64 /\
            (b mod 16) * 4 < 64)%N as (H1 & H2 & H3)
      by (repeat split; zify; Z.to_euclidean_division_equations; lia).
    destruct (alphabet_facts _ H1) as (_ & Q1 & _).
    destruct (alphabet_facts _ H2) as (_ & Q2 & _).
    destruct (alphabet_facts _ H3) as (_ & Q3 & _).
    cbn [Base64.b64encode Base64.translate]. fold a b.
    rewrite (rstrip_pad_cons _ _ Q1), (rstrip_pad_cons _ _ Q2),
      (rstrip_pad_cons _ _ Q3).
    change (rstrip_pad
              (String (Base64.urlsafe_encode_char Base64.BASE64_PAD)
                 EmptyString)) with EmptyString.
    cbn [all_chars]. rewrite !alphabet_urlsafe by assumption. reflexivity.
  - pose proof (N_ascii_bounded x) as Ha. pose proof (N_ascii_bounded y) as Hb.
    pose proof (N_ascii_bounded z) as Hc.
    destruct (sextets _ _ _ Ha Hb Hc) as (H1 & H2 & H3 & H4 & _).
    destruct (alphabet_facts _ H1) as (_ & Q1 & _).
    destruct (alphabet_facts _ H2) as (_ & Q2 & _).
    destruct (alphabet_facts _ H3) as (_ & Q3 & _).
    destruct (alphabet_facts _ H4) as (_ & Q4 & _).
    cbn [Base64.b64encode Base64.translate].
    rewrite (rstrip_pad_cons _ _ Q1), (rstrip_pad_cons _ _ Q2),
      (rstrip_pad_cons _ _ Q3), (rstrip_pad_cons _ _ Q4).
    cbn [all_chars]. rewrite !alphabet_urlsafe by assumption.
    rewrite IH. reflexivity.
Qed.

Lemma start_param_char_not_pad (c : ascii) :
  is_start_param_char c = true -> negb (Ascii.eqb c (ascii_of_N 61)) = true.
Proof.
  intros H. apply negb_true_iff, Ascii.eqb_neq. intros ->.
  vm_compute in H. discriminate.
Qed.

(** C10.  For every user id and every bot name, the value of the [start]
    parameter that ends [generate_ref_link bot uid] is [ref_] followed by
    the stripped URL-safe encoding of the decimal id, and
    [extract_referrer_id] maps it back to the id - whatever the number of
    digits, so also when the stripped encoding has a length divisible by 4
    and four padding characters are appended before decoding. *)
Theorem referral_link_roundtrip (bot_username : string) (uid : Z) :
  link_start_value (generate_ref_link bot_username uid) = ref_start_param uid /\
  extract_referrer_id (ref_start_param uid) = Some uid.
Proof.
  split.
  - unfold link_start_value, generate_ref_link.
    change (String.append "?start=" (ref_start_param uid))
      with (String.append "?start" (String (ascii_of_N 61) (ref_start_param uid))).
    rewrite <- !append_assoc. apply last_split_on.
    unfold ref_start_param. cbn [String.append all_chars].
    eapply all_chars_impl;
      [apply start_param_char_not_pad | apply stripped_encoding_chars].
  - unfold ref_start_param. rewrite extract_referrer_id_of_encoding.
    rewrite (decode_ascii_id _ (str_of_int_ascii uid)).
    apply int_of_str_of_int.
Qed.

(** ** C9: the price in Stars and in crypto *)

Lemma all_from_spec (p : Z -> bool) (n : nat) :
  forall a, all_from p a n = true ->
            forall z, a <= z < a + Z.of_nat n -> p z = true.
Proof.
  induction n as [|n IH]; intros a H z Hz; [lia|].
  cbn [all_from] in H. apply andb_true_iff in H. destruct H as [Ha Hrest].
  destruct (Z.eq_dec z a) as [->|Hne]; [exact Ha|].
  apply (IH (a + 1) Hrest). lia.
Qed.

Lemma price_range_checked :
  all_from price_checked 0 (Z.to_nat (price_bound + 1)) = true.
Proof. vm_compute. reflexivity. Qed.

Lemma price_checked_in_range (amount : Z) :
  0 <= amount <= price_bound -> price_checked amount = true.
Proof.
  intros H. apply (all_from_spec _ _ 0 price_range_checked).
  rewrite Z2Nat.id; unfold price_bound in *; lia.
Qed.

Lemma format_6f_nonneg (x : PrimFloat.float) (u : Z) :
  Pricing.nonneg_millionths x = Some u ->
  PyFloat.format_6f x = PyFloat.render6 false u.
Proof.
  unfold Pricing.nonneg_millionths, PyFloat.format_6f.
  destruct (FloatOps.Prim2SF x) as [[|]|[|]| |[|] m e]; try discriminate;
    intros H; inversion H; reflexivity.
Qed.

Lemma crypto_rates_listed (asset : string) (rate : Z) :
  Pricing.crypto_rates asset = Some rate -> In rate [60000; 30000; 1].
Proof.
  unfold Pricing.crypto_rates.
  destruct (String.eqb asset "BTC"); [intros H; inversion H; simpl; auto|].
  destruct (String.eqb asset "ETH"); [intros H; inversion H; simpl; auto|].
  destruct (String.eqb asset "USDT"); [intros H; inversion H; simpl; auto|].
  discriminate.
Qed.

Lemma bot_call_accepted (env : Env) (e : bool -> Event) (w : World) :
  env_bot_ok env (tick w) = true ->
  bot_call env e w
  = (Ok tt, mkWorld (db w) (S (tick w)) (e true :: log w)).
Proof. intros H. unfold bot_call. rewrite H. reflexivity. Qed.

Lemma nonempty_some (s : string) :
  s <> EmptyString -> nonempty (Some s) = Some s.
Proof. destruct s; [contradiction | reflexivity]. Qed.

(** What the checks say of one price and one listed rate. *)
Lemma crypto_checked_spec (amount rate : Z) :
  crypto_checked amount rate = true ->
  exists usd c c' u,
    Pricing.amount_usd amount = Some usd /\
    Pricing.amount_crypto usd rate = Some c /\
    Pricing.amount_crypto_as_specified amount rate = Some c' /\
    PyFloat.format_6f c = PyFloat.render6 false u /\
    PyFloat.format_6f c' = PyFloat.render6 false u /\
    2 * Z.abs (u * (75 * rate) - amount * 1000000) < 75 * rate.
Proof.
  unfold crypto_checked.
  destruct (Pricing.amount_usd amount) as [usd|] eqn:Husd; [|discriminate].
  destruct (Pricing.amount_crypto usd rate) as [c|] eqn:Hc; [|discriminate].
  destruct (Pricing.amount_crypto_as_specified amount rate) as [c'|] eqn:Hc';
    [|discriminate].
  destruct (Pricing.nonneg_millionths c) as [u|] eqn:Hu; [|discriminate].
  destruct (Pricing.nonneg_millionths c') as [u'|] eqn:Hu'; [|discriminate].
  intros H. apply andb_true_iff in H. destruct H as [Hnear Heq].
  apply Z.ltb_lt in Hnear. apply Z.eqb_eq in Heq. subst u'.
  exists usd, c, c', u.
  split; [reflexivity|]. split; [exact Hc|]. split; [reflexivity|].
  split; [apply format_6f_nonneg; exact Hu|].
  split; [apply format_6f_nonneg; exact Hu'|]. exact Hnear.
Qed.



(** * Further properties of the ledger store and of the handlers *)

(** ** Subscriptions *)

Lemma lastrowid_fresh (ids : list Z) (x : Z) : In x ids -> x < lastrowid ids.
Proof.
  unfold lastrowid. induction ids as [|a ids IH]; cbn [fold_right In]; [tauto|].
  intros [->|H]; [lia | specialize (IH H); lia].
Qed.

Lemma lastrowid_positive (ids : list Z) : 0 < lastrowid ids.
Proof.
  unfold lastrowid. induction ids as [|a ids IH]; cbn [fold_right]; lia.
Qed.

Lemma max_end_row_none (l : list Subscription) : max_end_row l = None -> l = [].
Proof.
  destruct l as [|r l]; simpl; [reflexivity|].
  destruct (max_end_row l); [destruct (_ <? _)|]; discriminate.
Qed.

Lemma select_latest_active_none (uid : Z) (subs : list Subscription) :
  (forall s, In s subs -> sub_user_id s = uid -> sub_status s <> active) ->
  select_latest_active uid subs = None.
Proof.
  intros H. unfold select_latest_active.
  destruct (max_end_row (filter (is_active_of uid) subs)) as [m|] eqn:E;
    [|reflexivity].
  apply max_end_row_in, filter_In in E. destruct E as [Hin Hact].
  unfold is_active_of in Hact. apply andb_true_iff in Hact.
  destruct Hact as [Hu Hs]. apply Z.eqb_eq in Hu. apply status_eqb_eq in Hs.
  exfalso. exact (H m Hin Hu Hs).
Qed.

(** X1.  For a user none of whose subscription rows is active - a new user,
    or one whose rows the sweep has expired - [add_subscription] inserts a
    row instead of reviving an old one: the row is active, runs from the
    time read on entry for [days] days, gets an id no other row has, and all
    earlier rows stay as they were. *)
Theorem add_subscription_inserts_when_none_active
        (env : Env) (w : World) (uid days : Z) :
  (forall s, In s (subscriptions (db w)) -> sub_user_id s = uid ->
             sub_status s <> active) ->
  exists sid start w',
    add_subscription env uid days w = (Ok sid, w') /\
    subscriptions (db w')
    = subscriptions (db w)
        ++ [mkSubscription sid uid start
                           (env_now env (tick w) + timedelta days) active] /\
    0 < sid /\
    (forall s, In s (subscriptions (db w)) -> subscription_id s <> sid).
Proof.
  intros Hnone.
  unfold add_subscription, bind, now, sql_now, get_db, put_db, ret; simpl.
  rewrite (select_latest_active_none _ _ Hnone); simpl.
  do 3 eexists. split; [reflexivity|]. simpl. split; [reflexivity|].
  split; [apply lastrowid_positive|].
  intros s Hs E.
  pose proof (lastrowid_fresh (map subscription_id (subscriptions (db w)))
                (subscription_id s) (in_map _ _ _ Hs)). lia.
Qed.

Lemma add_subscription_inserts_when_none_active_witness :
  exists sid start w',
    add_subscription demo_env 8 30 (demo_world 1010) = (Ok sid, w') /\
    subscriptions (db w')
    = subscriptions (db (demo_world 1010))
        ++ [mkSubscription sid 8 start
                           (env_now demo_env 0 + timedelta 30) active].
Proof.
  destruct (add_subscription_inserts_when_none_active demo_env
              (demo_world 1010) 8 30) as (sid & start & w' & H1 & H2 & _).
  - intros s [<-|[]] Hu. simpl in Hu. discriminate.
  - exists sid, start, w'. split; assumption.
Defined.

(** X2.  When the clock does not run backwards between the two readings of
    a call, [add_subscription] returns the id of an active row of the user
    that ends no earlier than [days] days after the time read on entry -
    whether it stacked, restarted or inserted. *)
Theorem add_subscription_grants_at_least_days
        (env : Env) (w : World) (uid days : Z) :
  env_now env (tick w) <= env_now env (S (tick w)) ->
  exists sid w' s,
    add_subscription env uid days w = (Ok sid, w') /\
    In s (subscriptions (db w')) /\
    subscription_id s = sid /\ sub_user_id s = uid /\ sub_status s = active /\
    env_now env (tick w) + timedelta days <= end_date s.
Proof.
  intros Hclock.
  unfold add_subscription, bind, now, sql_now, get_db, put_db, ret; simpl.
  destruct (select_latest_active uid (subscriptions (db w))) as [r|] eqn:E;
    simpl.
  - destruct (select_latest_active_spec _ _ _ E) as (Hin & Hu & Hs & _).
    eexists. eexists.
    exists (set_end_date r
              (if end_date r <? env_now env (S (tick w))
               then env_now env (tick w) + timedelta days
               else end_date r + timedelta days)).
    split; [reflexivity|]. simpl. split.
    + apply in_map_iff. exists r. rewrite Z.eqb_refl. auto.
    + repeat split; auto.
      destruct (Z.ltb_spec (end_date r) (env_now env (S (tick w)))); lia.
  - eexists. eexists.
    exists (mkSubscription
              (lastrowid (map subscription_id (subscriptions (db w)))) uid
              (env_sql_now env (S (tick w)))
              (env_now env (tick w) + timedelta days) active).
    split; [reflexivity|]. simpl. split.
    + apply in_or_app. right. left. reflexivity.
    + repeat split. lia.
Qed.

Lemma add_subscription_grants_at_least_days_witness :
  exists sid w' s,
    add_subscription demo_env 7 30 (demo_world 990) = (Ok sid, w') /\
    In s (subscriptions (db w')) /\
    env_now demo_env 0 + timedelta 30 <= end_date s.
Proof.
  destruct (add_subscription_grants_at_least_days demo_env (demo_world 990) 7 30)
    as (sid & w' & s & H1 & H2 & _ & _ & _ & H3).
  - vm_compute. discriminate.
  - exists sid, w', s. repeat split; assumption.
Defined.

(** ** Payments *)

Lemma find_app_fresh {A : Type} (f : A -> bool) (l : list A) (x : A) :
  (forall y, In y l -> f y = false) -> f x = true ->
  find f (l ++ [x]) = Some x.
Proof.
  intros Hl Hx. induction l as [|a l IH]; simpl.
  - rewrite Hx. reflexivity.
  - rewrite (Hl a (or_introl eq_refl)). apply IH.
    intros y Hy. apply Hl. right. exact Hy.
Qed.

(** X3.  A payment just created is found again under the id that
    [create_payment] returned: pending, unconfirmed, with the user, amount,
    product and method given; the id is positive and new, and the rows
    already there are unchanged. *)
Theorem create_payment_then_get_payment
        (env : Env) (w : World) (uid amt : Z) (product method : string) :
  exists pid created w',
    create_payment env uid amt product method w = (Ok pid, w') /\
    get_payment pid w'
    = (Ok (Some (mkPayment pid uid amt product method pending created None)),
       w') /\
    0 < pid /\
    (forall p, In p (payments (db w)) -> payment_id p <> pid) /\
    payments (db w')
    = payments (db w)
        ++ [mkPayment pid uid amt product method pending created None].
Proof.
  unfold create_payment, get_payment, bind, sql_now, get_db, put_db, ret;
    simpl.
  do 3 eexists. split; [reflexivity|]. simpl.
  assert (forall p, In p (payments (db w)) ->
            payment_id p <> lastrowid (map payment_id (payments (db w))))
    as Hfresh.
  { intros p Hp E.
    pose proof (lastrowid_fresh (map payment_id (payments (db w)))
                  (payment_id p) (in_map _ _ _ Hp)). lia. }
  split; [|split; [apply lastrowid_positive | split; [exact Hfresh | reflexivity]]].
  rewrite find_app_fresh; [reflexivity | | simpl; apply Z.eqb_refl].
  intros p Hp. apply Z.eqb_neq. apply Hfresh. exact Hp.
Qed.

Lemma create_payment_then_get_payment_witness :
  exists pid w',
    create_payment demo_env 7 1000 "club" "card" (demo_world 1010)
    = (Ok pid, w') /\ 0 < pid.
Proof.
  destruct (create_payment_then_get_payment demo_env (demo_world 1010)
              7 1000 "club" "card") as (pid & created & w' & H & _ & Hp & _).
  exists pid, w'. split; [exact H | exact Hp].
Defined.

Lemma map_unchanged {A : Type} (g : A -> bool) (f : A -> A) (l : list A) :
  (forall x, In x l -> g x = false) ->
  map (fun x => if g x then f x else x) l = l.
Proof.
  induction l as [|a l IH]; simpl; intros H; [reflexivity|].
  rewrite (H a (or_introl eq_refl)), IH; [reflexivity|].
  intros x Hx. apply H. right. exact Hx.
Qed.

(** X4.  [confirm_payment] with an id that no payment has reports success
    all the same and leaves every table as it was: the store itself has no
    "not found". *)
Theorem confirm_payment_unknown_id
        (env : Env) (w : World) (pid : Z) :
  (forall p, In p (payments (db w)) -> payment_id p <> pid) ->
  fst (confirm_payment env pid w) = Ok true /\
  db (snd (confirm_payment env pid w)) = db w.
Proof.
  intros H. unfold confirm_payment, bind, now, get_db, put_db, ret; simpl.
  split; [reflexivity|].
  rewrite (map_unchanged (fun p => payment_id p =? pid)).
  - destruct (db w); reflexivity.
  - intros p Hp. apply Z.eqb_neq. apply H. exact Hp.
Qed.

Lemma confirm_payment_unknown_id_witness :
  db (snd (confirm_payment demo_env 42 demo_confirmed_world))
  = db demo_confirmed_world.
Proof.
  refine (proj2 (confirm_payment_unknown_id demo_env demo_confirmed_world 42 _)).
  intros p [<-|[]]. vm_compute. discriminate.
Defined.

(** ** The [/confirm_payment] command *)

Lemma existsb_eqb_in (x : Z) (l : list Z) :
  existsb (Z.eqb x) l = true <-> In x l.
Proof.
  rewrite existsb_exists. split.
  - intros (y & Hy & E). apply Z.eqb_eq in E. subst. exact Hy.
  - intros H. exists x. split; [exact H | apply Z.eqb_refl].
Qed.



Lemma keeps_db_try {A : Type} (c : M A) (h : exn -> M A) :
  keeps_db c -> (forall e, keeps_db (h e)) -> keeps_db (try_except c h).
Proof.
  intros Hc Hh w. unfold try_except. specialize (Hc w).
  destruct (c w) as [[a|e] w1]; simpl in *; [exact Hc|].
  rewrite Hh. exact Hc.
Qed.

Lemma keeps_db_ret {A : Type} (a : A) : keeps_db (ret a).
Proof. intros w; reflexivity. Qed.

(** The database after the fulfilment branch: the subscription is granted
    for the club, and no notification failure takes it back. *)
Lemma notify_customer_db (env : Env) (config : Config) (customer : Z)
      (product : string) (w : World) :
  fst (notify_customer env config customer product w) = Ok tt /\
  db (snd (notify_customer env config customer product w))
  = if String.eqb product "club"
    then db (exec (add_subscription env customer 30) w)
    else db w.
Proof.
  unfold notify_customer.
  destruct (String.eqb_spec product "club") as [->|Hne].
  - change (info_days (get_payment_description config "club")) with 30.
    destruct (add_subscription_ok env customer 30 w) as (sid & w1 & Hadd).
    rewrite (bind_run _ _ _ _ _ Hadd). unfold exec. rewrite Hadd.
    apply (quiet_notice env customer MsgPaymentConfirmedClub).
  - apply (quiet_notice env customer (MsgPaymentConfirmedOther product)).
Qed.

(** X6.  When an administrator confirms an existing, unconfirmed payment,
    the payment is confirmed and, for the club, the customer's subscription
    is extended by 30 days - whether or not the messages to the customer and
    to the administrator can be delivered. *)
Theorem confirm_command_confirms_and_fulfils
        (env : Env) (config : Config) (w : World) (sender pid : Z)
        (cmd arg : string) (p : Payment) :
  In sender (admin_ids config) ->
  int_of_str arg = Some pid ->
  find (fun q => payment_id q =? pid) (payments (db w)) = Some p ->
  pay_status p <> confirmed ->
  let w' := exec (club_cmd_confirm_payment env config sender [cmd; arg]) w in
  let w1 := exec (confirm_payment env pid) w in
  db w' = if String.eqb (product_type p) "club"
          then db (exec (add_subscription env (pay_user_id p) 30) w1)
          else db w1.
Proof.
  intros Hadm Harg Hfind Hst. cbv zeta.
  unfold exec at 1, club_cmd_confirm_payment.
  apply existsb_eqb_in in Hadm. rewrite Hadm, Harg. cbn [negb].
  rewrite (bind_run _ _ w w (Some p))
    by (unfold get_payment, bind, get_db, ret; simpl; rewrite Hfind;
        reflexivity).
  assert (status_eqb (pay_status p) confirmed = false) as ->.
  { destruct (status_eqb (pay_status p) confirmed) eqn:E; [|reflexivity].
    apply status_eqb_eq in E. contradiction. }
  remember (confirm_payment env pid w) as r eqn:Hr.
  assert (exists w1, r = (Ok true, w1)) as (w1 & ->).
  { subst r. unfold confirm_payment, bind, now, get_db, put_db, ret; simpl.
    eauto. }
  rewrite (bind_run _ _ _ _ _ (eq_sym Hr)).
  unfold exec at 2 3. rewrite <- Hr. cbn [snd].
  destruct (notify_customer_db env config (pay_user_id p) (product_type p) w1)
    as [Hok Hdb].
  unfold bind.
  destruct (notify_customer env config (pay_user_id p) (product_type p) w1)
    as [res w2]. cbn [fst snd] in Hok, Hdb. subst res.
  rewrite db_send_message. exact Hdb.
Qed.

Lemma confirm_command_confirms_and_fulfils_witness :
  map pay_status
      (payments
         (db (exec (club_cmd_confirm_payment offline_env demo_config 99
                      ["/confirm_payment"%string; "1"%string])
                   (exec (create_payment offline_env 7 1000 "club" "card")
                         initial_world))))
    = [confirmed] /\
  db (exec (club_cmd_confirm_payment offline_env demo_config 99
              ["/confirm_payment"%string; "1"%string])
           (exec (create_payment offline_env 7 1000 "club" "card")
                 initial_world))
  = db (exec (add_subscription offline_env 7 30)
             (exec (confirm_payment offline_env 1)
                   (exec (create_payment offline_env 7 1000 "club" "card")
                         initial_world))).
Proof.
  split; [reflexivity|].
  apply (confirm_command_confirms_and_fulfils offline_env demo_config
           (exec (create_payment offline_env 7 1000 "club" "card")
                 initial_world)
           99 1 "/confirm_payment" "1"
           (mkPayment 1 7 1000 "club" "card" pending 86400000 None)).
  - left; reflexivity.
  - reflexivity.
  - reflexivity.
  - discriminate.
Defined.

(** X7.  The command of [handlers/admin.py] differs when the customer has a
    row in [users]: [get_user_name] is applied to that row, a dict, and
    raises after the payment was confirmed and before the fulfilment.  The
    payment is then confirmed, and nothing else in the database has
    changed: for the club, no subscription was granted. *)
Theorem admin_confirm_command_stops_before_fulfilment
        (env : Env) (config : Config) (w : World) (sender pid : Z)
        (cmd arg : string) (p : Payment) (u : User) :
  In sender (admin_ids config) ->
  int_of_str arg = Some pid ->
  find (fun q => payment_id q =? pid) (payments (db w)) = Some p ->
  pay_status p <> confirmed ->
  find_user (pay_user_id p) (users (db w)) = Some u ->
  fst (admin_cmd_confirm_payment env config sender [cmd; arg] w)
    = Raise AttributeError /\
  db (exec (admin_cmd_confirm_payment env config sender [cmd; arg]) w)
  = db (exec (confirm_payment env pid) w) /\
  subscriptions (db (exec (admin_cmd_confirm_payment env config sender
                             [cmd; arg]) w))
  = subscriptions (db w).
Proof.
  intros Hadm Harg Hfind Hst Hu.
  unfold exec, admin_cmd_confirm_payment.
  apply existsb_eqb_in in Hadm. rewrite Hadm, Harg. cbn [negb].
  rewrite (bind_run _ _ w w (Some p))
    by (unfold get_payment, bind, get_db, ret; simpl; rewrite Hfind;
        reflexivity).
  assert (status_eqb (pay_status p) confirmed = false) as ->.
  { destruct (status_eqb (pay_status p) confirmed) eqn:E; [|reflexivity].
    apply status_eqb_eq in E. contradiction. }
  unfold confirm_payment, get_user, get_user_name_of_row, raise, bind, now,
    get_db, put_db, ret; simpl.
  rewrite Hu. simpl. auto.
Qed.

Lemma admin_confirm_command_stops_before_fulfilment_witness :
  fst (admin_cmd_confirm_payment demo_env demo_config 99
         ["/confirm_payment"%string; "1"%string]
         (exec (create_payment demo_env 7 1000 "club" "card")
               (demo_world 990)))
  = Raise AttributeError.
Proof.
  refine (proj1 (admin_confirm_command_stops_before_fulfilment demo_env
                   demo_config
                   (exec (create_payment demo_env 7 1000 "club" "card")
                         (demo_world 990))
                   99 1 "/confirm_payment" "1"
                   (mkPayment 1 7 1000 "club" "card" pending 86400000 None)
                   (demo_user 7) _ _ _ _ _));
    try reflexivity; [left; reflexivity | discriminate].
Defined.

(** ** The Stars callback *)

Lemma str_of_int_no_underscore (n : Z) :
  all_chars (fun c => negb (Ascii.eqb c (ascii_of_N 95))) (str_of_int n) = true.
Proof.
  assert (forall c, is_digit c = true ->
            negb (Ascii.eqb c (ascii_of_N 95)) = true) as Hd.
  { intros c Hc. apply negb_true_iff, Ascii.eqb_neq. intros ->.
    vm_compute in Hc. discriminate. }
  unfold str_of_int. destruct (Z.ltb_spec n 0).
  - cbn [all_chars].
    rewrite (all_chars_impl _ _ _ Hd (str_of_nonneg_digits (- n) ltac:(lia))).
    reflexivity.
  - exact (all_chars_impl _ _ _ Hd (str_of_nonneg_digits n ltac:(lia))).
Qed.

(** X8.  The payload that the Stars invoice carries for payment [pid] is
    read back by [successful_payment_handler] as [pid], for every id; and
    for a club payment of that id the handler confirms the payment and
    extends its user's subscription by 30 days, whatever the status the
    payment had and whether or not the answer can be delivered. *)
Theorem stars_payload_roundtrip
        (env : Env) (config : Config) (w : World) (chat pid : Z) :
  String.prefix "payment_" (stars_invoice_payload pid) = true /\
  payload_payment_id (stars_invoice_payload pid) w = (Ok pid, w) /\
  forall p,
    find (fun q => payment_id q =? pid) (payments (db w)) = Some p ->
    product_type p = "club"%string ->
    db (exec (successful_payment_handler env config chat
                (stars_invoice_payload pid)) w)
    = db (exec (add_subscription env (pay_user_id p) 30)
               (exec (confirm_payment env pid) w)).
Proof.
  assert (payload_payment_id (stars_invoice_payload pid) w = (Ok pid, w))
    as Hid.
  { unfold payload_payment_id, stars_invoice_payload.
    cbn [String.append split_on].
    change (Ascii.eqb "p" (ascii_of_N 95)) with false.
    change (Ascii.eqb "a" (ascii_of_N 95)) with false.
    change (Ascii.eqb "y" (ascii_of_N 95)) with false.
    change (Ascii.eqb "m" (ascii_of_N 95)) with false.
    change (Ascii.eqb "e" (ascii_of_N 95)) with false.
    change (Ascii.eqb "n" (ascii_of_N 95)) with false.
    change (Ascii.eqb "t" (ascii_of_N 95)) with false.
    change (Ascii.eqb "_" (ascii_of_N 95)) with true.
    cbv iota. rewrite (split_on_no_sep _ _ (str_of_int_no_underscore pid)).
    rewrite int_of_str_of_int. reflexivity. }
  split; [apply prefix_append|]. split; [exact Hid|].
  intros p Hfind Hclub.
  unfold exec at 1, successful_payment_handler.
  unfold stars_invoice_payload at 1. rewrite prefix_append.
  rewrite (bind_run _ _ _ _ _ Hid).
  rewrite (bind_run _ _ w w (Some p))
    by (unfold get_payment, bind, get_db, ret; simpl; rewrite Hfind;
        reflexivity).
  cbv zeta. rewrite Hclub.
  change (String.eqb "club" "club") with true. cbv iota.
  change (info_days (get_payment_description config "club")) with 30.
  remember (confirm_payment env pid w) as r eqn:Hr.
  assert (exists w1, r = (Ok true, w1)) as (w1 & ->).
  { subst r. unfold confirm_payment, bind, now, get_db, put_db, ret; simpl.
    eauto. }
  rewrite (bind_run _ _ _ _ _ (eq_sym Hr)).
  unfold exec. rewrite <- Hr. cbn [snd].
  destruct (add_subscription_ok env (pay_user_id p) 30 w1)
    as (sid & w2 & Hadd).
  rewrite (bind_run _ _ _ _ _ Hadd), Hadd. reflexivity.
Qed.

Lemma stars_payload_roundtrip_witness :
  let w := exec (create_payment demo_env 7 1000 "club" "stars") initial_world in
  db (exec (successful_payment_handler demo_env demo_config 7
              (stars_invoice_payload 1)) w)
  = db (exec (add_subscription demo_env 7 30)
             (exec (confirm_payment demo_env 1) w)).
Proof.
  exact (proj2 (proj2 (stars_payload_roundtrip demo_env demo_config
                         (exec (create_payment demo_env 7 1000 "club" "stars")
                               initial_world) 7 1))
               (mkPayment 1 7 1000 "club" "stars" pending 86400000 None)
               eq_refl eq_refl).
Defined.

(** ** The poll cycle without its configuration *)

(** X9.  [Config] as [config.py] declares it has no [crypto_pay] section.
    With such a configuration a cycle that finds pending rows stops at the
    attribute lookup, inside its own [try]: it returns normally, asks the
    invoice service nothing, sends nothing and leaves every row as it was,
    whatever the invoices' status. *)
Theorem poll_cycle_without_crypto_pay
        (env : Env) (config : Config) (w : World) :
  crypto_pay config = None ->
  _check_pending_crypto_payments env config w = (Ok tt, w).
Proof.
  intros Hc. unfold _check_pending_crypto_payments, try_except.
  rewrite (bind_run _ _ w w (pending_rows w)) by reflexivity.
  rewrite Hc. destruct (pending_rows w); reflexivity.
Qed.

Lemma poll_cycle_without_crypto_pay_witness :
  _check_pending_crypto_payments demo_env
    (mkConfig [99] (-100500) 1000 1000 2000 1000 7 None) demo_crypto_world
  = (Ok tt, demo_crypto_world).
Proof.
  exact (poll_cycle_without_crypto_pay demo_env
           (mkConfig [99] (-100500) 1000 1000 2000 1000 7 None)
           demo_crypto_world eq_refl).
Defined.

(** ** The expiry sweep and the reminders *)

Lemma only_expires_refl (due : list (Subscription * User)) (w : World) :
  only_expires due w w.
Proof. repeat split. apply Forall2_same. auto. Qed.

Lemma only_expires_trans (due : list (Subscription * User))
      (w1 w2 w3 : World) :
  only_expires due w1 w2 -> only_expires due w2 w3 -> only_expires due w1 w3.
Proof.
  intros (U1 & P1 & C1 & R1 & S1) (U2 & P2 & C2 & R2 & S2).
  repeat split; try congruence.
  eapply Forall2_compose; [|exact S1|exact S2]. simpl.
  intros x y z [->|[-> Hx]] [->|[-> Hy]]; auto.
Qed.

Lemma expire_one_only_expires (env : Env) (config : Config)
      (due : list (Subscription * User)) (su : Subscription * User)
      (w : World) :
  In su due ->
  fst (expire_one env config su w) = Ok tt /\
  only_expires due w (snd (expire_one env config su w)) /\ True.
Proof.
  intros Hin.
  unfold expire_one, try_except, bind, deactivate_subscription,
    kick_user_from_group, try_except, bind, now, ban_chat_member,
    send_message, bot_call, get_db, put_db, ret; simpl.
  assert (Forall2
            (fun s s' =>
               s' = s \/
               (s' = set_sub_status s expired /\
                In (subscription_id s)
                   (map (fun su0 => subscription_id (fst su0)) due)))
            (subscriptions (db w))
            (map (fun s => if subscription_id s =? subscription_id (fst su)
                           then set_sub_status s expired else s)
                 (subscriptions (db w)))) as HF.
  { apply Forall2_map_right. intros s.
    destruct (Z.eqb_spec (subscription_id s) (subscription_id (fst su)));
      [|left; reflexivity].
    right. split; [reflexivity|]. apply in_map_iff. exists su. auto. }
  destruct (env_bot_ok env (S (tick w))); simpl;
    destruct (env_bot_ok env (S (S (tick w)))); simpl;
    repeat split; exact HF.
Qed.

(** X10.  The expiry sweep touches nothing but the state of subscription
    rows: users, payments, crypto payments and referrals are as before, no
    subscription row is added, removed or moved, none changes its user or
    its dates, and the only change a row can undergo is to become [expired]
    - which happens only to rows that have the id of a row the query
    returned as due.  In particular the sweep never revives a row. *)
Theorem expiry_sweep_only_expires
        (env : Env) (config : Config) (w : World) :
  exists due w0,
    get_expired_subscriptions env w = (Ok due, w0) /\
    only_expires due w (exec (_check_expired_subscriptions env config) w).
Proof.
  unfold exec, _check_expired_subscriptions, bind.
  destruct (get_expired_subscriptions env w) as [[due|e] w0] eqn:E.
  - exists due, w0. split; [reflexivity|].
    assert (db w0 = db w) as Hdb.
    { revert E. unfold get_expired_subscriptions, bind, sql_now, get_db, ret.
      simpl. intros E; inversion E; reflexivity. }
    destruct (for_each_each due (expire_one env config) (only_expires due)
                (fun _ _ => True) (only_expires_refl due)
                (only_expires_trans due) (fun _ _ _ _ _ => I)
                (fun su w1 Hsu => expire_one_only_expires env config due su w1 Hsu)
                w0) as (_ & HR & _).
    unfold only_expires in *. rewrite Hdb in HR. exact HR.
  - exfalso. revert E.
    unfold get_expired_subscriptions, bind, sql_now, get_db, ret. simpl.
    discriminate.
Qed.

Lemma quiet_after_query {A : Type} (c : M A) (k : A -> M unit) :
  (forall w, exists a w1, c w = (Ok a, w1) /\ db w1 = db w) ->
  (forall a, quiet (k a)) ->
  quiet (bind c k).
Proof.
  intros Hc Hk w. destruct (Hc w) as (a & w1 & E & Hdb).
  rewrite (bind_run _ _ _ _ _ E). rewrite <- Hdb. apply Hk.
Qed.

(** X11.  The daily notice of subscriptions about to end only talks: it
    returns normally whatever the Bot API does with each message, and it
    writes nothing to the database. *)
Theorem expiring_notice_only_talks (env : Env) (w : World) :
  fst (_check_expiring_subscriptions env w) = Ok tt /\
  db (snd (_check_expiring_subscriptions env w)) = db w.
Proof.
  revert w. change (quiet (_check_expiring_subscriptions env)).
  unfold _check_expiring_subscriptions.
  apply quiet_for_each. intros days. apply quiet_after_query.
  - intros w. unfold get_expiring_subscriptions, bind, now, get_db, ret.
    simpl. eauto.
  - intros expiring. apply quiet_for_each. intros su. apply quiet_notice.
Qed.

(** ** The referral branch of [/start] *)

Lemma keeps_grants_refl (w : World) : keeps_grants w w.
Proof. repeat split. intros s Hs. exists s. auto. Qed.

Lemma keeps_grants_trans (w1 w2 w3 : World) :
  keeps_grants w1 w2 -> keeps_grants w2 w3 -> keeps_grants w1 w3.
Proof.
  intros (U1 & R1 & S1) (U2 & R2 & S2). repeat split; try congruence.
  intros s Hs. destruct (S1 s Hs) as (s1 & H1 & I1 & V1 & T1).
  destruct (S2 s1 H1) as (s2 & H2 & I2 & V2 & T2).
  exists s2. repeat split; congruence.
Qed.

Lemma keeps_grants_same_db (w w' : World) : db w' = db w -> keeps_grants w w'.
Proof. intros H. unfold keeps_grants. rewrite H. apply keeps_grants_refl. Qed.

Lemma respects_kg_add_subscription (env : Env) (uid days : Z) :
  respects keeps_grants (add_subscription env uid days).
Proof.
  intros w.
  destruct (add_subscription_frame env uid days w) as (Hu & _ & _ & Hr & _).
  unfold exec in *. split; [exact Hu|]. split; [exact Hr|]. clear Hu Hr.
  unfold add_subscription, bind, now, sql_now, get_db, put_db, ret; simpl.
  destruct (select_latest_active _ _) as [r|]; simpl; intros s Hs.
  - exists (if subscription_id s =? subscription_id r
            then set_end_date s
                   (if end_date r <? env_now env (S (tick w))
                    then env_now env (tick w) + timedelta days
                    else end_date r + timedelta days)
            else s).
    split.
    + apply in_map_iff. exists s. auto.
    + destruct (subscription_id s =? subscription_id r); auto.
  - exists s. split; [apply in_or_app; left; exact Hs | auto].
Qed.

Lemma respects_kg_check_referrer_bonuses (env : Env) (referrer : Z) :
  respects keeps_grants (check_referrer_bonuses env referrer).
Proof.
  unfold check_referrer_bonuses.
  apply respects_bind; [apply keeps_grants_trans | |].
  { intros w. apply keeps_grants_refl. }
  intros n. apply respects_bind; [apply keeps_grants_trans | |].
  { intros w. apply keeps_grants_refl. }
  intros [u|]; [|apply respects_ret, keeps_grants_refl].
  destruct (n =? 3);
    [intros w; apply keeps_grants_same_db; reflexivity|].
  destruct (n =? 5).
  - apply respects_bind;
      [apply keeps_grants_trans | apply respects_kg_add_subscription|].
    intros _ w. apply keeps_grants_same_db. reflexivity.
  - destruct (n =? 10);
      [intros w; apply keeps_grants_same_db; reflexivity
      | apply respects_ret, keeps_grants_refl].
Qed.

(** The messages and the milestone check that close the referral branch. *)
Lemma respects_kg_referral_tail (env : Env) (config : Config)
      (uid referrer : Z) :
  respects keeps_grants
    (send_message env referrer (MsgReferralReward (points_per_referral config)) ;;
     send_message env uid (MsgReferralWelcome (free_days config)) ;;
     check_referrer_bonuses env referrer)%monad.
Proof.
  apply respects_bind; [apply keeps_grants_trans | |].
  { intros w. apply keeps_grants_same_db. reflexivity. }
  intros _. apply respects_bind; [apply keeps_grants_trans | |].
  { intros w. apply keeps_grants_same_db. reflexivity. }
  intros _. apply respects_kg_check_referrer_bonuses.
Qed.

Lemma add_subscription_leaves_active (env : Env) (uid days : Z) (w : World) :
  exists s, In s (subscriptions (db (exec (add_subscription env uid days) w))) /\
            sub_user_id s = uid /\ sub_status s = active.
Proof.
  unfold exec, add_subscription, bind, now, sql_now, get_db, put_db, ret; simpl.
  destruct (select_latest_active _ _) as [r|] eqn:E; simpl.
  - destruct (select_latest_active_spec _ _ _ E) as (Hin & Hu & Hs & _).
    eexists. split.
    + apply in_map_iff. exists r. split; [reflexivity | exact Hin].
    + rewrite Z.eqb_refl. auto.
  - eexists. split; [apply in_or_app; right; left; reflexivity|]. auto.
Qed.

Lemma length_append (a b : string) :
  String.length (String.append a b) = (String.length a + String.length b)%nat.
Proof. induction a; simpl; auto. Qed.

Lemma extract_referrer_id_start_param (uid : Z) :
  extract_referrer_id (ref_start_param uid) = Some uid.
Proof.
  unfold ref_start_param. rewrite extract_referrer_id_of_encoding.
  rewrite (decode_ascii_id _ (str_of_int_ascii uid)).
  apply int_of_str_of_int.
Qed.

Lemma start_param_recognised (uid : Z) :
  negb (String.length (ref_start_param uid) =? 0)%nat
  && String.prefix "ref_" (ref_start_param uid) = true.
Proof.
  unfold ref_start_param. rewrite prefix_append, length_append.
  reflexivity.
Qed.

Lemma add_referral_fresh (env : Env) (uid referrer : Z) (w : World) :
  (forall e, In e (referrals (db w)) -> ref_user_id e <> uid) ->
  exists t w2,
    add_referral env uid referrer w
    = (Ok (lastrowid (map referral_id (referrals (db w)))), w2) /\
    referrals (db w2)
    = referrals (db w)
      ++ [mkReferral (lastrowid (map referral_id (referrals (db w))))
                     uid referrer t true] /\
    users (db w2) = users (db w) /\
    subscriptions (db w2) = subscriptions (db w).
Proof.
  intros Hnone. unfold add_referral, bind, get_db, put_db, sql_now, ret; simpl.
  destruct (find (fun r => ref_user_id r =? uid) (referrals (db w)))
    as [e|] eqn:E.
  - apply find_some in E. destruct E as [Hin He]. apply Z.eqb_eq in He.
    exfalso. exact (Hnone e Hin He).
  - simpl. eexists. eexists. repeat split.
Qed.

Lemma update_user_balance_run (uid x : Z) (w : World) :
  exists b w3,
    update_user_balance uid x w = (Ok b, w3) /\
    users (db w3)
    = map (fun u => if user_id u =? uid then add_balance u x else u)
          (users (db w)) /\
    referrals (db w3) = referrals (db w) /\
    subscriptions (db w3) = subscriptions (db w).
Proof.
  unfold update_user_balance, bind, get_db, put_db, ret; simpl.
  eexists. eexists. repeat split.
Qed.

Lemma find_user_credit (uid x y : Z) (us : list User) :
  find_user y
    (map (fun u => if user_id u =? uid then add_balance u x else u) us)
  = option_map (fun u => if user_id u =? uid then add_balance u x else u)
               (find_user y us).
Proof.
  apply find_user_map. intros u. destruct (user_id u =? uid); reflexivity.
Qed.

Lemma find_user_id (uid : Z) (us : list User) (u : User) :
  find_user uid us = Some u -> user_id u = uid.
Proof.
  unfold find_user. intros H. apply find_some in H.
  apply Z.eqb_eq. exact (proj2 H).
Qed.

(** X12.  A first [/start] through somebody's referral link - the parameter
    is the one [generate_ref_link] puts in the link of [referrer], who is a
    registered user other than the sender, and the sender has no referral
    edge yet - books the referral whatever the Bot API does afterwards: one
    edge sender -> referrer is appended under a new id, the referrer's
    balance grows by [points_per_referral], everybody else's balance is
    kept, and the sender holds an active subscription. *)
Theorem cmd_start_first_referral
        (env : Env) (config : Config) (w : World) (uid referrer : Z)
        (un fn ln : option string) (cmd : string) (ru : User) :
  referrer <> 0 -> referrer <> uid ->
  find_user referrer (users (db w)) = Some ru ->
  (forall e, In e (referrals (db w)) -> ref_user_id e <> uid) ->
  let w' := exec (cmd_start env config uid un fn ln
                    [cmd; ref_start_param referrer]) w in
  (exists t,
     referrals (db w')
     = referrals (db w)
       ++ [mkReferral (lastrowid (map referral_id (referrals (db w))))
                      uid referrer t true]) /\
  (exists ru', find_user referrer (users (db w')) = Some ru' /\
               balance ru' = balance ru + points_per_referral config) /\
  (forall x u, x <> referrer -> find_user x (users (db w)) = Some u ->
     exists u', find_user x (users (db w')) = Some u' /\
                balance u' = balance u) /\
  (exists s, In s (subscriptions (db w')) /\
             sub_user_id s = uid /\ sub_status s = active).
Proof.
  intros H0 Hself Hru Hnone. cbv zeta.
  remember (exec (cmd_start env config uid un fn ln
                    [cmd; ref_start_param referrer]) w) as W eqn:HW.
  unfold exec, cmd_start in HW. unfold bind at 1 in HW.
  pose proof (add_user_effect env uid un fn ln w) as HA. cbv zeta in HA.
  destruct (add_user env uid un fn ln w) as [r w1]. simpl in HA.
  destruct HA as (-> & _ & _ & _ & HR1 & _ & HU1).
  cbn [List.length Nat.ltb Nat.leb last] in HW.
  rewrite start_param_recognised, extract_referrer_id_start_param in HW.
  apply Z.eqb_neq in H0, Hself. rewrite H0, Hself in HW. cbn [negb andb] in HW.
  destruct (HU1 _ _ Hru) as (ru1 & Hru1 & Hb1).
  rewrite (bind_run _ _ w1 w1 (Some ru1)) in HW
    by (unfold get_user, bind, get_db, ret; rewrite Hru1; reflexivity).
  destruct (add_referral_fresh env uid referrer w1) as (t & w2 & E2 & R2 & U2 & S2).
  { rewrite HR1. exact Hnone. }
  rewrite (bind_run _ _ _ _ _ E2) in HW.
  pose proof (lastrowid_positive (map referral_id (referrals (db w1)))) as Hpos.
  apply Z.ltb_lt in Hpos. rewrite Hpos in HW.
  destruct (update_user_balance_run referrer (points_per_referral config) w2)
    as (b & w3 & E3 & U3 & R3 & S3).
  rewrite (bind_run _ _ _ _ _ E3) in HW.
  destruct (add_subscription_ok env uid (free_days config) w3) as (sid & w4 & E4).
  rewrite (bind_run _ _ _ _ _ E4) in HW.
  pose proof (add_subscription_frame env uid (free_days config) w3) as HF.
  pose proof (add_subscription_leaves_active env uid (free_days config) w3) as HS.
  cbv zeta in HF. unfold exec in HF, HS. rewrite E4 in HF, HS. simpl in HF, HS.
  destruct HF as (U4 & _ & _ & R4 & _).
  destruct (respects_kg_referral_tail env config uid referrer w4)
    as (UT & RT & ST).
  rewrite <- HW in UT, RT, ST. clear HW.
  rewrite UT, RT, U4, R4, U3, R3, U2, R2, HR1.
  split; [exists t; reflexivity|]. split; [|split].
  - rewrite find_user_credit, Hru1. simpl.
    rewrite (find_user_id _ _ _ Hru1), Z.eqb_refl.
    eexists. split; [reflexivity|]. simpl. rewrite Hb1. reflexivity.
  - intros x u Hx Hu. destruct (HU1 _ _ Hu) as (u1 & Hu1 & Hbu).
    rewrite find_user_credit, Hu1. simpl.
    rewrite (find_user_id _ _ _ Hu1).
    apply Z.eqb_neq in Hx. rewrite Hx. eauto.
  - destruct HS as (s & Hin & Hsu & Hst).
    destruct (ST s Hin) as (s' & Hin' & _ & Hu' & Ht').
    exists s'. repeat split; congruence.
Qed.

Lemma cmd_start_first_referral_witness :
  exists ru',
    find_user 7
      (users (db (exec (cmd_start offline_env demo_config 9 None None None
                          ["/start"%string; ref_start_param 7])
                       (demo_world 1010))))
    = Some ru' /\
    balance ru' = balance (demo_user 7) + points_per_referral demo_config.
Proof.
  refine (proj1 (proj2 (cmd_start_first_referral offline_env demo_config
                          (demo_world 1010) 9 7 None None None "/start"
                          (demo_user 7) _ _ eq_refl _))).
  - discriminate.
  - discriminate.
  - intros e [].
Defined.

Lemma find_user_none_add_user (env : Env) (uid x : Z) (un fn ln : option string)
      (w : World) :
  x <> uid -> find_user x (users (db w)) = None ->
  find_user x (users (db (snd (add_user env uid un fn ln w)))) = None.
Proof.
  intros Hx Hnone. unfold add_user, bind, get_db, put_db, sql_now, ret; simpl.
  destruct (find_user uid (users (db w))) as [u0|]; simpl.
  - rewrite find_user_map; [rewrite Hnone; reflexivity|].
    intros u. destruct (user_id u =? uid); reflexivity.
  - unfold find_user in *. clear - Hx Hnone.
    induction (users (db w)) as [|a l IH]; simpl in *.
    + apply Z.eqb_neq in Hx. rewrite Z.eqb_sym, Hx. reflexivity.
    + destruct (user_id a =? x); [discriminate | auto].
Qed.

(** X13.  A [/start] whose parameter is the sender's own link, or the link
    of id 0, or the link of somebody who is not a registered user, books
    nothing: no referral edge, no subscription, and every balance stays. *)
Theorem cmd_start_rejects_bad_referrer
        (env : Env) (config : Config) (w : World) (uid referrer : Z)
        (un fn ln : option string) (cmd : string) :
  referrer = uid \/ referrer = 0 \/
  find_user referrer (users (db w)) = None ->
  let w' := exec (cmd_start env config uid un fn ln
                    [cmd; ref_start_param referrer]) w in
  referrals (db w') = referrals (db w) /\
  subscriptions (db w') = subscriptions (db w) /\
  (forall x u, find_user x (users (db w)) = Some u ->
     exists u', find_user x (users (db w')) = Some u' /\
                balance u' = balance u).
Proof.
  intros Hbad. cbv zeta.
  remember (exec (cmd_start env config uid un fn ln
                    [cmd; ref_start_param referrer]) w) as W eqn:HW.
  unfold exec, cmd_start in HW. unfold bind at 1 in HW.
  pose proof (add_user_effect env uid un fn ln w) as HA.
  pose proof (find_user_none_add_user env uid referrer un fn ln w) as HN.
  cbv zeta in HA.
  destruct (add_user env uid un fn ln w) as [r w1]. simpl in HA, HN.
  destruct HA as (-> & HS1 & _ & _ & HR1 & _ & HU1).
  cbn [List.length Nat.ltb Nat.leb last] in HW.
  rewrite start_param_recognised, extract_referrer_id_start_param in HW.
  assert (db W = db w1) as HD.
  { destruct (Z.eqb_spec referrer 0) as [|H0];
      [cbn [negb andb] in HW; subst W; apply db_send_message|].
    destruct (Z.eqb_spec referrer uid) as [|Hself];
      [cbn [negb andb] in HW; subst W; apply db_send_message|].
    cbn [negb andb] in HW.
    destruct Hbad as [?|[?|Hnone]]; [contradiction | contradiction |].
    rewrite (bind_run _ _ w1 w1 None) in HW
      by (unfold get_user, bind, get_db, ret; rewrite (HN Hself Hnone);
          reflexivity).
    subst W. apply db_send_message. }
  rewrite HD. auto.
Qed.

Lemma cmd_start_rejects_bad_referrer_witness :
  referrals (db (exec (cmd_start demo_env demo_config 7 None None None
                         ["/start"%string; ref_start_param 7])
                      (demo_world 1010)))
  = referrals (db (demo_world 1010)).
Proof.
  exact (proj1 (cmd_start_rejects_bad_referrer demo_env demo_config
                  (demo_world 1010) 7 7 None None None "/start"
                  (or_introl eq_refl))).
Defined.

Lemma NoDup_snoc {A : Type} (l : list A) (x : A) :
  NoDup l -> ~ In x l -> NoDup (l ++ [x]).
Proof.
  intros Hl Hx. induction Hl as [|a l Ha Hl IH]; simpl.
  - constructor; [tauto | constructor].
  - constructor.
    + rewrite in_app_iff. simpl. intros [H|[H|[]]]; [tauto|].
      subst. apply Hx. left. reflexivity.
    + apply IH. intros H. apply Hx. right. exact H.
Qed.

Lemma referral_graph_ok_users (d d' : Database) :
  referrals d' = referrals d ->
  (forall x, registered d x -> registered d' x) ->
  referral_graph_ok d -> referral_graph_ok d'.
Proof.
  intros HR HU [Hn Hf]. unfold referral_graph_ok. rewrite HR.
  split; [exact Hn|]. eapply Forall_impl; [|exact Hf]. simpl.
  intros e (A & B & C & D). auto.
Qed.

Lemma add_user_registers (env : Env) (uid : Z) (un fn ln : option string)
      (w : World) :
  registered (db (snd (add_user env uid un fn ln w))) uid.
Proof.
  unfold registered, add_user, bind, get_db, put_db, sql_now, ret; simpl.
  destruct (find_user uid (users (db w))) as [u0|] eqn:E; simpl.
  - rewrite find_user_map, E; [discriminate|].
    intros u. destruct (user_id u =? uid); reflexivity.
  - unfold find_user in *. rewrite find_app_fresh; [discriminate | |].
    + intros y Hy. destruct (user_id y =? uid) eqn:Ey; [|reflexivity].
      exfalso. destruct (find_some_in (fun u => user_id u =? uid) _ y Hy Ey)
        as [z Hz]. congruence.
    + simpl. apply Z.eqb_refl.
Qed.

(** X14.  [/start] keeps the referral graph well formed, whatever the text
    of the message and whatever the Bot API does: at most one edge per
    invitee, no edge from a user to themselves or from the id 0, and both
    ends of every edge registered. *)
Theorem cmd_start_keeps_referral_graph
        (env : Env) (config : Config) (w : World) (uid : Z)
        (un fn ln : option string) (words : list string) :
  referral_graph_ok (db w) ->
  referral_graph_ok (db (exec (cmd_start env config uid un fn ln words) w)).
Proof.
  intros Hok.
  remember (exec (cmd_start env config uid un fn ln words) w) as W eqn:HW.
  unfold exec, cmd_start in HW. unfold bind at 1 in HW.
  pose proof (add_user_effect env uid un fn ln w) as HA.
  pose proof (add_user_registers env uid un fn ln w) as Hreg.
  cbv zeta in HA.
  destruct (add_user env uid un fn ln w) as [r w1]. simpl in HA, Hreg.
  destruct HA as (-> & _ & _ & _ & HR1 & _ & HU1).
  assert (referral_graph_ok (db w1)) as Hok1.
  { apply (referral_graph_ok_users (db w)); [exact HR1 | | exact Hok].
    intros x Hx. unfold registered in *.
    destruct (find_user x (users (db w))) as [u|] eqn:E; [|congruence].
    destruct (HU1 _ _ E) as (u' & -> & _). discriminate. }
  clear Hok HR1 HU1.
  assert (db W = db w1 -> referral_graph_ok (db W)) as Hsame.
  { intros ->. exact Hok1. }
  cbv zeta in HW.
  destruct (1 <? List.length words)%nat;
    [|apply Hsame; subst W; apply db_send_message].
  destruct (negb _ && String.prefix _ _);
    [|apply Hsame; subst W; apply db_send_message].
  destruct (extract_referrer_id _) as [referrer|];
    [|apply Hsame; subst W; apply db_send_message].
  destruct (Z.eqb_spec referrer 0) as [|H0];
    [apply Hsame; subst W; apply db_send_message|].
  destruct (Z.eqb_spec referrer uid) as [|Hself];
    [apply Hsame; subst W; apply db_send_message|].
  cbn [negb andb] in HW.
  rewrite (bind_run _ _ w1 w1 (find_user referrer (users (db w1)))) in HW
    by reflexivity.
  destruct (find_user referrer (users (db w1))) as [ru|] eqn:Eru;
    [|apply Hsame; subst W; apply db_send_message].
  destruct (find (fun e => ref_user_id e =? uid) (referrals (db w1)))
    as [e|] eqn:EF.
  - apply find_some in EF. destruct EF as [Hin He]. apply Z.eqb_eq in He.
    rewrite (bind_run _ _ _ _ _ (add_referral_existing env w1 uid referrer e
                                   Hin He)) in HW.
    change (0 <? 0) with false in HW. cbv iota in HW.
    apply Hsame. subst W. apply db_send_message.
  - pose proof (find_none _ _ EF) as Hnone. simpl in Hnone.
    destruct (add_referral_fresh env uid referrer w1)
      as (t & w2 & E2 & R2 & U2 & S2).
    { intros x Hx Hu. specialize (Hnone x Hx). apply Z.eqb_neq in Hnone.
      contradiction. }
    rewrite (bind_run _ _ _ _ _ E2) in HW.
    pose proof (lastrowid_positive (map referral_id (referrals (db w1))))
      as Hpos.
    apply Z.ltb_lt in Hpos. rewrite Hpos in HW.
    destruct (update_user_balance_run referrer (points_per_referral config) w2)
      as (b & w3 & E3 & U3 & R3 & S3).
    rewrite (bind_run _ _ _ _ _ E3) in HW.
    destruct (add_subscription_ok env uid (free_days config) w3)
      as (sid & w4 & E4).
    rewrite (bind_run _ _ _ _ _ E4) in HW.
    pose proof (add_subscription_frame env uid (free_days config) w3) as HF.
    cbv zeta in HF. unfold exec in HF. rewrite E4 in HF. simpl in HF.
    destruct HF as (U4 & _ & _ & R4 & _).
    destruct (respects_kg_referral_tail env config uid referrer w4)
      as (UT & RT & _).
    rewrite <- HW in UT, RT. clear HW.
    assert (forall x, registered (db w1) x -> registered (db W) x) as Hkeep.
    { intros x. unfold registered. rewrite UT, U4, U3, U2, find_user_credit.
      destruct (find_user x (users (db w1))); simpl; congruence. }
    destruct Hok1 as [Hn Hf]. unfold referral_graph_ok.
    rewrite RT, R4, R3, R2, map_app. split.
    + apply NoDup_snoc; [exact Hn|]. simpl. intros Hin.
      apply in_map_iff in Hin. destruct Hin as (x & Hx & Hin).
      specialize (Hnone x Hin). apply Z.eqb_neq in Hnone. contradiction.
    + apply Forall_app. split.
      * eapply Forall_impl; [|exact Hf]. simpl.
        intros x (A & B & C & D). auto.
      * constructor; [|constructor]. simpl. repeat split; auto.
        apply Hkeep. unfold registered. congruence.
Qed.

Lemma cmd_start_keeps_referral_graph_witness :
  referral_graph_ok
    (db (exec (cmd_start demo_env demo_config 9 None None None
                 ["/start"%string; ref_start_param 7])
              demo_referred_world)).
Proof.
  apply cmd_start_keeps_referral_graph.
  split.
  - simpl. constructor; [simpl; tauto | constructor].
  - constructor; [|constructor]. simpl. unfold registered. simpl.
    repeat split; discriminate.
Defined.

(** ** Callback data, phone numbers and the time left ([utils.py]) *)

Lemma split_on_append (sep : ascii) (a b : string) :
  all_chars (fun c => negb (Ascii.eqb c sep)) a = true ->
  split_on sep (String.append a (String sep b)) = a :: split_on sep b.
Proof.
  induction a as [|c a IH]; intros Ha.
  - cbn [String.append split_on]. rewrite Ascii.eqb_refl. reflexivity.
  - cbn [all_chars] in Ha. apply andb_true_iff in Ha. destruct Ha as [Hc Ha].
    apply negb_true_iff in Hc.
    cbn [String.append split_on]. rewrite Hc, (IH Ha). reflexivity.
Qed.

Lemma split_on_join_with (sep : ascii) (parts : list string) :
  parts <> [] ->
  Forall (fun p => all_chars (fun c => negb (Ascii.eqb c sep)) p = true) parts ->
  split_on sep (join_with sep parts) = parts.
Proof.
  induction parts as [|p rest IH]; intros Hne Hall; [contradiction|].
  inversion Hall as [|x xs Hp Hrest]; subst.
  destruct rest as [|q rest].
  - simpl. apply split_on_no_sep. exact Hp.
  - change (join_with sep (p :: q :: rest))
      with (String.append p (String sep (join_with sep (q :: rest)))).
    rewrite (split_on_append _ _ _ Hp), IH; [reflexivity | discriminate | exact Hrest].
Qed.

(** X15.  The callback data that the payment-method keyboard attaches to a
    button is read back by [parse_callback_data] as it was put together:
    action [pay_method], the product, the method, and no id - provided
    neither the product nor the method contains a colon. *)
Theorem pay_method_callback_roundtrip (product method : string) :
  all_chars (fun c => negb (Ascii.eqb c (ascii_of_N 58))) product = true ->
  all_chars (fun c => negb (Ascii.eqb c (ascii_of_N 58))) method = true ->
  parse_callback_data (pay_method_callback product method)
  = mkCallbackData "pay_method" (Some product) (Some method) None.
Proof.
  intros Hp Hm. unfold parse_callback_data, pay_method_callback.
  change (String.append "pay_method:"
            (String.append product (String (ascii_of_N 58) method)))
    with (String.append "pay_method"
            (String (ascii_of_N 58)
               (String.append product (String (ascii_of_N 58) method)))).
  rewrite split_on_append by reflexivity.
  rewrite (split_on_append _ _ _ Hp), (split_on_no_sep _ _ Hm).
  reflexivity.
Qed.

Lemma pay_method_callback_roundtrip_witness :
  parse_callback_data (pay_method_callback "club" "stars")
  = mkCallbackData "pay_method" (Some "club"%string) (Some "stars"%string) None.
Proof.
  exact (pay_method_callback_roundtrip "club" "stars" eq_refl eq_refl).
Defined.

(** X16.  The verdict of [validate_phone_number] depends on the digits of
    the text alone, a digit being what [\d] matches - any decimal digit of
    Unicode: a code point that is not one - a space, a bracket, a plus
    sign, a letter - can be inserted or removed anywhere without changing
    it. *)
Theorem validate_phone_number_ignores_other_chars
        (isdecimal : N -> bool) (a b : code_points) (c : N) :
  isdecimal c = false ->
  validate_phone_number isdecimal (a ++ c :: b)
  = validate_phone_number isdecimal (a ++ b).
Proof.
  intros Hc. unfold validate_phone_number, digits_only.
  rewrite !filter_app. cbn [filter]. rewrite Hc. reflexivity.
Qed.

Lemma validate_phone_number_ignores_other_chars_witness :
  validate_phone_number isdecimal_unicode_14 (code_points_of "+7 9991234567")
  = validate_phone_number isdecimal_unicode_14 (code_points_of "+79991234567")
  /\
  validate_phone_number isdecimal_unicode_14
    (code_points_of "123456789" ++ [1635%N]) = true.
Proof.
  split; [|reflexivity].
  exact (validate_phone_number_ignores_other_chars isdecimal_unicode_14
           (code_points_of "+7") (code_points_of "9991234567") 32%N eq_refl).
Defined.

(** X17.  [format_time_left] never overstates the time left and is off by
    less than its smallest unit: for a date already passed it says so; with
    days it shows [d] days and [h < 24] hours, the time left being at least
    that and less than an hour more; below a day it shows [h] hours and
    [m < 60] minutes, below an hour [m] minutes, the time left being at
    least that and less than a minute more.  (Times in microseconds.) *)
Theorem format_time_left_bounds (env : Env) (end_date0 : datetime) (w : World) :
  let left := end_date0 - env_now env (tick w) in
  let hour := 3600000000 in
  let minute := 60000000 in
  match fst (format_time_left env end_date0 w) with
  | Ok TimeExpired => left < 0
  | Ok (DaysHours d h) =>
      0 < d /\ 0 <= h < 24 /\
      d * (24 * hour) + h * hour <= left < d * (24 * hour) + (h + 1) * hour
  | Ok (HoursMinutes h m) =>
      0 < h < 24 /\ 0 <= m < 60 /\
      h * hour + m * minute <= left < h * hour + (m + 1) * minute
  | Ok (MinutesOnly m) =>
      0 <= m < 60 /\ m * minute <= left < (m + 1) * minute
  | Raise _ => False
  end.
Proof.
  cbv zeta. unfold format_time_left, bind, now, ret. simpl.
  destruct (Z.ltb_spec end_date0 (env_now env (tick w))) as [Hlt|Hge]; simpl;
    [lia|].
  set (delta := end_date0 - env_now env (tick w)).
  assert (0 <= delta) as Hd by (unfold delta; lia).
  clearbody delta.
  destruct (Z.ltb_spec 0 (delta / 86400000000)) as [Hdays|Hdays].
  - split; [exact Hdays|].
    Z.to_euclidean_division_equations. lia.
  - destruct (Z.ltb_spec 0 (delta mod 86400000000 / 1000000 / 3600))
      as [Hh|Hh].
    + Z.to_euclidean_division_equations. lia.
    + Z.to_euclidean_division_equations. lia.
Qed.

(** ** [update_user_balance] and [add_user] *)

Lemma with_users_same (d : Database) : with_users d (users d) = d.
Proof. destruct d; reflexivity. Qed.

(** X18.  [update_user_balance] returns the balance the user has after the
    update: the old balance plus the amount, which is what [get_user] then
    shows.  For an id that no user has it returns 0 and changes nothing.
    Either way nobody else's row is touched. *)
Theorem update_user_balance_result (uid x : Z) (w : World) :
  let r := update_user_balance uid x w in
  match find_user uid (users (db w)) with
  | Some u =>
      fst r = Ok (balance u + x) /\
      fst (get_user uid (snd r)) = Ok (Some (add_balance u x))
  | None => fst r = Ok 0 /\ db (snd r) = db w
  end /\
  forall y, y <> uid ->
    find_user y (users (db (snd r))) = find_user y (users (db w)).
Proof.
  cbv zeta. unfold update_user_balance, get_user, bind, get_db, put_db, ret.
  simpl. rewrite !find_user_credit. split.
  - destruct (find_user uid (users (db w))) as [u|] eqn:E; simpl.
    + rewrite (find_user_id _ _ _ E), Z.eqb_refl. simpl. auto.
    + split; [reflexivity|].
      rewrite map_unchanged; [apply with_users_same|].
      intros u Hu. destruct (user_id u =? uid) eqn:Eu; [|reflexivity].
      destruct (find_some_in (fun v => user_id v =? uid) _ u Hu Eu) as [z Hz].
      unfold find_user in E. congruence.
  - intros y Hy. rewrite find_user_credit.
    destruct (find_user y (users (db w))) as [u|] eqn:E; simpl;
      [|reflexivity].
    rewrite (find_user_id _ _ _ E). apply Z.eqb_neq in Hy. rewrite Hy.
    reflexivity.
Qed.

Lemma update_user_balance_result_witness :
  find_user 8 (users (db (snd (update_user_balance 7 500 (demo_world 1010)))))
  = find_user 8 (users (db (demo_world 1010))).
Proof.
  apply (proj2 (update_user_balance_result 7 500 (demo_world 1010))).
  discriminate.
Defined.

Lemma add_user_db (env : Env) (uid : Z) (un fn ln : option string)
      (w : World) :
  db (snd (add_user env uid un fn ln w))
  = with_users (db w)
      match find_user uid (users (db w)) with
      | Some _ =>
          map (fun u => if user_id u =? uid then set_names u un fn ln else u)
              (users (db w))
      | None =>
          users (db w)
            ++ [mkUser uid un fn ln (env_sql_now env (tick w)) 0 false]
      end.
Proof.
  unfold add_user, bind, get_db, put_db, sql_now, ret. simpl.
  destruct (find_user uid (users (db w))); reflexivity.
Qed.

Lemma with_users_twice (d : Database) (us us' : list User) :
  with_users (with_users d us) us' = with_users d us'.
Proof. reflexivity. Qed.

Lemma users_with_users (d : Database) (us : list User) :
  users (with_users d us) = us.
Proof. reflexivity. Qed.

(** X19.  Registering is idempotent on the database: a second [add_user]
    with the same id and names leaves it as the first one made it - a user
    who sends [/start] again gets no second row and keeps the balance, the
    registration date and the admin flag. *)
Theorem add_user_idempotent
        (env : Env) (uid : Z) (un fn ln : option string) (w : World) :
  db (exec (add_user env uid un fn ln) (exec (add_user env uid un fn ln) w))
  = db (exec (add_user env uid un fn ln) w).
Proof.
  unfold exec. rewrite add_user_db.
  set (w1 := snd (add_user env uid un fn ln w)).
  assert (db w1 = _) as Hw1 by apply add_user_db.
  rewrite Hw1, users_with_users, with_users_twice. f_equal.
  destruct (find_user uid (users (db w))) as [u0|] eqn:E.
  - rewrite find_user_map, E
      by (intros u; destruct (user_id u =? uid); reflexivity).
    simpl. rewrite map_map. apply map_ext. intros u.
    destruct (user_id u =? uid) eqn:Eu; [|rewrite Eu; reflexivity].
    simpl. rewrite Eu. reflexivity.
  - assert (forall y, In y (users (db w)) -> (user_id y =? uid) = false) as Hno.
    { intros y Hy. destruct (user_id y =? uid) eqn:Ey; [|reflexivity].
      destruct (find_some_in (fun v => user_id v =? uid) _ y Hy Ey) as [z Hz].
      unfold find_user in E. congruence. }
    unfold find_user. rewrite find_app_fresh; [|exact Hno|apply Z.eqb_refl].
    rewrite map_app, (map_unchanged _ _ _ Hno). simpl.
    rewrite Z.eqb_refl. reflexivity.
Qed.

(** ** What the payment operations keep of a payment *)

Lemma payment_kept_refl (p : Payment) : payment_kept p p.
Proof. repeat split. Qed.

Lemma payment_kept_trans (p q r : Payment) :
  payment_kept p q -> payment_kept q r -> payment_kept p r.
Proof. unfold payment_kept. intuition congruence. Qed.

Lemma payments_kept_same (w w' : World) :
  Forall2 payment_kept (payments (db w)) (payments (db w')) ->
  payments_kept w w'.
Proof.
  intros H. exists (payments (db w')), []. split; [|exact H].
  symmetry. apply app_nil_r.
Qed.

Lemma payments_kept_eq (w w' : World) :
  payments (db w') = payments (db w) -> payments_kept w w'.
Proof.
  intros H. apply payments_kept_same. rewrite H.
  apply Forall2_same. apply payment_kept_refl.
Qed.

Lemma payments_kept_trans (w1 w2 w3 : World) :
  payments_kept w1 w2 -> payments_kept w2 w3 -> payments_kept w1 w3.
Proof.
  intros (U1 & N1 & E1 & F1) (U2 & N2 & E2 & F2).
  rewrite E1 in F2. apply Forall2_app_inv_l in F2.
  destruct F2 as (Ua & Ub & Fa & Fb & ->).
  exists Ua, (Ub ++ N2). split.
  - rewrite E2. symmetry. apply app_assoc.
  - eapply Forall2_compose; [|exact F1|exact Fa]. apply payment_kept_trans.
Qed.

Lemma Forall2_payment_ids (l l' : list Payment) :
  Forall2 payment_kept l l' -> map payment_id l' = map payment_id l.
Proof.
  intros H. induction H as [|p p' l l' Hp _ IH]; simpl; [reflexivity|].
  rewrite IH, (proj1 Hp). reflexivity.
Qed.

Lemma only_confirms_kept (w w' : World) :
  only_confirms w w' ->
  Forall2 payment_kept (payments (db w)) (payments (db w')).
Proof.
  intros [_ H]. eapply Forall2_impl; [|exact H]. simpl.
  intros p p' [->|[t ->]]; repeat split.
Qed.

Lemma payment_ids_ok_kept (w w' : World) :
  Forall2 payment_kept (payments (db w)) (payments (db w')) ->
  payment_ids_ok w -> payment_ids_ok w'.
Proof.
  intros HF [Hn Hp]. split.
  - rewrite (Forall2_payment_ids _ _ HF). exact Hn.
  - eapply Forall2_Forall_right; [|exact HF|exact Hp]. simpl.
    intros p p' Hpos Hk. rewrite (proj1 Hk). exact Hpos.
Qed.

Lemma run_op_keeps_payments (env : Env) (config : Config) (op : Op)
      (w : World) :
  ledger_inv w -> payment_ids_ok w -> admissible op w = true ->
  payments_kept w (exec (run_op env config op) w) /\
  payment_ids_ok (exec (run_op env config op) w).
Proof.
  intros Hinv Hids Hadm.
  assert (forall w', only_confirms w w' ->
                     payments_kept w w' /\ payment_ids_ok w') as Hoc.
  { intros w' H. pose proof (only_confirms_kept _ _ H) as HF.
    split; [apply payments_kept_same; exact HF|].
    exact (payment_ids_ok_kept _ _ HF Hids). }
  assert (forall w', payments (db w') = payments (db w) ->
                     payments_kept w w' /\ payment_ids_ok w') as Heq.
  { intros w' H. split; [apply payments_kept_eq; exact H|].
    unfold payment_ids_ok. rewrite H. exact Hids. }
  destruct op as [uid amt product method | sender args
    | sender args | chat payload | uid invoice asset0 amt product | ];
    unfold run_op.
  - destruct Hids as [Hn Hp].
    unfold exec, create_payment, bind, sql_now, get_db, put_db, ret; simpl.
    split; [|split]; simpl.
    + eexists _, [_]. split; [reflexivity|].
      apply Forall2_same. apply payment_kept_refl.
    + rewrite map_app. apply NoDup_snoc; [exact Hn|]. simpl.
      intros Hin. apply lastrowid_fresh in Hin. lia.
    + apply Forall_app. split; [exact Hp|].
      constructor; [|constructor]. simpl. apply lastrowid_positive.
  - apply Hoc, respects_oc_club_confirm.
  - apply Hoc, respects_oc_admin_confirm.
  - apply Hoc, respects_oc_successful_payment.
  - apply Heq.
    unfold exec, create_crypto_payment, bind, sql_now, get_db, put_db, ret.
    reflexivity.
  - apply Heq.
    exact (proj1 (poll_cycle_tables env config w (proj1 Hinv))).
Qed.

Lemma run_ops_keep_payments (env : Env) (config : Config) (ops : list Op) :
  forall w w',
    ledger_inv w -> payment_ids_ok w -> run_ops env config ops w = Some w' ->
    ledger_inv w' /\ payments_kept w w' /\ payment_ids_ok w'.
Proof.
  induction ops as [|op ops IH]; simpl; intros w w' Hinv Hids Hrun.
  - inversion Hrun; subst. split; [exact Hinv|]. split; [|exact Hids].
    apply payments_kept_eq. reflexivity.
  - destruct (admissible op w) eqn:Hadm; [|discriminate].
    destruct (run_op_step env config op w Hinv Hadm) as [Hinv1 _].
    destruct (run_op_keeps_payments env config op w Hinv Hids Hadm)
      as [Hk1 Hids1].
    destruct (IH _ _ Hinv1 Hids1 Hrun) as (Hinv' & Hk' & Hids').
    split; [exact Hinv'|]. split; [|exact Hids'].
    eapply payments_kept_trans; eauto.
Qed.

(** X20.  In every ledger that the payment operations reach from the empty
    one, payment ids are positive and no two payments share one; and
    whatever operations follow - confirmations by either command or by the
    Stars callback, new payments, crypto polls - every payment stays in its
    place with the payer, the amount, the product, the method and the
    creation time it was created with. *)
Theorem payments_keep_their_data
        (env : Env) (config : Config) (ops1 ops2 : list Op) (w w' : World) :
  run_ops env config ops1 initial_world = Some w ->
  run_ops env config ops2 w = Some w' ->
  payments_kept w w' /\ payment_ids_ok w'.
Proof.
  intros H1 H2.
  assert (ledger_inv initial_world) as H0 by (split; simpl; constructor).
  assert (payment_ids_ok initial_world) as I0 by (split; simpl; constructor).
  destruct (run_ops_keep_payments env config ops1 _ _ H0 I0 H1)
    as (Hinv & _ & Hids).
  exact (proj2 (run_ops_keep_payments env config ops2 _ _ Hinv Hids H2)).
Qed.

Lemma payments_keep_their_data_witness :
  payments_kept (run_from demo_ops_before initial_world)
                (run_from demo_ops_after
                          (run_from demo_ops_before initial_world)) /\
  payment_ids_ok (run_from demo_ops_after
                           (run_from demo_ops_before initial_world)).
Proof.
  apply (payments_keep_their_data demo_env demo_config
           demo_ops_before demo_ops_after); reflexivity.
Defined.

(** ** Crypto payments in the store *)

Lemma insert_by_created_desc_sorted (p : CryptoPayment)
      (l : list CryptoPayment) :
  StronglySorted (fun a b => cp_created_at b <= cp_created_at a) l ->
  StronglySorted (fun a b => cp_created_at b <= cp_created_at a)
                 (insert_by_created_desc p l).
Proof.
  intros H. induction H as [|q l Hl IH Hq]; simpl.
  - constructor; constructor.
  - destruct (Z.leb_spec (cp_created_at q) (cp_created_at p)) as [Hle|Hgt].
    + constructor; [constructor; assumption|].
      constructor; [exact Hle|].
      eapply Forall_impl; [|exact Hq]. simpl. intros x Hx. lia.
    + constructor; [exact IH|].
      eapply Permutation_Forall;
        [symmetry; apply insert_by_created_desc_perm|].
      constructor; [lia | exact Hq].
Qed.

Lemma sort_by_created_desc_sorted (l : list CryptoPayment) :
  StronglySorted (fun a b => cp_created_at b <= cp_created_at a)
                 (sort_by_created_desc l).
Proof.
  induction l as [|p l IH]; simpl; [constructor|].
  apply insert_by_created_desc_sorted. exact IH.
Qed.

(** X21.  [get_pending_crypto_payments] returns the pending crypto payments
    and nothing else - each exactly once -, newest first, and each with the
    row of its user if there is one. *)
Theorem pending_crypto_payments_newest_first (w : World) :
  exists rows,
    get_pending_crypto_payments w = (Ok rows, w) /\
    Permutation (map fst rows)
                (filter (fun p => status_eqb (cp_status p) pending)
                        (crypto_payments (db w))) /\
    StronglySorted (fun a b => cp_created_at b <= cp_created_at a)
                   (map fst rows) /\
    Forall (fun pu => snd pu = find_user (cp_user_id (fst pu)) (users (db w)))
           rows.
Proof.
  eexists. split; [reflexivity|].
  rewrite map_map. cbn [fst]. rewrite map_id.
  split; [apply sort_by_created_desc_perm|].
  split; [apply sort_by_created_desc_sorted|].
  apply Forall_forall. intros pu Hpu. apply in_map_iff in Hpu.
  destruct Hpu as (p & <- & _). reflexivity.
Qed.

Lemma find_invoice_fresh (invoice : string) (l : list CryptoPayment) :
  forallb (fun p => negb (String.eqb (invoice_id p) invoice)) l = true ->
  forall y, In y l -> String.eqb (invoice_id y) invoice = false.
Proof.
  intros H y Hy. rewrite forallb_forall in H.
  apply negb_true_iff. exact (H y Hy).
Qed.

(** X22.  A crypto payment created for an invoice that no row refers to is
    found under that invoice, pending, with the id [create_crypto_payment]
    returned and the data given; confirming the invoice then turns exactly
    this row to [confirmed] with a payment time, and leaves every earlier row
    as it was. *)
Theorem crypto_payment_created_then_confirmed
        (env : Env) (w : World) (uid : Z) (invoice asset0 amt product : string) :
  fresh_invoice invoice w = true ->
  let pid := lastrowid (map cp_payment_id (crypto_payments (db w))) in
  let w1 := exec (create_crypto_payment env uid invoice asset0 amt product) w in
  let w2 := exec (confirm_crypto_payment env invoice) w1 in
  fst (create_crypto_payment env uid invoice asset0 amt product w) = Ok pid /\
  (exists t,
     fst (get_crypto_payment_by_invoice invoice w1)
     = Ok (Some (mkCryptoPayment pid uid invoice asset0 amt product
                                 pending t None)) /\
     exists t',
       crypto_payments (db w2)
       = crypto_payments (db w)
         ++ [mkCryptoPayment pid uid invoice asset0 amt product
                             confirmed t (Some t')] /\
       fst (get_crypto_payment_by_invoice invoice w2)
       = Ok (Some (mkCryptoPayment pid uid invoice asset0 amt product
                                   confirmed t (Some t')))).
Proof.
  intros Hfresh. cbv zeta. unfold fresh_invoice in Hfresh.
  pose proof (find_invoice_fresh _ _ Hfresh) as Hno.
  unfold exec, create_crypto_payment, confirm_crypto_payment,
    get_crypto_payment_by_invoice, bind, now, sql_now, get_db, put_db, ret.
  simpl. split; [reflexivity|].
  eexists. split.
  - rewrite find_app_fresh; [reflexivity | exact Hno|].
    simpl. apply String.eqb_refl.
  - eexists.
    rewrite map_app, (map_unchanged _ _ _ Hno). simpl.
    rewrite String.eqb_refl. split; [reflexivity|].
    rewrite find_app_fresh; [reflexivity | exact Hno|].
    simpl. apply String.eqb_refl.
Qed.

Lemma crypto_payment_created_then_confirmed_witness :
  fst (create_crypto_payment demo_env 7 "inv9" "TON" "1.500000" "club"
         initial_world) = Ok 1.
Proof.
  exact (proj1 (crypto_payment_created_then_confirmed demo_env initial_world
                  7 "inv9" "TON" "1.500000" "club" eq_refl)).
Defined.

(** X23.  The Stars callback changes the database only when the payload of
    the message starts with [payment_], the text between the first and the
    second underscore reads as an integer, and a payment of that id exists.
    In every other case - also when the handler raises - the database is
    left as it was. *)
Theorem stars_callback_changes_only_for_a_payment
        (env : Env) (config : Config) (w : World) (chat : Z)
        (payload : string) :
  db (exec (successful_payment_handler env config chat payload) w) <> db w ->
  String.prefix "payment_" payload = true /\
  exists pid p,
    payload_payment_id payload w = (Ok pid, w) /\
    find (fun q => payment_id q =? pid) (payments (db w)) = Some p.
Proof.
  unfold exec, successful_payment_handler. intros Hch.
  destruct (String.prefix "payment_" payload);
    [|exfalso; apply Hch; reflexivity].
  split; [reflexivity|].
  unfold bind at 1 in Hch.
  destruct (payload_payment_id payload w) as [[pid|e] w1] eqn:Hid.
  - assert (w1 = w) as ->.
    { revert Hid. unfold payload_payment_id.
      destruct (split_on _ payload) as [|x [|part l]];
        try (unfold raise; intros H; inversion H; reflexivity).
      destruct (int_of_str part); unfold ret, raise;
        intros H; inversion H; reflexivity. }
    exists pid.
    unfold bind at 1, get_payment, bind at 1, get_db, ret in Hch.
    cbn [fst snd] in Hch.
    destruct (find (fun q => payment_id q =? pid) (payments (db w)))
      as [p|] eqn:Hfind; [|exfalso; apply Hch; reflexivity].
    exists p. auto.
  - exfalso. apply Hch. cbn [snd].
    revert Hid. unfold payload_payment_id.
    destruct (split_on _ payload) as [|x [|part l]];
      try (unfold raise; intros H; inversion H; reflexivity).
    destruct (int_of_str part); unfold ret, raise;
      intros H; inversion H; reflexivity.
Qed.

Lemma stars_callback_changes_only_for_a_payment_witness :
  String.prefix "payment_" "payment_1" = true.
Proof.
  refine (proj1 (stars_callback_changes_only_for_a_payment demo_env demo_config
                   (exec (create_payment demo_env 7 1000 "club" "stars")
                         initial_world)
                   7 "payment_1" _)).
  vm_compute. discriminate.
Defined.

(** ** The fifth referral *)

(** The bookkeeping of a referral, up to the first message: the rest of
    [cmd_start] runs from a world whose database holds the edge, the points
    and the invitee's free days. *)
Lemma cmd_start_booking
      (env : Env) (config : Config) (w : World) (uid referrer : Z)
      (un fn ln : option string) (cmd : string) (ru : User) :
  referrer <> 0 -> referrer <> uid ->
  find_user referrer (users (db w)) = Some ru ->
  (forall e, In e (referrals (db w)) -> ref_user_id e <> uid) ->
  exists w4 t,
    cmd_start env config uid un fn ln [cmd; ref_start_param referrer] w
    = (send_message env referrer
         (MsgReferralReward (points_per_referral config)) ;;
       send_message env uid (MsgReferralWelcome (free_days config)) ;;
       check_referrer_bonuses env referrer)%monad w4 /\
    db w4
    = db (exec (add_subscription env uid (free_days config))
            (exec (update_user_balance referrer (points_per_referral config))
               (exec (add_referral env uid referrer)
                  (exec (add_user env uid un fn ln) w)))) /\
    referrals (db w4)
    = referrals (db w)
      ++ [mkReferral (lastrowid (map referral_id (referrals (db w))))
                     uid referrer t true] /\
    find_user referrer (users (db w4)) <> None.
Proof.
  intros H0 Hself Hru Hnone.
  remember (cmd_start env config uid un fn ln
              [cmd; ref_start_param referrer] w) as R eqn:HR.
  unfold cmd_start in HR. unfold bind at 1 in HR.
  pose proof (add_user_effect env uid un fn ln w) as HA. cbv zeta in HA.
  unfold exec.
  destruct (add_user env uid un fn ln w) as [r w1]. simpl in HA.
  destruct HA as (-> & _ & _ & _ & HR1 & _ & HU1).
  cbn [List.length Nat.ltb Nat.leb last] in HR.
  rewrite start_param_recognised, extract_referrer_id_start_param in HR.
  apply Z.eqb_neq in H0, Hself. rewrite H0, Hself in HR. cbn [negb andb] in HR.
  destruct (HU1 _ _ Hru) as (ru1 & Hru1 & Hb1).
  rewrite (bind_run _ _ w1 w1 (Some ru1)) in HR
    by (unfold get_user, bind, get_db, ret; rewrite Hru1; reflexivity).
  destruct (add_referral_fresh env uid referrer w1) as (t & w2 & E2 & R2 & U2 & S2).
  { rewrite HR1. exact Hnone. }
  rewrite (bind_run _ _ _ _ _ E2) in HR.
  pose proof (lastrowid_positive (map referral_id (referrals (db w1)))) as Hpos.
  apply Z.ltb_lt in Hpos. rewrite Hpos in HR.
  destruct (update_user_balance_run referrer (points_per_referral config) w2)
    as (b & w3 & E3 & U3 & R3 & S3).
  rewrite (bind_run _ _ _ _ _ E3) in HR.
  destruct (add_subscription_ok env uid (free_days config) w3) as (sid & w4 & E4).
  rewrite (bind_run _ _ _ _ _ E4) in HR.
  pose proof (add_subscription_frame env uid (free_days config) w3) as HF.
  cbv zeta in HF. unfold exec in HF. rewrite E4 in HF. simpl in HF.
  destruct HF as (U4 & _ & _ & R4 & _).
  exists w4, t. split; [exact HR|]. cbn [snd].
  rewrite E2. cbn [snd]. rewrite E3. cbn [snd]. rewrite E4. cbn [snd].
  split; [reflexivity|]. split.
  - rewrite R4, R3, R2, HR1. reflexivity.
  - rewrite U4, U3, U2, find_user_credit, Hru1. discriminate.
Qed.

Lemma send_message_accepted (env : Env) (chat : Z) (m : Msg) (w : World) :
  env_bot_ok env (tick w) = true ->
  send_message env chat m w
  = (Ok tt, mkWorld (db w) (S (tick w)) (SendMessage chat m true :: log w)).
Proof.
  intros H. unfold send_message, bot_call. rewrite H. reflexivity.
Qed.

Lemma send_message_refused (env : Env) (chat : Z) (m : Msg) (w : World) :
  env_bot_ok env (tick w) = false ->
  send_message env chat m w
  = (Raise TelegramError,
     mkWorld (db w) (S (tick w)) (SendMessage chat m false :: log w)).
Proof.
  intros H. unfold send_message, bot_call. rewrite H. reflexivity.
Qed.

Lemma count_after_new_edge (referrer : Z) (l : list Referral) (e : Referral) :
  referrer_id e = referrer -> is_active e = true ->
  List.length (filter (fun r => (referrer_id r =? referrer) && is_active r)
                      (l ++ [e]))
  = S (List.length (filter (fun r => (referrer_id r =? referrer) && is_active r)
                           l)).
Proof.
  intros Hr Ha. rewrite filter_app, length_app. simpl.
  rewrite Hr, Z.eqb_refl, Ha. simpl. lia.
Qed.

(** X24.  The fifth referral pays the month: when a [/start] through the
    link of a referrer who has four active referrals books a fifth one and
    the Bot API delivers the messages, the handler returns normally and the
    database is what [add_subscription referrer 30] makes of the database
    after the booking (the edge, the points, the invitee's free days). *)
Theorem cmd_start_fifth_referral_grants_month
        (env : Env) (config : Config) (w : World) (uid referrer : Z)
        (un fn ln : option string) (cmd : string) (ru : User) :
  referrer <> 0 -> referrer <> uid ->
  find_user referrer (users (db w)) = Some ru ->
  (forall e, In e (referrals (db w)) -> ref_user_id e <> uid) ->
  List.length (filter (fun r => (referrer_id r =? referrer) && is_active r)
                      (referrals (db w))) = 4%nat ->
  (forall n, env_bot_ok env n = true) ->
  let run := cmd_start env config uid un fn ln
               [cmd; ref_start_param referrer] w in
  fst run = Ok tt /\
  exists wa,
    db wa
    = db (exec (add_subscription env uid (free_days config))
            (exec (update_user_balance referrer (points_per_referral config))
               (exec (add_referral env uid referrer)
                  (exec (add_user env uid un fn ln) w)))) /\
    db (snd run) = db (exec (add_subscription env referrer 30) wa).
Proof.
  intros H0 Hself Hru Hnone Hcount Hbot. cbv zeta.
  destruct (cmd_start_booking env config w uid referrer un fn ln cmd ru
              H0 Hself Hru Hnone) as (w4 & t & -> & Hdb & Href & Hreg).
  rewrite (bind_run _ _ _ _ _ (send_message_accepted env _ _ w4 (Hbot _))).
  set (w5 := mkWorld (db w4) (S (tick w4)) _).
  rewrite (bind_run _ _ _ _ _ (send_message_accepted env _ _ w5 (Hbot _))).
  set (w6 := mkWorld (db w5) (S (tick w5)) _).
  unfold check_referrer_bonuses.
  rewrite (bind_run _ _ w6 w6 5).
  2:{ unfold count_user_referrals, bind, get_db, ret.
      change (db w6) with (db w4). rewrite Href.
      rewrite count_after_new_edge by reflexivity. rewrite Hcount.
      reflexivity. }
  rewrite (bind_run _ _ w6 w6 (find_user referrer (users (db w4))))
    by reflexivity.
  destruct (find_user referrer (users (db w4))) as [u|]; [|contradiction].
  change (5 =? 3) with false. change (5 =? 5) with true. cbv iota.
  destruct (add_subscription_ok env referrer 30 w6) as (sid & w7 & E7).
  rewrite (bind_run _ _ _ _ _ E7).
  rewrite (send_message_accepted env _ _ w7 (Hbot _)). cbn [fst snd db].
  split; [reflexivity|]. exists w6. split; [exact Hdb|].
  unfold exec at 1. rewrite E7. reflexivity.
Qed.

Lemma cmd_start_fifth_referral_grants_month_witness :
  fst (cmd_start demo_env demo_config 20 None None None
         ["/start"%string; ref_start_param 7] (demo_referrer_world 4)) = Ok tt.
Proof.
  refine (proj1 (cmd_start_fifth_referral_grants_month demo_env demo_config
                   (demo_referrer_world 4) 20 7 None None None "/start"
                   (demo_user 7) _ _ eq_refl _ eq_refl (fun _ => eq_refl))).
  - discriminate.
  - discriminate.
  - simpl. intros e [<-|[<-|[<-|[<-|[]]]]]; simpl; discriminate.
Defined.

(** X25.  The milestone depends on the delivery of a message: when the Bot
    API refuses the notification to the referrer - the referrer has blocked
    the bot, say -, [cmd_start] raises after the booking and never reaches
    [check_referrer_bonuses].  The database is that of the booking alone,
    whatever the number of referrals: a fifth referral then brings the
    referrer no month. *)
Theorem cmd_start_undelivered_notice_skips_milestone
        (env : Env) (config : Config) (w : World) (uid referrer : Z)
        (un fn ln : option string) (cmd : string) (ru : User) :
  referrer <> 0 -> referrer <> uid ->
  find_user referrer (users (db w)) = Some ru ->
  (forall e, In e (referrals (db w)) -> ref_user_id e <> uid) ->
  (forall n, env_bot_ok env n = false) ->
  let run := cmd_start env config uid un fn ln
               [cmd; ref_start_param referrer] w in
  fst run = Raise TelegramError /\
  db (snd run)
  = db (exec (add_subscription env uid (free_days config))
          (exec (update_user_balance referrer (points_per_referral config))
             (exec (add_referral env uid referrer)
                (exec (add_user env uid un fn ln) w)))).
Proof.
  intros H0 Hself Hru Hnone Hbot. cbv zeta.
  destruct (cmd_start_booking env config w uid referrer un fn ln cmd ru
              H0 Hself Hru Hnone) as (w4 & t & -> & Hdb & _ & _).
  rewrite (bind_raise _ _ _ _ _ (send_message_refused env _ _ w4 (Hbot _))).
  cbn [fst snd db]. split; [reflexivity | exact Hdb].
Qed.

Lemma cmd_start_undelivered_notice_skips_milestone_witness :
  fst (cmd_start offline_env demo_config 20 None None None
         ["/start"%string; ref_start_param 7] (demo_referrer_world 4))
  = Raise TelegramError.
Proof.
  refine (proj1 (cmd_start_undelivered_notice_skips_milestone offline_env
                   demo_config (demo_referrer_world 4) 20 7 None None None
                   "/start" (demo_user 7) _ _ eq_refl _ (fun _ => eq_refl))).
  - discriminate.
  - discriminate.
  - simpl. intros e [<-|[<-|[<-|[<-|[]]]]]; simpl; discriminate.
Defined.

(** ** The milestone check on its own *)

(** X26.  [check_referrer_bonuses], once reached, for a referrer present in
    [users] whose count of active referrals is [n]: at [n = 5] the
    referrer's subscription is extended by 30 days - the end date of the
    latest active row moves from [e] to [e] plus 30 days when [e] is not
    behind the clock, to the time of the grant plus 30 days when it is, and
    a referrer without an active row gets a new active row ending 30 days
    after the time of the grant -, no other table changes and one milestone
    message is sent; at [n = 3] and [n = 10] the database is unchanged and
    one milestone message is sent; at any other count nothing happens at
    all. *)
Theorem check_referrer_bonuses_milestones
        (env : Env) (w : World) (referrer n : Z) (u : User) :
  find_user referrer (users (db w)) = Some u ->
  count_user_referrals referrer w = (Ok n, w) ->
  let w' := exec (check_referrer_bonuses env referrer) w in
  let subs := subscriptions (db w) in
  let granted := env_now env (tick w) in
  let checked := env_now env (S (tick w)) in
  let extended (r : Subscription) (e : datetime) :=
    map (fun s => if subscription_id s =? subscription_id r
                  then set_end_date s e else s) subs in
  (n = 5 ->
     (forall r, select_latest_active referrer subs = Some r ->
                checked <= end_date r ->
                subscriptions (db w')
                = extended r (end_date r + 30 * 86400000000)) /\
     (forall r, select_latest_active referrer subs = Some r ->
                end_date r < checked ->
                subscriptions (db w')
                = extended r (granted + 30 * 86400000000)) /\
     (select_latest_active referrer subs = None ->
      subscriptions (db w')
      = subs ++ [mkSubscription (lastrowid (map subscription_id subs))
                   referrer (env_sql_now env (S (tick w)))
                   (granted + 30 * 86400000000) active]) /\
     users (db w') = users (db w) /\
     payments (db w') = payments (db w) /\
     crypto_payments (db w') = crypto_payments (db w) /\
     referrals (db w') = referrals (db w) /\
     exists ok, log w' = SendMessage referrer (MsgMilestone 5) ok :: log w) /\
  (n = 3 \/ n = 10 ->
     db w' = db w /\
     exists ok, log w' = SendMessage referrer (MsgMilestone n) ok :: log w) /\
  (n <> 3 -> n <> 5 -> n <> 10 -> w' = w).
Proof.
  intros Hu Hn w' subs granted checked extended.
  assert (n = 5 ->
          db w' = db (exec (add_subscription env referrer 30) w) /\
          exists ok, log w' = SendMessage referrer (MsgMilestone 5) ok :: log w)
    as H5.
  { intros ->. subst w'.
    unfold exec, check_referrer_bonuses, bind. rewrite Hn.
    unfold get_user, bind, get_db, ret; simpl. rewrite Hu. simpl.
    destruct (add_subscription_ok env referrer 30 w) as (sid & w1 & E).
    pose proof (add_subscription_frame env referrer 30 w) as HF.
    cbv zeta in HF. unfold exec in HF. rewrite E in *. simpl in *.
    split; [reflexivity|].
    destruct HF as (_ & _ & _ & _ & <-). eexists; reflexivity. }
  split; [|split].
  - intros E5. destruct (H5 E5) as (Hdb & Hlog). rewrite Hdb.
    destruct (add_subscription_frame env referrer 30 w) as (HU & HP & HC & HR & _).
    rewrite add_subscription_table. fold subs. fold granted. fold checked.
    change (timedelta 30) with (30 * 86400000000).
    split; [|split; [|split]].
    + intros r Hr Hfut. rewrite Hr.
      apply Z.ltb_ge in Hfut. rewrite Hfut. reflexivity.
    + intros r Hr Hpast. rewrite Hr.
      apply Z.ltb_lt in Hpast. rewrite Hpast. reflexivity.
    + intros Hnone. rewrite Hnone. reflexivity.
    + auto.
  - subst w'. unfold exec, check_referrer_bonuses, bind. rewrite Hn.
    unfold get_user, bind, get_db, ret; simpl. rewrite Hu.
    intros [-> | ->]; simpl; (split; [reflexivity | eexists; reflexivity]).
  - subst w'. unfold exec, check_referrer_bonuses, bind. rewrite Hn.
    unfold get_user, bind, get_db, ret; simpl. rewrite Hu.
    intros H3 H5' H10.
    destruct (Z.eqb_spec n 3); [contradiction|].
    destruct (Z.eqb_spec n 5); [contradiction|].
    destruct (Z.eqb_spec n 10); [contradiction|]. reflexivity.
Qed.

Lemma check_referrer_bonuses_milestones_witness :
  map (fun s => (sub_user_id s, end_date s))
      (subscriptions
         (db (exec (check_referrer_bonuses demo_env 7) (demo_referrer_world 5))))
  = [(7, env_now demo_env 0 + 30 * 86400000000)].
Proof.
  pose proof (check_referrer_bonuses_milestones demo_env
                (demo_referrer_world 5) 7 5 (demo_user 7) eq_refl eq_refl)
    as H.
  cbv zeta in H. destruct H as (H5 & _).
  destruct (H5 eq_refl) as (_ & _ & Hnone & _).
  rewrite (Hnone eq_refl). reflexivity.
Defined.
